(** * Storyboard-to-video pipeline of comicra

    A shallow embedding of the video producer
    (components/VideoProducer.tsx) and of the generation service it drives
    (services/videoGeminiService.ts), followed by the properties of the
    pipeline specification.

    Conventions of the embedding.
    - JavaScript strings are [string], holding the UTF-8 text of a
      well-formed string; an optional field ([x?: T]) is an [option];
      [undefined] is [None].
    - Integral JavaScript numbers are [Z]; a number that the code itself
      rounds (the duration reported by the decomposition service) is a
      rational [Q], which covers every finite double. Sums and decimal
      numerals of integers are those of [Z], which is what JavaScript
      computes and prints for integers of magnitude below 2^53: clock
      readings, indices, durations and token counts are in that range.
    - The external generation services are not code of the repository: each
      call site receives its response from a record of oracles, so every
      theorem quantifies over all possible service behaviours.
    - [await]ed code that can throw lives in the monad [M] (component state
      plus exceptions); [try]/[catch]/[finally] are combinators of [M]. An
      awaited promise may also never settle ([Never]); the handler then
      never returns.
    - A handler runs from its call to its return without another handler
      running in between; [console.error] and the ten second sleep between
      two polls have no effect on the state and are left out. *)

From Stdlib Require Import Ascii String QArith Qround Lqa.
From stdpp Require Import base numbers list strings pretty gmap.

Local Open Scope string_scope.
Local Open Scope list_scope.

(** ** JavaScript values *)

(** A thrown value: [error instanceof Error] holds for [JsError], whose
    payload is [error.message]; anything else that can be thrown is
    [JsOther]. *)
Inductive exn : Type :=
  | JsError (message : string)
  | JsOther.

(** How an awaited promise ends: it resolves, it rejects, or it never
    settles (a request that is never answered, a job that is never
    reported done). *)
Inductive result (A : Type) : Type :=
  | Ok (a : A)
  | Throw (e : exn)
  | Never.
Arguments Ok {A} a.
Arguments Throw {A} e.
Arguments Never {A}.

Definition settled {A} (r : result A) : Prop := r <> Never.

Definition nl : string := String "010"%char EmptyString.
Definition dquote : string := String "034"%char EmptyString.

(** A template literal whose every line ends with a line feed. *)
Definition template (lines : list string) : string :=
  String.concat "" (map (fun l => l +:+ nl) lines).

(** [Array.prototype.join]. *)
Definition join (sep : string) (l : list string) : string := String.concat sep l.

(** [Array.prototype.find]. *)
Fixpoint find {A} (p : A -> bool) (l : list A) : option A :=
  match l with
  | [] => None
  | x :: r => if p x then Some x else find p r
  end.

(** [Math.round]: the nearest integer, halves going up. *)
Definition Math_round (x : Q) : Z := Qfloor (x + (1 # 2)).
Definition Math_min (a b : Z) : Z := Z.min a b.

(** [x || d] on an optional string: the empty string is falsy. *)
Definition orDefault (x : option string) (d : string) : string :=
  match x with
  | Some s => if String.eqb s "" then d else s
  | None => d
  end.

(** [!x] on an optional string. *)
Definition falsy (x : option string) : bool :=
  match x with
  | Some s => String.eqb s ""
  | None => true
  end.

(** ** Data model (types.ts, as used by the two modules) *)

Module Page.
(** [{data: string, mimeType: string}] *)
Record t := mk { data : string; mimeType : string }.
End Page.

Module Character.
Record t := mk {
  id : string;
  name : string;
  description : option string;
  sheetImage : string }.
End Character.

(** ['seedance' | 'hailuo' | 'veo' | 'kling'] *)
Module VideoModelId.
Inductive t := seedance | hailuo | veo | kling.
Definition all : list t := [seedance; hailuo; veo; kling].
End VideoModelId.

(** [Record<VideoModelId, string>] *)
Module Prompts.
Record t := mk { seedance : string; hailuo : string; veo : string; kling : string }.
Definition get (p : t) (m : VideoModelId.t) : string :=
  match m with
  | VideoModelId.seedance => seedance p
  | VideoModelId.hailuo => hailuo p
  | VideoModelId.veo => veo p
  | VideoModelId.kling => kling p
  end.
End Prompts.

(** A panel as parsed from the decomposition response:
    [Omit<InitialSceneData, 'recommendedModel' | 'reasoning'>]. The duration
    is any finite number; the page index is taken integral, as the response
    schema describes it, but is otherwise arbitrary. *)
Module Panel.
Record t := mk {
  sceneDescription : string;
  narrative : string;
  duration : Q;
  charactersInScene : list string;
  sourcePageIndex : Z }.
End Panel.

(** [InitialSceneData]. The recommended model is whatever string the
    recommendation response carried: the cast to [VideoModelId] in
    [recommendVideoModel] checks nothing. *)
Module InitialSceneData.
Record t := mk {
  sceneDescription : string;
  narrative : string;
  duration : Z;
  charactersInScene : list string;
  sourcePageIndex : Z;
  recommendedModel : string;
  reasoning : string }.
End InitialSceneData.

Inductive VideoGenerationStatus := idle | pending | done | error.

Module VideoScene.
Record t := mk {
  id : string;
  description : string;
  duration : Z;
  sourcePageIndex : Z;
  charactersInScene : list string;
  recommendedModel : string;
  reasoning : string;
  isLoading : bool;
  videoGenerationStatus : VideoGenerationStatus;
  startFrame : option string;
  endFrame : option string;
  prompts : option Prompts.t;
  videoGenerationProgress : option string;
  generatedVideoUrl : option string }.
End VideoScene.

(** [Omit<UsageRecord, 'id' | 'timestamp'>]; [costUSD] is the constant 0
    wherever this module builds a record. *)
Module UsageRecord.
Record t := mk {
  task : string;
  tokens : option N;
  images : option N;
  videoSeconds : option Z;
  costUSD : N }.
End UsageRecord.

Definition createTextUsageRecord (task : string) (promptTokens completionTokens : N)
  : UsageRecord.t :=
  UsageRecord.mk task (Some (promptTokens + completionTokens)%N) None None 0.

Definition createImageUsageRecord (task : string) (imageCount : N) : UsageRecord.t :=
  UsageRecord.mk task None (Some imageCount) None 0.

Definition createVideoUsageRecord (task : string) (durationSeconds : Z) : UsageRecord.t :=
  UsageRecord.mk task None None (Some durationSeconds) 0.

(** ** PromptComposer (videoGeminiService.ts, section 6) *)

Definition getCharacterAnchors (scene : InitialSceneData.t)
    (allCharacters : list Character.t) : string :=
  join nl
    (map (fun charName =>
            let charData := find (fun c => String.eqb (Character.name c) charName) allCharacters in
            "- character: " +:+ charName +:+ ", "
              +:+ orDefault (charData ≫= Character.description) "No description")
         (InitialSceneData.charactersInScene scene)).

Definition generateSeedancePrompt (scene : InitialSceneData.t)
    (allCharacters : list Character.t) : string :=
  let charAnchors := getCharacterAnchors scene allCharacters in
  template [
    "Title: Scene " +:+ pretty (InitialSceneData.sourcePageIndex scene + 1)%Z;
    "Duration: " +:+ pretty (InitialSceneData.duration scene)
      +:+ "s  Aspect: 16:9  Style: cinematic, modern webtoon/anime style";
    "Consistency anchors:";
    charAnchors;
    "- mood: [auto-detect from scene]";
    "";
    "Shot 1 (0-" +:+ pretty (InitialSceneData.duration scene) +:+ "s):";
    "- action: " +:+ InitialSceneData.sceneDescription scene +:+ ". "
      +:+ InitialSceneData.narrative scene +:+ ".";
    "- camera: [auto-detect from scene, cinematic]";
    "- include anchors: all characters in scene";
    "";
    "Negative:";
    "- avoid: text artifacts, logos, watermarks, bad anatomy" ].

Definition generateHailuoPrompt (scene : InitialSceneData.t)
    (allCharacters : list Character.t) : string :=
  template [
    "Task: Animate a short clip from a webtoon panel: "
      +:+ InitialSceneData.sceneDescription scene;
    "Length: " +:+ pretty (InitialSceneData.duration scene) +:+ "s  Aspect: 16:9";
    "Action physics:";
    "- body mechanics: " +:+ InitialSceneData.narrative scene
      +:+ ", with realistic weight and momentum.";
    "- speed profile: natural acceleration and deceleration.";
    "- environment forces: subtle ambient motion.";
    "";
    "Camera:";
    "- rig: cinematic, dynamic camera that enhances the action.";
    "- lens: 35mm";
    "- move: subtle dolly or pan to follow action.";
    "";
    "Look:";
    "- style: vibrant, modern webtoon/anime, high contrast.";
    "- lighting: cinematic lighting, rim lights, detailed shadows.";
    "";
    "Negative:";
    "- avoid: limb bending artifacts, background wobble, static comic look" ].

Definition generateVeoPrompt (scene : InitialSceneData.t)
    (allCharacters : list Character.t) : string :=
  template [
    "Title: Webtoon Scene " +:+ pretty (InitialSceneData.sourcePageIndex scene + 1)%Z;
    "Duration: " +:+ pretty (InitialSceneData.duration scene)
      +:+ "s  Aspect: 16:9  Style: High-quality anime scene, cinematic, detailed background.";
    "Visual:";
    "- Shot 1 (0-" +:+ pretty (InitialSceneData.duration scene) +:+ "s): "
      +:+ InitialSceneData.sceneDescription scene +:+ ". Action to perform: "
      +:+ InitialSceneData.narrative scene +:+ ".";
    "";
    "Audio:";
    "- sfx: [appropriate ambient sounds for the scene]";
    "- music: [instrumental music matching the mood]";
    "";
    "Negative:";
    "- avoid: text, speech bubbles, panel borders, photorealism." ].

Definition generateKlingPrompt (scene : InitialSceneData.t)
    (allCharacters : list Character.t) : string :=
  let charLocks := join ", " (InitialSceneData.charactersInScene scene) in
  template [
    "Mode: High  Length: " +:+ pretty (InitialSceneData.duration scene)
      +:+ "s  Aspect: 16:9  Style: anime, cinematic";
    "Reference images:";
    "- subject: [The provided webtoon panel is the primary style and character reference]";
    "Lock:";
    "- keep: [" +:+ charLocks +:+ " hairstyle, color, outfit, face]";
    "- do not change: character designs from reference.";
    "";
    "Shot plan:";
    "- Shot 1 (0-" +:+ pretty (InitialSceneData.duration scene) +:+ "s): "
      +:+ InitialSceneData.sceneDescription scene +:+ ". During the shot, "
      +:+ InitialSceneData.narrative scene +:+ ".";
    "";
    "Camera & Look:";
    "- lens [35mm], movement [subtle, cinematic], lighting [dramatic, source-aware]";
    "";
    "Negative:";
    "- avoid: ref drift, extra accessories, background text" ].

Definition generateAllModelPrompts (scene : InitialSceneData.t)
    (characters : list Character.t) : Prompts.t :=
  {| Prompts.seedance := generateSeedancePrompt scene characters;
     Prompts.hailuo := generateHailuoPrompt scene characters;
     Prompts.veo := generateVeoPrompt scene characters;
     Prompts.kling := generateKlingPrompt scene characters |}.

(** ** The external generation service *)

(** The answer to a JSON text request. [parsed] is the value of
    [JSON.parse(response.text.trim())], or [None] when that expression
    throws (no text, or text that is not JSON). *)
Module TextResponse.
Record t (A : Type) := mk {
  parsed : option A;
  promptTokenCount : N;
  candidatesTokenCount : N }.
Arguments mk {A}.
Arguments parsed {A}.
Arguments promptTokenCount {A}.
Arguments candidatesTokenCount {A}.
End TextResponse.

(** The first candidate of an image request: an inline image part, else a
    text part, else neither. *)
Inductive ImageResponse :=
  | ImageInline (mimeType data : string)
  | ImageText (text : string)
  | ImageEmpty.

(** A long-running video operation as the client sees it. *)
Module Operation.
Record t := mk {
  done : bool;
  error : option string;       (* operation.error?.message *)
  uri : option string }.       (* response?.generatedVideos?.[0]?.video?.uri *)
End Operation.

Module FetchResponse.
Record t := mk {
  ok : bool;
  statusText : string;
  objectURL : string }.        (* URL.createObjectURL(await response.blob()) *)
End FetchResponse.

(** One oracle per call site. Calls made once per scene of a build carry the
    index of the scene, so two scenes with equal arguments may still be
    answered differently. [getVideosOperation] is the script of the answers
    to the successive polls of one job. *)
Record Services := {
  apiKey : string;
  ai_storyboard : list Page.t -> list Character.t -> result (TextResponse.t (list Panel.t));
  ai_recommend : nat -> string -> string -> result (TextResponse.t (string * string));
  ai_startFrame : nat -> string -> Page.t -> result ImageResponse;
  ai_endFrame : nat -> string -> string -> Z -> result ImageResponse;
  ai_regenerate : string -> string -> string -> result ImageResponse;
  generateVideos : string -> option string -> result Operation.t;
  getVideosOperation : list (result Operation.t);
  fetch : string -> result FetchResponse.t }.

(** ** videoGeminiService.ts *)

Definition recommendVideoModel (svc : Services) (i : nat)
    (sceneDescription narrative : string)
  : result ((string * string) * UsageRecord.t) :=
  match ai_recommend svc i sceneDescription narrative with
  | Never => Never
  | Throw e => Throw e
  | Ok response =>
      match TextResponse.parsed response with
      | Some result =>
          Ok (result,
              createTextUsageRecord "Recommend Video Model"
                (TextResponse.promptTokenCount response)
                (TextResponse.candidatesTokenCount response))
      | None =>
          (* Fallback in case of failure *)
          Ok (("seedance", "Default recommendation due to an error."),
              createTextUsageRecord "Recommend Video Model (Failed)"
                (TextResponse.promptTokenCount response)
                (TextResponse.candidatesTokenCount response))
      end
  end.

Definition addTokens (usage recommendUsage : UsageRecord.t) : UsageRecord.t :=
  UsageRecord.mk (UsageRecord.task usage)
    (Some (default 0 (UsageRecord.tokens usage)
           + default 0 (UsageRecord.tokens recommendUsage))%N)
    (UsageRecord.images usage) (UsageRecord.videoSeconds usage)
    (UsageRecord.costUSD usage + UsageRecord.costUSD recommendUsage)%N.

Definition enrichPanel (panel : Panel.t) (model reasoning : string) : InitialSceneData.t :=
  {| InitialSceneData.sceneDescription := Panel.sceneDescription panel;
     InitialSceneData.narrative := Panel.narrative panel;
     InitialSceneData.duration := Math_min (Math_round (Panel.duration panel)) 10;
     InitialSceneData.charactersInScene := Panel.charactersInScene panel;
     InitialSceneData.sourcePageIndex := Panel.sourcePageIndex panel;
     InitialSceneData.recommendedModel := model;
     InitialSceneData.reasoning := reasoning |}.

(** The [async] callback of [panels.map]. The usage of the recommendation is
    returned with the panel; the caller adds it to the shared record. *)
Definition enrichedPanel (svc : Services) (i : nat) (panel : Panel.t)
  : result (InitialSceneData.t * UsageRecord.t) :=
  match recommendVideoModel svc i (Panel.sceneDescription panel) (Panel.narrative panel) with
  | Never => Never
  | Throw e => Throw e
  | Ok ((model, reasoning), recommendUsage) =>
      Ok (enrichPanel panel model reasoning, recommendUsage)
  end.

(** [Promise.all]: rejects as soon as one of the promises rejects, resolves
    once all have resolved. Of several rejections the model keeps the first
    in list order; no caller in this program looks at which one it is. *)
Fixpoint Promise_all {A} (promises : list (result A)) : result (list A) :=
  match promises with
  | [] => Ok []
  | p :: rest =>
      match p, Promise_all rest with
      | Throw e, _ => Throw e
      | _, Throw e => Throw e
      | Never, _ => Never
      | _, Never => Never
      | Ok a, Ok values => Ok (a :: values)
      end
  end.

Definition generateStoryboardFromPages (svc : Services)
    (pageImages : list Page.t) (characters : list Character.t)
  : result (list InitialSceneData.t * UsageRecord.t) :=
  match ai_storyboard svc pageImages characters with
  | Never => Never
  | Throw e => Throw e
  | Ok response =>
      let usage := createTextUsageRecord "Storyboard Generation"
                     (TextResponse.promptTokenCount response)
                     (TextResponse.candidatesTokenCount response) in
      match TextResponse.parsed response with
      | None => Throw (JsError "Failed to get a valid storyboard from AI.")
      | Some panels =>
          match Promise_all (imap (enrichedPanel svc) panels) with
          | Never => Never
          | Throw _ => Throw (JsError "Failed to get a valid storyboard from AI.")
          | Ok enriched =>
              Ok (map fst enriched, fold_left addTokens (map snd enriched) usage)
          end
      end
  end.

(** What the three frame functions do with the answer of the image model. *)
Definition imageOrThrow (task textError emptyError : string) (r : result ImageResponse)
  : result (string * UsageRecord.t) :=
  match r with
  | Never => Never
  | Throw e => Throw e
  | Ok (ImageInline mimeType data) =>
      Ok ("data:" +:+ mimeType +:+ ";base64," +:+ data, createImageUsageRecord task 1)
  | Ok (ImageText text) =>
      if String.eqb text "" then Throw (JsError emptyError)
      else Throw (JsError (textError +:+ dquote +:+ text +:+ dquote))
  | Ok ImageEmpty => Throw (JsError emptyError)
  end.

(** [referenceImage] is [pagesToImport[panel.sourcePageIndex]], which is
    [undefined] out of range: reading its [data] is then a TypeError. *)
Definition generateVideoFrame (svc : Services) (i : nat) (prompt : string)
    (referenceImage : option Page.t) : result (string * UsageRecord.t) :=
  match referenceImage with
  | None => Throw (JsError "Cannot read properties of undefined (reading 'data')")
  | Some img =>
      imageOrThrow "Generate Video Frame"
        "AI did not return an image. Response: "
        "AI did not return an image for the video frame."
        (ai_startFrame svc i prompt img)
  end.

Definition generateWebtoonEndFrame (svc : Services) (i : nat)
    (startFrameBase64 narrative : string) (duration : Z) : result (string * UsageRecord.t) :=
  imageOrThrow "Generate End Frame"
    "AI did not return an image. Response: "
    "AI did not return an end frame for the webtoon scene."
    (ai_endFrame svc i startFrameBase64 narrative duration).

Definition regenerateVideoFrame (svc : Services)
    (originalFrameBase64 editPrompt originalSceneDescription : string)
  : result (string * UsageRecord.t) :=
  imageOrThrow "Regenerate Frame"
    "AI did not return an image for regeneration. Response: "
    "AI did not return a regenerated image."
    (ai_regenerate svc originalFrameBase64 editPrompt originalSceneDescription).

(** ** The component state and its monad (VideoProducer.tsx) *)

Inductive FrameType := start | end_.

(** The [useState] cells of [VideoProducer] that the handlers write, and what
    the handlers send out of the component: usage records
    ([addUsageRecord]), alerts, every value given to [setScenes], oldest
    first (what a subscriber of the storyboard observes), and the video jobs
    submitted to the service, as (prompt, start frame). *)
Record State := mkState {
  showImportModal : bool;
  isGenerating : bool;
  scenes : list VideoScene.t;
  selectedSceneId : option string;
  importedPages : list Page.t;
  regenState : option (string * FrameType);
  regeneratingFrame : option (string * FrameType);
  usageRecords : list UsageRecord.t;
  alerts : list string;
  published : list (list VideoScene.t);
  submittedJobs : list (string * option string) }.

Definition initialState : State :=
  mkState false false [] None [] None None [] [] [] [].

Definition M (A : Type) : Type := State -> result A * State.

Definition ret {A} (a : A) : M A := fun st => (Ok a, st).

Definition bind {A B} (m : M A) (k : A -> M B) : M B :=
  fun st =>
    match m st with
    | (Ok a, st') => k a st'
    | (Throw e, st') => (Throw e, st')
    | (Never, st') => (Never, st')
    end.

(** [await p] for a promise whose fate is [r]. *)
Definition await {A} (r : result A) : M A := fun st => (r, st).

Notation "'let!' x ':=' m 'in' k" := (bind m (fun x => k))
  (at level 10, x pattern, m at level 100, k at level 200).
Notation "m ';;' k" := (bind m (fun _ => k))
  (at level 100, k at level 200, right associativity).

(** [try { body } catch (error) { handler error }] *)
Definition tryCatch {A} (body : M A) (handler : exn -> M A) : M A :=
  fun st =>
    match body st with
    | (Throw e, st') => handler e st'
    | r => r
    end.

(** [try { body } finally { cleanup }] *)
Definition tryFinally {A} (body : M A) (cleanup : M unit) : M A :=
  fun st =>
    match body st with
    | (Never, st') => (Never, st')
    | (r, st') =>
        match cleanup st' with
        | (Ok _, st'') => (r, st'')
        | (Throw e, st'') => (Throw e, st'')
        | (Never, st'') => (Never, st'')
        end
    end.

(** [error instanceof Error ? error.message : fallback] *)
Definition messageOr (error : exn) (fallback : string) : string :=
  match error with
  | JsError message => message
  | JsOther => fallback
  end.

Definition setShowImportModal (b : bool) : M unit := fun st =>
  (Ok tt, mkState b (isGenerating st) (scenes st) (selectedSceneId st) (importedPages st)
            (regenState st) (regeneratingFrame st) (usageRecords st) (alerts st) (published st) (submittedJobs st)).

Definition setIsGenerating (b : bool) : M unit := fun st =>
  (Ok tt, mkState (showImportModal st) b (scenes st) (selectedSceneId st) (importedPages st)
            (regenState st) (regeneratingFrame st) (usageRecords st) (alerts st) (published st) (submittedJobs st)).

(** [setScenes(prev => f prev)]; [setScenes(v)] is [setScenes (const v)]. *)
Definition setScenes (f : list VideoScene.t -> list VideoScene.t) : M unit := fun st =>
  (Ok tt, mkState (showImportModal st) (isGenerating st) (f (scenes st)) (selectedSceneId st)
            (importedPages st) (regenState st) (regeneratingFrame st) (usageRecords st)
            (alerts st) (published st ++ [f (scenes st)]) (submittedJobs st)).

Definition setSelectedSceneId (v : option string) : M unit := fun st =>
  (Ok tt, mkState (showImportModal st) (isGenerating st) (scenes st) v (importedPages st)
            (regenState st) (regeneratingFrame st) (usageRecords st) (alerts st) (published st) (submittedJobs st)).

Definition setImportedPages (v : list Page.t) : M unit := fun st =>
  (Ok tt, mkState (showImportModal st) (isGenerating st) (scenes st) (selectedSceneId st) v
            (regenState st) (regeneratingFrame st) (usageRecords st) (alerts st) (published st) (submittedJobs st)).

Definition setRegenState (v : option (string * FrameType)) : M unit := fun st =>
  (Ok tt, mkState (showImportModal st) (isGenerating st) (scenes st) (selectedSceneId st)
            (importedPages st) v (regeneratingFrame st) (usageRecords st) (alerts st)
            (published st) (submittedJobs st)).

Definition setRegeneratingFrame (v : option (string * FrameType)) : M unit := fun st =>
  (Ok tt, mkState (showImportModal st) (isGenerating st) (scenes st) (selectedSceneId st)
            (importedPages st) (regenState st) v (usageRecords st) (alerts st) (published st) (submittedJobs st)).

Definition addUsageRecord (u : UsageRecord.t) : M unit := fun st =>
  (Ok tt, mkState (showImportModal st) (isGenerating st) (scenes st) (selectedSceneId st)
            (importedPages st) (regenState st) (regeneratingFrame st) (usageRecords st ++ [u])
            (alerts st) (published st) (submittedJobs st)).

(** [await ai.models.generateVideos(requestPayload)] *)
Definition submitJob (svc : Services) (prompt : string) (startFrame : option string)
  : M Operation.t := fun st =>
  (generateVideos svc prompt startFrame,
   mkState (showImportModal st) (isGenerating st) (scenes st) (selectedSceneId st)
     (importedPages st) (regenState st) (regeneratingFrame st) (usageRecords st)
     (alerts st) (published st) (submittedJobs st ++ [(prompt, startFrame)])).

Definition alert (message : string) : M unit := fun st =>
  (Ok tt, mkState (showImportModal st) (isGenerating st) (scenes st) (selectedSceneId st)
            (importedPages st) (regenState st) (regeneratingFrame st) (usageRecords st)
            (alerts st ++ [message]) (published st) (submittedJobs st)).

(** *** Scene patches: the object spreads of the handlers *)

(** [{ ...s, startFrame, endFrame, prompts: allPrompts, isLoading: false }] *)
Definition patchFrames (startFrame endFrame : string) (allPrompts : Prompts.t)
    (s : VideoScene.t) : VideoScene.t :=
  VideoScene.mk (VideoScene.id s) (VideoScene.description s) (VideoScene.duration s)
    (VideoScene.sourcePageIndex s) (VideoScene.charactersInScene s)
    (VideoScene.recommendedModel s) (VideoScene.reasoning s)
    false (VideoScene.videoGenerationStatus s)
    (Some startFrame) (Some endFrame) (Some allPrompts)
    (VideoScene.videoGenerationProgress s) (VideoScene.generatedVideoUrl s).

(** [{ ...s, [frameType === 'start' ? 'startFrame' : 'endFrame']: newFrame }] *)
Definition patchFrame (frameType : FrameType) (newFrame : string)
    (s : VideoScene.t) : VideoScene.t :=
  VideoScene.mk (VideoScene.id s) (VideoScene.description s) (VideoScene.duration s)
    (VideoScene.sourcePageIndex s) (VideoScene.charactersInScene s)
    (VideoScene.recommendedModel s) (VideoScene.reasoning s)
    (VideoScene.isLoading s) (VideoScene.videoGenerationStatus s)
    (match frameType with start => Some newFrame | end_ => VideoScene.startFrame s end)
    (match frameType with start => VideoScene.endFrame s | end_ => Some newFrame end)
    (VideoScene.prompts s)
    (VideoScene.videoGenerationProgress s) (VideoScene.generatedVideoUrl s).

(** [{ ...s, videoGenerationStatus: status, videoGenerationProgress: progress }] *)
Definition patchStatusProgress (status : VideoGenerationStatus) (progress : string)
    (s : VideoScene.t) : VideoScene.t :=
  VideoScene.mk (VideoScene.id s) (VideoScene.description s) (VideoScene.duration s)
    (VideoScene.sourcePageIndex s) (VideoScene.charactersInScene s)
    (VideoScene.recommendedModel s) (VideoScene.reasoning s)
    (VideoScene.isLoading s) status
    (VideoScene.startFrame s) (VideoScene.endFrame s) (VideoScene.prompts s)
    (Some progress) (VideoScene.generatedVideoUrl s).

(** [{ ...s, videoGenerationProgress: progress }] *)
Definition patchProgress (progress : string) (s : VideoScene.t) : VideoScene.t :=
  patchStatusProgress (VideoScene.videoGenerationStatus s) progress s.

(** [{ ...s, videoGenerationStatus: 'done', generatedVideoUrl: videoUrl }] *)
Definition patchDone (videoUrl : string) (s : VideoScene.t) : VideoScene.t :=
  VideoScene.mk (VideoScene.id s) (VideoScene.description s) (VideoScene.duration s)
    (VideoScene.sourcePageIndex s) (VideoScene.charactersInScene s)
    (VideoScene.recommendedModel s) (VideoScene.reasoning s)
    (VideoScene.isLoading s) done
    (VideoScene.startFrame s) (VideoScene.endFrame s) (VideoScene.prompts s)
    (VideoScene.videoGenerationProgress s) (Some videoUrl).

(** [prev.map(s => s.id === sceneId ? patch s : s)]: the one shape of every
    update of an existing storyboard. *)
Definition patchById (sceneId : string) (patch : VideoScene.t -> VideoScene.t)
    (prev : list VideoScene.t) : list VideoScene.t :=
  map (fun s => if String.eqb (VideoScene.id s) sceneId then patch s else s) prev.

(** ** handleGenerateStoryboard *)

(** [pagesToImport[index]] for a numeric index. *)
Definition pageAt (pagesToImport : list Page.t) (index : Z) : option Page.t :=
  if (index <? 0)%Z then None else pagesToImport !! Z.to_nat index.

(** The placeholder of panel [i]. [now i] is what [Date.now()] returns when
    the callback of [map] runs for index [i]. *)
Definition placeholderScene (now : nat -> N) (i : nat) (panel : InitialSceneData.t)
  : VideoScene.t :=
  {| VideoScene.id := pretty (now i) +:+ pretty i;
     VideoScene.description := InitialSceneData.sceneDescription panel;
     VideoScene.duration := InitialSceneData.duration panel;
     VideoScene.sourcePageIndex := InitialSceneData.sourcePageIndex panel;
     VideoScene.charactersInScene := InitialSceneData.charactersInScene panel;
     VideoScene.recommendedModel := InitialSceneData.recommendedModel panel;
     VideoScene.reasoning := InitialSceneData.reasoning panel;
     VideoScene.isLoading := true;
     VideoScene.videoGenerationStatus := idle;
     VideoScene.startFrame := None;
     VideoScene.endFrame := None;
     VideoScene.prompts := None;
     VideoScene.videoGenerationProgress := None;
     VideoScene.generatedVideoUrl := None |}.

Definition placeholderScenes (now : nat -> N) (initialSceneData : list InitialSceneData.t)
  : list VideoScene.t :=
  imap (placeholderScene now) initialSceneData.

(** The body of the [for] loop, for scene [i]. Of the two promises given to
    [Promise.all] only the start frame can reject or stay pending; the prompt
    map is always there. *)
Definition processScene (svc : Services) (characters : list Character.t)
    (pagesToImport : list Page.t) (i : nat) (panel : InitialSceneData.t)
    (placeholder : VideoScene.t) : M unit :=
  let sourceImage := pageAt pagesToImport (InitialSceneData.sourcePageIndex panel) in
  let! (startFrame, startFrameUsage) :=
    await (generateVideoFrame svc i (InitialSceneData.sceneDescription panel) sourceImage) in
  let allPrompts := generateAllModelPrompts panel characters in
  addUsageRecord startFrameUsage ;;
  let! (endFrame, endFrameUsage) :=
    await (generateWebtoonEndFrame svc i startFrame (InitialSceneData.narrative panel)
             (InitialSceneData.duration panel)) in
  addUsageRecord endFrameUsage ;;
  setScenes (patchById (VideoScene.id placeholder) (patchFrames startFrame endFrame allPrompts)).

(** [for (let i = 0; i < initialSceneData.length; i++)], from index [i] on. *)
Fixpoint forEachScene (body : nat -> InitialSceneData.t -> VideoScene.t -> M unit)
    (i : nat) (initialSceneData : list InitialSceneData.t)
    (placeholders : list VideoScene.t) : M unit :=
  match initialSceneData, placeholders with
  | panel :: panels, placeholder :: rest =>
      body i panel placeholder ;; forEachScene body (S i) panels rest
  | _, _ => ret tt
  end.

(** The [try] block from the publication of the placeholders on. *)
Definition buildScenes (svc : Services) (now : nat -> N) (characters : list Character.t)
    (pagesToImport : list Page.t) (initialSceneData : list InitialSceneData.t) : M unit :=
  let placeholders := placeholderScenes now initialSceneData in
  setScenes (const placeholders) ;;
  forEachScene (processScene svc characters pagesToImport) 0 initialSceneData placeholders ;;
  match placeholders with
  | first :: _ => setSelectedSceneId (Some (VideoScene.id first))
  | [] => ret tt
  end.

(** The [catch] block. *)
Definition buildFailed (error : exn) : M unit :=
  alert ("Storyboard Generation Failed: " +:+ messageOr error "Unknown Error") ;;
  setScenes (const []).

Definition handleGenerateStoryboard (svc : Services) (now : nat -> N)
    (characters : list Character.t) (pagesToImport : list Page.t) : M unit :=
  if Nat.eqb (length pagesToImport) 0 then ret tt else
  setImportedPages pagesToImport ;;
  setShowImportModal false ;;
  setIsGenerating true ;;
  setScenes (const []) ;;
  setSelectedSceneId None ;;
  tryFinally
    (tryCatch
       (let! (initialSceneData, storyboardUsage) :=
          await (generateStoryboardFromPages svc pagesToImport characters) in
        addUsageRecord storyboardUsage ;;
        buildScenes svc now characters pagesToImport initialSceneData)
       buildFailed)
    (setIsGenerating false).

(** ** handleRegenerateFrame *)

Definition frameOf (frameType : FrameType) (s : VideoScene.t) : option string :=
  match frameType with
  | start => VideoScene.startFrame s
  | end_ => VideoScene.endFrame s
  end.

Definition handleRegenerateFrame (svc : Services) (sceneId : string)
    (frameType : FrameType) (editPrompt : string) : M unit :=
  fun st =>
    let sceneToRegen := find (fun s => String.eqb (VideoScene.id s) sceneId) (scenes st) in
    let originalFrame := sceneToRegen ≫= frameOf frameType in
    match sceneToRegen, originalFrame with
    | Some sceneToRegen, Some originalFrame =>
        if String.eqb originalFrame "" then (Ok tt, st) else
        (setRegeneratingFrame (Some (sceneId, frameType)) ;;
         setRegenState None ;;
         tryFinally
           (tryCatch
              (let! (newFrame, usage) :=
                 await (regenerateVideoFrame svc originalFrame editPrompt
                          (VideoScene.description sceneToRegen)) in
               addUsageRecord usage ;;
               setScenes (patchById sceneId (patchFrame frameType newFrame)))
              (fun error =>
                 alert ("Frame regeneration failed: " +:+ messageOr error "Unknown Error")))
           (setRegeneratingFrame None)) st
    | _, _ => (Ok tt, st)
    end.

(** ** generateVeoVideo and handleCreateVeoVideo *)

Definition progressMessages : list string :=
  [ "Casting characters...";
    "Setting up the scene...";
    "Director is shouting 'Action!'...";
    "Rendering photons...";
    "Compositing layers...";
    "Adding final touches..." ].

(** [while (!operation.done) { ... }]: [polls] are the answers that the
    service will give to the polls still to come; when they run out with the
    job still pending, the loop is still waiting. The 10 second sleep
    between polls has no effect on the state. *)
Fixpoint pollLoop (onProgressUpdate : string -> M unit) (operation : Operation.t)
    (pollCount : nat) (polls : list (result Operation.t)) : M Operation.t :=
  if Operation.done operation then ret operation else
  onProgressUpdate (progressMessages !!! (pollCount mod length progressMessages)) ;;
  match polls with
  | [] => await Never
  | answer :: later =>
      let! operation' := await answer in
      pollLoop onProgressUpdate operation' (S pollCount) later
  end.

Definition generateVeoVideo (svc : Services) (prompt : string)
    (onProgressUpdate : string -> M unit) (startFrame : option string) (duration : Z)
  : M (string * UsageRecord.t) :=
  onProgressUpdate "Starting video generation..." ;;
  let! operation := submitJob svc prompt startFrame in
  let! operation := pollLoop onProgressUpdate operation 0 (getVideosOperation svc) in
  match Operation.error operation with
  | Some message => await (Throw (JsError ("Video generation failed: " +:+ message)))
  | None =>
      onProgressUpdate "Fetching video..." ;;
      match Operation.uri operation with
      | Some downloadLink =>
          if String.eqb downloadLink "" then
            await (Throw (JsError "Video generation completed, but no download link was provided."))
          else
            let! response := await (fetch svc (downloadLink +:+ "&key=" +:+ apiKey svc)) in
            if FetchResponse.ok response then
              ret (FetchResponse.objectURL response,
                   createVideoUsageRecord "Generate VEO Video" duration)
            else
              await (Throw (JsError ("Failed to download video: "
                                     +:+ FetchResponse.statusText response)))
      | None =>
          await (Throw (JsError "Video generation completed, but no download link was provided."))
      end
  end.

Definition handleCreateVeoVideo (svc : Services) (scene : VideoScene.t) : M unit :=
  let veoPrompt := Prompts.veo <$> VideoScene.prompts scene in
  match veoPrompt, VideoScene.startFrame scene with
  | Some veoPrompt, Some startFrame =>
      if String.eqb veoPrompt "" || String.eqb startFrame "" then ret tt else
      setScenes (patchById (VideoScene.id scene) (patchStatusProgress pending "Initializing...")) ;;
      tryCatch
        (let! (videoUrl, usage) :=
           generateVeoVideo svc veoPrompt
             (fun progress => setScenes (patchById (VideoScene.id scene) (patchProgress progress)))
             (Some startFrame) (VideoScene.duration scene) in
         addUsageRecord usage ;;
         setScenes (patchById (VideoScene.id scene) (patchDone videoUrl)))
        (fun thrown =>
           setScenes (patchById (VideoScene.id scene)
                        (patchStatusProgress error (messageOr thrown "Unknown error"))))
  | _, _ => ret tt
  end.

(** The render of the detail pane offers the button that calls
    [handleCreateVeoVideo(selectedScene)] only inside the block guarded by
    [videoGenerationStatus === 'idle' || videoGenerationStatus === 'error']. *)
Definition veoButtonRendered (selectedScene : VideoScene.t) : bool :=
  match VideoScene.videoGenerationStatus selectedScene with
  | idle | error => true
  | pending | done => false
  end.

(** ** Concrete services and inputs used by the examples *)

Definition page (n : string) : Page.t := Page.mk ("data:image/png;base64," +:+ n) "image/png".

Definition pages3 : list Page.t := [page "P0"; page "P1"; page "P2"].

Definition roster2 : list Character.t :=
  [ Character.mk "c1" "Ann" (Some "red hair") "sheet1";
    Character.mk "c2" "Bob" None "sheet2" ].

Definition panelOf (k : string) (duration : Q) (sourcePageIndex : Z) : Panel.t :=
  Panel.mk ("scene " +:+ k) ("beat " +:+ k) duration ["Ann"] sourcePageIndex.

(** A service in which every call succeeds: decomposition returns [panels],
    every frame request returns an inline image that names its scene, and a
    submitted job is pending, then answers its polls with [polls]. *)
Definition happyServices (panels : list Panel.t) (polls : list (result Operation.t))
  : Services :=
  {| apiKey := "KEY";
     ai_storyboard := fun _ _ => Ok (TextResponse.mk (Some panels) 100 20);
     ai_recommend := fun _ _ _ => Ok (TextResponse.mk (Some ("veo", "has dialogue")) 10 2);
     ai_startFrame := fun i _ _ => Ok (ImageInline "image/png" ("S" +:+ pretty i));
     ai_endFrame := fun i _ _ _ => Ok (ImageInline "image/png" ("E" +:+ pretty i));
     ai_regenerate := fun _ _ _ => Ok (ImageInline "image/png" "R");
     generateVideos := fun _ _ => Ok (Operation.mk false None None);
     getVideosOperation := polls;
     fetch := fun url => Ok (FetchResponse.mk true "OK" ("blob:" +:+ url)) |}.

Definition clock0 : nat -> N := fun _ => 1700000000000%N.

Definition panels5 : list Panel.t :=
  [ panelOf "a" 3 0; panelOf "b" 12 1; panelOf "c" (7 # 2) 1; panelOf "d" 5 2; panelOf "e" 10 2 ].


(** ** Vocabulary of the properties *)

(** The scene fields that the templates read. *)
Definition sameSceneFields (a b : InitialSceneData.t) : Prop :=
  InitialSceneData.sceneDescription a = InitialSceneData.sceneDescription b
  /\ InitialSceneData.narrative a = InitialSceneData.narrative b
  /\ InitialSceneData.duration a = InitialSceneData.duration b
  /\ InitialSceneData.charactersInScene a = InitialSceneData.charactersInScene b
  /\ InitialSceneData.sourcePageIndex a = InitialSceneData.sourcePageIndex b.

(** The part of the roster that the templates read:
    [Pick<Character, 'name' | 'description'>]. *)
Definition rosterView (roster : list Character.t) : list (string * option string) :=
  map (fun c => (Character.name c, Character.description c)) roster.

Definition idsOf (l : list VideoScene.t) : list string := map VideoScene.id l.

(** Two storyboards with the same scenes in the same order, as identified by
    their ids. *)
Definition sameIds : relation (list VideoScene.t) := fun l l' => idsOf l' = idsOf l.

Definition anyChange : relation (list VideoScene.t) := fun _ _ => True.

(** Every storyboard that [m] stores or publishes is related by [R] to the
    one it started from, whatever way [m] ends. *)
Definition stepsIn (R : relation (list VideoScene.t)) {A} (m : M A) : Prop :=
  forall st,
    R (scenes st) (scenes (m st).2)
    /\ exists new, published (m st).2 = published st ++ new
                   /\ Forall (R (scenes st)) new.

(** [m] neither stores nor publishes a storyboard. *)
Definition silent {A} (m : M A) : Prop :=
  forall st, scenes (m st).2 = scenes st /\ published (m st).2 = published st.

(** What is assumed of [Date.now()] during one build: it does not go back
    between two scenes, or it stays within the thirteen-digit range (any
    date from September 2001 to November 2286). *)
Definition steadyClock (now : nat -> N) : Prop :=
  (forall i j, i <= j -> (now i <= now j)%N)
  \/ (forall i, (10 ^ 12 <= now i < 10 ^ 13)%N).

(** The panels and the usage record that decomposition returns for the
    five-panel example. *)
Definition data5 : list InitialSceneData.t :=
  Eval vm_compute in
    match generateStoryboardFromPages (happyServices panels5 []) pages3 roster2 with
    | Ok (data, _) => data
    | _ => []
    end.

Definition usage5 : UsageRecord.t :=
  Eval vm_compute in
    match generateStoryboardFromPages (happyServices panels5 []) pages3 roster2 with
    | Ok (_, usage) => usage
    | _ => createTextUsageRecord "" 0 0
    end.

(** As [happyServices], but the recommendation request for panel [k] fails
    with [failure]. *)
Definition recommendFails (k : nat) (failure : result (TextResponse.t (string * string)))
    (panels : list Panel.t) : Services :=
  let svc := happyServices panels [] in
  {| apiKey := apiKey svc;
     ai_storyboard := ai_storyboard svc;
     ai_recommend := fun i d n => if Nat.eqb i k then failure else ai_recommend svc i d n;
     ai_startFrame := ai_startFrame svc;
     ai_endFrame := ai_endFrame svc;
     ai_regenerate := ai_regenerate svc;
     generateVideos := generateVideos svc;
     getVideosOperation := getVideosOperation svc;
     fetch := fetch svc |}.

Definition panels2 : list Panel.t := [panelOf "a" 3 0; panelOf "b" 12 1].

Definition data2 : list InitialSceneData.t :=
  Eval vm_compute in
    match generateStoryboardFromPages (happyServices panels2 []) pages3 roster2 with
    | Ok (data, _) => data
    | _ => []
    end.

Definition usage2 : UsageRecord.t :=
  Eval vm_compute in
    match generateStoryboardFromPages (happyServices panels2 []) pages3 roster2 with
    | Ok (_, usage) => usage
    | _ => createTextUsageRecord "" 0 0
    end.

(** The fate of the two frames of scene [i]: the start frame, then the end
    frame computed from it. *)
Definition synthesizeFrames (svc : Services) (pagesToImport : list Page.t) (i : nat)
    (panel : InitialSceneData.t) : result (string * string) :=
  match generateVideoFrame svc i (InitialSceneData.sceneDescription panel)
          (pageAt pagesToImport (InitialSceneData.sourcePageIndex panel)) with
  | Never => Never
  | Throw e => Throw e
  | Ok (startFrame, _) =>
      match generateWebtoonEndFrame svc i startFrame (InitialSceneData.narrative panel)
              (InitialSceneData.duration panel) with
      | Never => Never
      | Throw e => Throw e
      | Ok (endFrame, _) => Ok (startFrame, endFrame)
      end
  end.

(** As [happyServices], but the end frame request of scene [k] is answered
    with text instead of an image. *)
Definition endFrameFails (k : nat) (panels : list Panel.t) : Services :=
  let svc := happyServices panels [] in
  {| apiKey := apiKey svc;
     ai_storyboard := ai_storyboard svc;
     ai_recommend := ai_recommend svc;
     ai_startFrame := ai_startFrame svc;
     ai_endFrame := fun i s n d =>
       if Nat.eqb i k then Ok (ImageText "blocked") else ai_endFrame svc i s n d;
     ai_regenerate := ai_regenerate svc;
     generateVideos := generateVideos svc;
     getVideosOperation := getVideosOperation svc;
     fetch := fetch svc |}.

(** [s'] is [s] except, possibly, for the frame named by [frameType]. *)
Definition sameExceptFrame (frameType : FrameType) (s s' : VideoScene.t) : Prop :=
  VideoScene.id s' = VideoScene.id s
  /\ VideoScene.description s' = VideoScene.description s
  /\ VideoScene.duration s' = VideoScene.duration s
  /\ VideoScene.sourcePageIndex s' = VideoScene.sourcePageIndex s
  /\ VideoScene.charactersInScene s' = VideoScene.charactersInScene s
  /\ VideoScene.recommendedModel s' = VideoScene.recommendedModel s
  /\ VideoScene.reasoning s' = VideoScene.reasoning s
  /\ VideoScene.isLoading s' = VideoScene.isLoading s
  /\ VideoScene.videoGenerationStatus s' = VideoScene.videoGenerationStatus s
  /\ VideoScene.prompts s' = VideoScene.prompts s
  /\ VideoScene.videoGenerationProgress s' = VideoScene.videoGenerationProgress s
  /\ VideoScene.generatedVideoUrl s' = VideoScene.generatedVideoUrl s
  /\ match frameType with
     | start => VideoScene.endFrame s' = VideoScene.endFrame s
     | end_ => VideoScene.startFrame s' = VideoScene.startFrame s
     end.

(** A component state that holds the storyboard [l] and nothing else. *)
Definition stateWith (l : list VideoScene.t) : State :=
  mkState false false l None [] None None [] [] [] [].

(** The two scenes of the two-panel example, once built. *)
Definition storyboard2 : list VideoScene.t :=
  Eval vm_compute in
    scenes (handleGenerateStoryboard (happyServices panels2 []) clock0 roster2 pages3
              initialState).2.

(** As [happyServices], but frame regeneration returns neither image nor
    text. *)
Definition regenerateFails : Services :=
  let svc := happyServices panels2 [] in
  {| apiKey := apiKey svc;
     ai_storyboard := ai_storyboard svc;
     ai_recommend := ai_recommend svc;
     ai_startFrame := ai_startFrame svc;
     ai_endFrame := ai_endFrame svc;
     ai_regenerate := fun _ _ _ => Ok ImageEmpty;
     generateVideos := generateVideos svc;
     getVideosOperation := getVideosOperation svc;
     fetch := fetch svc |}.

Definition sceneA : VideoScene.t :=
  Eval vm_compute in
    default (placeholderScene clock0 0 (enrichPanel (panelOf "a" 3 0) "" "")) (storyboard2 !! 0).

(** The answers to the polls lead the loop to its end: some answer reports
    the job done, or is a failure of the poll itself, before any poll is left
    without answer. *)
Fixpoint scriptEnds (polls : list (result Operation.t)) : bool :=
  match polls with
  | [] => false
  | Ok operation :: later => Operation.done operation || scriptEnds later
  | Throw _ :: _ => true
  | Never :: _ => false
  end.

(** A computation that always returns normally. *)
Definition alwaysReturns {A} (m : M A) : Prop := forall st, exists a, (m st).1 = Ok a.

(** [m] submits no video job. *)
Definition keepsJobs {A} (m : M A) : Prop :=
  forall st, submittedJobs (m st).2 = submittedJobs st.

Definition pendingOperation : Operation.t := Operation.mk false None None.

Definition doneOperation (uri : string) : Operation.t := Operation.mk true None (Some uri).

(** The polls of scenario D: pending, pending, done with the video at [X]. *)
Definition pollsD : list (result Operation.t) :=
  [Ok pendingOperation; Ok pendingOperation; Ok (doneOperation "https://video/X?alt=media")].

Definition promptsA : Prompts.t :=
  Eval vm_compute in
    generateAllModelPrompts (enrichPanel (panelOf "a" 3 0) "veo" "has dialogue") roster2.

(** The first scene of [storyboard2] while a video job for it is pending. *)
Definition sceneApending : VideoScene.t :=
  Eval vm_compute in patchStatusProgress pending "Casting characters..." sceneA.

(** The [n] messages of the rotation that start at poll count [from]. *)
Definition rotation (n from : nat) : list string :=
  (fun pollCount => progressMessages !!! (pollCount mod length progressMessages))
    <$> seq from n.

(** The storyboards published by applying [patches] by id one after the
    other, and the storyboard that results. *)
Fixpoint publishEach (sceneId : string) (patches : list (VideoScene.t -> VideoScene.t))
    (l : list VideoScene.t) : list (list VideoScene.t) :=
  match patches with
  | [] => []
  | patch :: rest => patchById sceneId patch l :: publishEach sceneId rest (patchById sceneId patch l)
  end.

Definition foldPatches (sceneId : string) (patches : list (VideoScene.t -> VideoScene.t))
    (l : list VideoScene.t) : list VideoScene.t :=
  fold_left (fun l patch => patchById sceneId patch l) patches l.

(** The state after [setScenes (patchById sceneId patch)] for each patch. *)
Definition runPatches (sceneId : string) (patches : list (VideoScene.t -> VideoScene.t))
    (st : State) : State :=
  fold_left (fun st patch => (setScenes (patchById sceneId patch) st).2) patches st.

(** What a subscriber reads as the progress text of a scene in each
    published storyboard, and which of these texts are from the rotation. *)
Definition observedProgress (sceneId : string) (log : list (list VideoScene.t))
  : list string :=
  omap (fun l => find (fun s => String.eqb (VideoScene.id s) sceneId) l
                   ≫= VideoScene.videoGenerationProgress) log.

Definition isRotating (message : string) : bool :=
  existsb (String.eqb message) progressMessages.

(** ** Data URLs (videoGeminiService.ts and VideoProducer.tsx) *)

(** The text before the first comma of [s], all of [s] without one. *)
Fixpoint beforeComma (s : string) : string :=
  match s with
  | EmptyString => EmptyString
  | String c r => if Ascii.eqb c ","%char then EmptyString else String c (beforeComma r)
  end.

(** [s.split(',')[1]]: the text between the first comma and the second,
    [undefined] when [s] has no comma. *)
Fixpoint secondField (s : string) : option string :=
  match s with
  | EmptyString => None
  | String c r => if Ascii.eqb c ","%char then Some (beforeComma r) else secondField r
  end.

(** [{ inlineData: { data, mimeType } }] *)
Module InlineData.
Record t := mk { data : option string; mimeType : string }.
End InlineData.

Definition base64ToGeminiPart (base64 mimeType : string) : InlineData.t :=
  InlineData.mk (secondField base64) mimeType.

(** A [string] holds the UTF-8 text of the JavaScript string. [.] does not
    match the four line terminators. Two of them are one byte long: the line
    feed and the carriage return. *)
Definition isLineTerminator (c : ascii) : bool :=
  Ascii.eqb c "010"%char || Ascii.eqb c "013"%char.

(** The other two are the line separator U+2028 and the paragraph separator
    U+2029, in UTF-8 the bytes E2 80 A8 and E2 80 A9: [s] starts with one of
    them. *)
Definition atLineSeparator (s : string) : bool :=
  match s with
  | String a (String b (String c _)) =>
      Ascii.eqb a "226"%char && Ascii.eqb b "128"%char
      && (Ascii.eqb c "168"%char || Ascii.eqb c "169"%char)
  | _ => false
  end.

(** [.*?;] matched at the head of [s]: the lazy star stops at the first
    semicolon, and fails if one of the four line terminators comes before
    it. The result is the text matched by the star. *)
Fixpoint lazyUntilSemicolon (s : string) : option string :=
  match s with
  | EmptyString => None
  | String c r =>
      if Ascii.eqb c ";"%char then Some EmptyString
      else if isLineTerminator c || atLineSeparator s then None
      else String c <$> lazyUntilSemicolon r
  end.

Fixpoint stripPrefix (p s : string) : option string :=
  match p, s with
  | EmptyString, _ => Some s
  | String a p', String b s' => if Ascii.eqb a b then stripPrefix p' s' else None
  | String _ _, EmptyString => None
  end.

(** [s.match(/data:(image\/.*?);/)?.[1]]: the first group of the leftmost
    match. *)
Fixpoint matchDataImage (s : string) : option string :=
  match stripPrefix "data:image/" s ≫= lazyUntilSemicolon with
  | Some rest => Some ("image/" +:+ rest)
  | None =>
      match s with
      | EmptyString => None
      | String _ r => matchDataImage r
      end
  end.

(** [s.match(/data:(image\/.*?);/)?.[1] || 'image/png'] *)
Definition mimeTypeOf (s : string) : string := orDefault (matchDataImage s) "image/png".

(** The part that [generateWebtoonEndFrame] and [regenerateVideoFrame] build
    from a frame before they call the image model. *)
Definition framePart (frameBase64 : string) : InlineData.t :=
  base64ToGeminiPart frameBase64 (mimeTypeOf frameBase64).

(** The data URL that the frame functions build from an inline image. *)
Definition dataUrl (mimeType data : string) : string :=
  "data:" +:+ mimeType +:+ ";base64," +:+ data.

Fixpoint noneOf (p : ascii -> bool) (s : string) : bool :=
  match s with
  | EmptyString => true
  | String c r => negb (p c) && noneOf p r
  end.

(** No character of [s] is a line or paragraph separator. *)
Fixpoint noLineSeparator (s : string) : bool :=
  match s with
  | EmptyString => true
  | String _ r => negb (atLineSeparator s) && noLineSeparator r
  end.

(** ** ImportSourceModal (VideoProducer.tsx) *)

(** The fields of an editor [Page] that the modal reads. *)
Module EditorPage.
Record t := mk { id : string; name : string; generatedImage : option string }.
End EditorPage.

Inductive ImportMode := editor | upload.

(** [editorPages.filter(p => p.generatedImage)] *)
Definition generatedEditorPages (editorPages : list EditorPage.t) : list EditorPage.t :=
  List.filter (fun p => negb (falsy (EditorPage.generatedImage p))) editorPages.

Definition toggleEditorPageSelection (pageId : string) (prev : gset string) : gset string :=
  if decide (pageId ∈ prev) then prev ∖ {[pageId]} else prev ∪ {[pageId]}.

(** The argument that [handleGenerateClick] gives to [onGenerate]. For a
    page kept by [generatedEditorPages] the image is there; [p.generatedImage!]
    is read as the empty string otherwise. *)
Definition handleGenerateClick (mode : ImportMode) (editorPages : list EditorPage.t)
    (selectedEditorPageIds : gset string) (uploadedPages : list Page.t) : list Page.t :=
  match mode with
  | editor =>
      map (fun p =>
             let image := default "" (EditorPage.generatedImage p) in
             Page.mk image (mimeTypeOf image))
          (List.filter (fun p => bool_decide (EditorPage.id p ∈ selectedEditorPageIds))
             (generatedEditorPages editorPages))
  | upload => uploadedPages
  end.

Definition isGenerateDisabled (mode : ImportMode) (selectedEditorPageIds : gset string)
    (uploadedPages : list Page.t) : bool :=
  match mode with
  | editor => Nat.eqb (size selectedEditorPageIds) 0
  | upload => Nat.eqb (length uploadedPages) 0
  end.

(** [p.filter((_, i) => i !== index)] *)
Definition removeUploadedPage (index : nat) (p : list Page.t) : list Page.t :=
  omap id (imap (fun i page => if Nat.eqb i index then None else Some page) p).

(** ** Model selection (VideoProducer.tsx) *)

(** [{ ...prev, [modelId]: !prev[modelId] }] *)
Definition toggleModelSelection (modelId : VideoModelId.t)
    (prev : VideoModelId.t -> bool) : VideoModelId.t -> bool :=
  fun m =>
    match modelId, m with
    | VideoModelId.seedance, VideoModelId.seedance
    | VideoModelId.hailuo, VideoModelId.hailuo
    | VideoModelId.veo, VideoModelId.veo
    | VideoModelId.kling, VideoModelId.kling => negb (prev m)
    | _, _ => prev m
    end.

(** [Object.keys(videoModels).filter(id => selectedModels[id])]: the prompt
    cards of the detail pane, in the order of the table. *)
Definition shownModels (selectedModels : VideoModelId.t -> bool) : list VideoModelId.t :=
  List.filter selectedModels VideoModelId.all.

(** The run button of the detail pane is on the veo card, inside the block
    shown for an idle or failed scene. *)
Definition veoButtonShown (selectedModels : VideoModelId.t -> bool)
    (selectedScene : VideoScene.t) : bool :=
  veoButtonRendered selectedScene && selectedModels VideoModelId.veo.

(** ** Vocabulary of the further properties *)

(** Every state that [m] can end in, however it ends, is related by [I] to
    the state it started from. *)
Definition keeps (I : relation State) {A} (m : M A) : Prop :=
  forall st, I st (m st).2.

(** A scene without its progress text, and without its three video fields. *)
Definition eraseProgress (s : VideoScene.t) : VideoScene.t :=
  VideoScene.mk (VideoScene.id s) (VideoScene.description s) (VideoScene.duration s)
    (VideoScene.sourcePageIndex s) (VideoScene.charactersInScene s)
    (VideoScene.recommendedModel s) (VideoScene.reasoning s)
    (VideoScene.isLoading s) (VideoScene.videoGenerationStatus s)
    (VideoScene.startFrame s) (VideoScene.endFrame s) (VideoScene.prompts s)
    None (VideoScene.generatedVideoUrl s).

Definition eraseVideo (s : VideoScene.t) : VideoScene.t :=
  VideoScene.mk (VideoScene.id s) (VideoScene.description s) (VideoScene.duration s)
    (VideoScene.sourcePageIndex s) (VideoScene.charactersInScene s)
    (VideoScene.recommendedModel s) (VideoScene.reasoning s)
    (VideoScene.isLoading s) idle
    (VideoScene.startFrame s) (VideoScene.endFrame s) (VideoScene.prompts s)
    None None.

(** [l'] is [l] except that, in the scenes with id [sceneId], the fields that
    [erase] erases may differ. *)
Definition differOnlyIn (erase : VideoScene.t -> VideoScene.t) (sceneId : string)
  : relation (list VideoScene.t) :=
  Forall2 (fun s s' =>
             if String.eqb (VideoScene.id s) sceneId then erase s' = erase s else s' = s).

(** Between the two states only the progress text of the scenes [sceneId]
    differs (jobs may have been submitted). *)
Definition progressOnly (sceneId : string) : relation State := fun st st' =>
  differOnlyIn eraseProgress sceneId (scenes st) (scenes st')
  /\ usageRecords st' = usageRecords st
  /\ alerts st' = alerts st.

(** Between the two states only the video fields of the scenes [sceneId]
    differ, and no alert has been raised. *)
Definition videoOnly (sceneId : string) : relation State := fun st st' =>
  differOnlyIn eraseVideo sceneId (scenes st) (scenes st')
  /\ alerts st' = alerts st.

(** The operation with which the polling loop ends, given the operation that
    the submission returned and the answers to the polls. *)
Fixpoint awaitJob (operation : Operation.t) (polls : list (result Operation.t))
  : result Operation.t :=
  if Operation.done operation then Ok operation else
  match polls with
  | [] => Never
  | Ok operation' :: later => awaitJob operation' later
  | Throw e :: _ => Throw e
  | Never :: _ => Never
  end.

Definition jobOutcome (svc : Services) (prompt : string) (startFrame : option string)
  : result Operation.t :=
  match generateVideos svc prompt startFrame with
  | Ok submitted => awaitJob submitted (getVideosOperation svc)
  | Throw e => Throw e
  | Never => Never
  end.

(** What [generateVeoVideo] makes of the finished job. *)
Definition downloadOutcome (svc : Services) (final : Operation.t) : result string :=
  match Operation.error final with
  | Some message => Throw (JsError ("Video generation failed: " +:+ message))
  | None =>
      if falsy (Operation.uri final) then
        Throw (JsError "Video generation completed, but no download link was provided.")
      else
        match fetch svc (default "" (Operation.uri final) +:+ "&key=" +:+ apiKey svc) with
        | Ok response =>
            if FetchResponse.ok response then Ok (FetchResponse.objectURL response)
            else Throw (JsError ("Failed to download video: "
                                 +:+ FetchResponse.statusText response))
        | Throw e => Throw e
        | Never => Never
        end
  end.

(** The fate of a video run as a function of the answers of the service. *)
Definition videoOutcome (svc : Services) (prompt : string) (startFrame : option string)
  : result string :=
  match jobOutcome svc prompt startFrame with
  | Ok final => downloadOutcome svc final
  | Throw e => Throw e
  | Never => Never
  end.

(** A service for the examples of video runs: the submission is answered
    with [submitted], the polls with [polls], every download with
    [download]. *)
Definition videoServices (submitted : result Operation.t) (polls : list (result Operation.t))
    (download : result FetchResponse.t) : Services :=
  let svc := happyServices panels2 polls in
  {| apiKey := apiKey svc;
     ai_storyboard := ai_storyboard svc;
     ai_recommend := ai_recommend svc;
     ai_startFrame := ai_startFrame svc;
     ai_endFrame := ai_endFrame svc;
     ai_regenerate := ai_regenerate svc;
     generateVideos := fun _ _ => submitted;
     getVideosOperation := polls;
     fetch := fun _ => download |}.

Definition failedOperation (message : string) : Operation.t :=
  Operation.mk true (Some message) (Some "https://video/X?alt=media").

(** Scene [i] once its frames and prompts are there. *)
Definition populate (characters : list Character.t) (frames : nat -> string * string)
    (i : nat) (panel : InitialSceneData.t) (s : VideoScene.t) : VideoScene.t :=
  patchFrames (frames i).1 (frames i).2 (generateAllModelPrompts panel characters) s.

(** The two usage records of one scene of a build. *)
Definition frameUsage : list UsageRecord.t :=
  [createImageUsageRecord "Generate Video Frame" 1;
   createImageUsageRecord "Generate End Frame" 1].

(** The two states differ at most in the storyboard, the publications and
    the usage records. *)
Definition sameControls : relation State := fun st st' =>
  showImportModal st' = showImportModal st
  /\ isGenerating st' = isGenerating st
  /\ selectedSceneId st' = selectedSceneId st
  /\ importedPages st' = importedPages st
  /\ regenState st' = regenState st
  /\ regeneratingFrame st' = regeneratingFrame st
  /\ alerts st' = alerts st
  /\ submittedJobs st' = submittedJobs st.

(** The tokens that the recommendation call for panel [i] reports: prompt
    plus completion tokens of its answer. *)
Definition recommendTokens (svc : Services) (i : nat) (panel : Panel.t) : N :=
  match ai_recommend svc i (Panel.sceneDescription panel) (Panel.narrative panel) with
  | Ok response =>
      (TextResponse.promptTokenCount response + TextResponse.candidatesTokenCount response)%N
  | _ => 0%N
  end.

Definition sumN (l : list N) : N := fold_right N.add 0%N l.

(** ** The mocked API service (the second module of part_005) *)

(** ['free' | 'pro' | 'premium'] *)
Module PlanId.
Inductive t := free | pro | premium.
End PlanId.

(** [User & { password: string }]: an entry of the mock user database. *)
Module Account.
Record t := mk {
  id : string;
  name : string;
  email : string;
  password : string;
  plan : PlanId.t;
  role : string }.
End Account.

Module User.
Record t := mk {
  id : string;
  name : string;
  email : string;
  plan : PlanId.t;
  role : string }.
End User.

(** [const { password, ...userWithoutPassword } = user] *)
Definition withoutPassword (user : Account.t) : User.t :=
  User.mk (Account.id user) (Account.name user) (Account.email user)
    (Account.plan user) (Account.role user).

Module AuthResponse.
Record t := mk { token : string; user : User.t }.
End AuthResponse.

(** What this module keeps in [localStorage], as the value whose JSON text
    is stored; [StoredOther] is the text of any other writer. *)
Inductive Stored :=
  | StoredUsers (users : list Account.t)
  | StoredUser (user : User.t)
  | StoredEmptyUserData
  | StoredOther (text : string).

(** The module variable [users] and the [localStorage] of the browser. *)
Record Db := mkDb {
  users : list Account.t;
  localStorage : gmap string Stored }.

Definition USERS_STORAGE_KEY : string := "comicra-mock-users".

Definition initialUsers : list Account.t :=
  [ Account.mk "admin-1" "Admin User" "admin@comicra.com" "adminpassword" PlanId.premium "admin";
    Account.mk "user-1" "Creator User" "creator@comicra.com" "password" PlanId.free "creator";
    Account.mk "user-2" "Viewer User" "viewer@comicra.com" "password" PlanId.free "viewer" ].

(** [localStorage.setItem(key, value)]. The browser decides whether the
    store with the new item still fits ([fits]); when it does not, the call
    throws and the store is as before: [None]. *)
Definition setItem (fits : gmap string Stored -> bool) (key : string) (value : Stored)
    (store : gmap string Stored) : option (gmap string Stored) :=
  if fits (<[key := value]> store) then Some (<[key := value]> store) else None.

(** [try { localStorage.setItem(USERS_STORAGE_KEY, JSON.stringify(users)) } catch {}] *)
Definition saveUsers (fits : gmap string Stored -> bool) (db : Db) : Db :=
  match setItem fits USERS_STORAGE_KEY (StoredUsers (users db)) (localStorage db) with
  | Some store => mkDb (users db) store
  | None => db
  end.

(** [Array.prototype.findIndex], [None] for -1. *)
Fixpoint findIndex {A} (p : A -> bool) (l : list A) : option nat :=
  match l with
  | [] => None
  | x :: r => if p x then Some 0 else S <$> findIndex p r
  end.

(** Each function below is the callback that the timer of the returned
    promise runs: one step on the database, which settles the promise with
    [Ok] ([resolve]) or [Throw] ([reject]). A callback that throws leaves the
    promise pending: [Never]. [now k] is what the k-th [Date.now()] of the
    call returns. *)
Definition apiLogin (now : nat -> N) (email password : string) (db : Db)
  : result AuthResponse.t * Db :=
  match find (fun u => String.eqb (Account.email u) email) (users db) with
  | Some user =>
      if String.eqb (Account.password user) password then
        (Ok (AuthResponse.mk ("mock-jwt-token-" +:+ pretty (now 0)) (withoutPassword user)), db)
      else (Throw (JsError "Invalid email or password."), db)
  | None => (Throw (JsError "Invalid email or password."), db)
  end.

Definition apiSignup (fits : gmap string Stored -> bool) (now : nat -> N)
    (name email password : string) (db : Db) : result AuthResponse.t * Db :=
  if existsb (fun u => String.eqb (Account.email u) email) (users db) then
    (Throw (JsError "An account with this email already exists."), db)
  else
    let newUser := Account.mk (pretty (now 0)) name email password PlanId.free "creator" in
    let db1 := saveUsers fits (mkDb (users db ++ [newUser]) (localStorage db)) in
    match setItem fits ("comicra-userdata-" +:+ Account.id newUser) StoredEmptyUserData
            (localStorage db1) with
    | Some store =>
        (Ok (AuthResponse.mk ("mock-jwt-token-" +:+ pretty (now 1)) (withoutPassword newUser)),
         mkDb (users db1) store)
    | None => (Never, db1)
    end.

(** [userToUpdate.plan = planId] on the object that the array holds. *)
Definition withPlan (planId : PlanId.t) (user : Account.t) : Account.t :=
  Account.mk (Account.id user) (Account.name user) (Account.email user)
    (Account.password user) planId (Account.role user).

(** The answer is [{ success: true, newUser }]; the model keeps [newUser]. *)
Definition apiCreateCheckoutSession (fits : gmap string Stored -> bool)
    (userId : string) (planId : PlanId.t) (db : Db) : result User.t * Db :=
  match findIndex (fun u => String.eqb (Account.id u) userId) (users db) with
  | Some userIndex =>
      match users db !! userIndex with
      | Some userToUpdate =>
          let updated := withPlan planId userToUpdate in
          let db1 := mkDb (<[userIndex := updated]> (users db)) (localStorage db) in
          match setItem fits "comicra-user" (StoredUser (withoutPassword updated))
                  (localStorage db1) with
          | Some store => (Ok (withoutPassword updated), saveUsers fits (mkDb (users db1) store))
          | None => (Never, db1)
          end
      | None => (Never, db)
      end
  | None => (Throw (JsError "User not found"), db)
  end.

Definition apiGetAllUsers (db : Db) : result (list User.t) * Db :=
  (Ok (map withoutPassword (users db)), db).

(** [Object.assign(userToUpdate, data)] for [data] of type
    [Partial<Pick<User, 'role' | 'plan'>>]: a key that is absent is [None]. *)
Definition assign (role : option string) (plan : option PlanId.t) (user : Account.t)
  : Account.t :=
  Account.mk (Account.id user) (Account.name user) (Account.email user)
    (Account.password user) (default (Account.plan user) plan)
    (default (Account.role user) role).

Definition apiUpdateUser (fits : gmap string Stored -> bool)
    (userId : string) (role : option string) (plan : option PlanId.t) (db : Db)
  : result User.t * Db :=
  match findIndex (fun u => String.eqb (Account.id u) userId) (users db) with
  | Some userIndex =>
      match users db !! userIndex with
      | Some userToUpdate =>
          let updated := assign role plan userToUpdate in
          let db1 := saveUsers fits (mkDb (<[userIndex := updated]> (users db)) (localStorage db)) in
          (Ok (withoutPassword updated), db1)
      | None => (Never, db)
      end
  | None => (Throw (JsError "User not found"), db)
  end.

(** The answer is [{ success: true }]. *)
Definition apiDeleteUser (fits : gmap string Stored -> bool) (userId : string) (db : Db)
  : result unit * Db :=
  let initialLength := length (users db) in
  let db1 :=
    saveUsers fits
      (mkDb (List.filter (fun u => negb (String.eqb (Account.id u) userId)) (users db))
         (localStorage db)) in
  if Nat.ltb (length (users db1)) initialLength then
    (Ok tt, mkDb (users db1) (delete ("comicra-userdata-" +:+ userId) (localStorage db1)))
  else (Throw (JsError "User not found"), db1).

Definition emailsOf (db : Db) : list string := map Account.email (users db).

(** A browser that refuses every write, and one that accepts every write. *)
Definition noRoom : gmap string Stored -> bool := fun _ => false.
Definition room : gmap string Stored -> bool := fun _ => true.

Definition initialDb : Db := mkDb initialUsers ∅.

(** The three failures of the service that a video run can meet: the
    submission of the job is rejected; a poll is rejected, after polls that
    found the job still running; the download of the finished video is
    rejected. [thrown] is the value that the rejected promise carries. *)
Definition submissionRejected (svc : Services) (prompt : string) (startFrame : option string)
    (thrown : exn) : Prop :=
  generateVideos svc prompt startFrame = Throw thrown.

Definition pollRejected (svc : Services) (prompt : string) (startFrame : option string)
    (thrown : exn) : Prop :=
  exists submitted waiting later,
    generateVideos svc prompt startFrame = Ok submitted
    /\ Operation.done submitted = false
    /\ Forall (fun operation => Operation.done operation = false) waiting
    /\ getVideosOperation svc = (Ok <$> waiting) ++ Throw thrown :: later.

Definition downloadRejected (svc : Services) (prompt : string) (startFrame : option string)
    (thrown : exn) : Prop :=
  exists final link,
    jobOutcome svc prompt startFrame = Ok final
    /\ Operation.error final = None
    /\ Operation.uri final = Some link
    /\ link <> ""
    /\ fetch svc (link +:+ "&key=" +:+ apiKey svc) = Throw thrown.

(** * Properties *)

(** ** Decimal numerals *)

Lemma string_length_app (s t : string) :
  String.length (s +:+ t) = String.length s + String.length t.
Proof. induction s as [|c s IH]; simpl; [done | by rewrite IH]. Qed.

Lemma string_app_inj_length (s1 s2 t1 t2 : string) :
  s1 +:+ t1 = s2 +:+ t2 -> String.length s1 = String.length s2 ->
  s1 = s2 /\ t1 = t2.
Proof.
  revert s2. induction s1 as [|c s1 IH]; intros [|c2 s2] Heq Hlen; simpl in *; try discriminate.
  - done.
  - injection Heq as -> Heq. injection Hlen as Hlen.
    destruct (IH s2 Heq Hlen) as [-> ->]. done.
Qed.

Lemma pretty_N_go_length (x : N) (s : string) :
  String.length (pretty_N_go x s) = String.length (pretty_N_go x "") + String.length s.
Proof.
  revert s. induction (N.lt_wf_0 x) as [x _ IH]. intros s.
  destruct (decide (x = 0)%N) as [->|Hx].
  - by rewrite !pretty_N_go_0.
  - rewrite !(pretty_N_go_step x) by lia.
    assert (x `div` 10 < x)%N as Hlt by (apply N.div_lt; lia).
    rewrite (IH _ Hlt (String _ s)), (IH _ Hlt (String _ "")).
    simpl. lia.
Qed.

Lemma pretty_N_go_length_mono (x y : N) :
  (x <= y)%N ->
  String.length (pretty_N_go x "") <= String.length (pretty_N_go y "").
Proof.
  revert x. induction (N.lt_wf_0 y) as [y _ IH]. intros x Hxy.
  destruct (decide (x = 0)%N) as [->|Hx].
  - rewrite pretty_N_go_0. simpl. lia.
  - rewrite (pretty_N_go_step x), (pretty_N_go_step y) by lia.
    rewrite (pretty_N_go_length (x `div` 10)), (pretty_N_go_length (y `div` 10)).
    assert (String.length (pretty_N_go (x `div` 10) "")
            <= String.length (pretty_N_go (y `div` 10) "")).
    { apply IH; [apply N.div_lt; lia | apply N.Div0.div_le_mono; lia]. }
    simpl. lia.
Qed.

(** A larger number never has a shorter numeral. *)
Lemma pretty_N_length_mono (x y : N) :
  (x <= y)%N -> String.length (pretty x) <= String.length (pretty y).
Proof.
  intros Hxy. unfold pretty, pretty_N.
  destruct (decide (x = 0)%N) as [->|Hx], (decide (y = 0)%N) as [->|Hy]; simpl; try lia.
  - rewrite (pretty_N_go_step y) by lia. rewrite pretty_N_go_length. simpl. lia.
  - by apply pretty_N_go_length_mono.
Qed.

(** [Date.now().toString() + i] determines both parts when neither the clock
    nor the index went down. *)
Lemma scene_id_inj (a b : N) (i j : nat) :
  (a <= b)%N -> i <= j ->
  pretty a +:+ pretty i = pretty b +:+ pretty j -> a = b /\ i = j.
Proof.
  intros Hab Hij Heq.
  pose proof (pretty_N_length_mono a b Hab) as Hl1.
  pose proof (pretty_N_length_mono (N.of_nat i) (N.of_nat j) ltac:(lia)) as Hl2.
  pose proof (f_equal String.length Heq) as Hlen. rewrite !string_length_app in Hlen.
  change (pretty i) with (pretty (N.of_nat i)) in *.
  change (pretty j) with (pretty (N.of_nat j)) in *.
  destruct (string_app_inj_length _ _ _ _ Heq ltac:(lia)) as [H1 H2].
  apply (inj pretty) in H1. apply (inj pretty) in H2. split; [done | lia].
Qed.

(** ** PromptComposer *)

Lemma find_rosterView (n : string) (r1 r2 : list Character.t) :
  rosterView r1 = rosterView r2 ->
  find (fun c => String.eqb (Character.name c) n) r1 ≫= Character.description
  = find (fun c => String.eqb (Character.name c) n) r2 ≫= Character.description.
Proof.
  revert r2. induction r1 as [|c1 r1 IH]; intros [|c2 r2] Hv; try discriminate; [done|].
  injection Hv as Hn Hd Hr. simpl. rewrite Hn.
  destruct (String.eqb (Character.name c2) n); simpl; [done | by apply IH].
Qed.

Lemma getCharacterAnchors_view (s1 s2 : InitialSceneData.t) (r1 r2 : list Character.t) :
  InitialSceneData.charactersInScene s1 = InitialSceneData.charactersInScene s2 ->
  rosterView r1 = rosterView r2 ->
  getCharacterAnchors s1 r1 = getCharacterAnchors s2 r2.
Proof.
  intros Hc Hv. unfold getCharacterAnchors. rewrite Hc. f_equal.
  apply map_ext. intros n. by rewrite (find_rosterView n r1 r2 Hv).
Qed.

(** C5. Prompt composition is a total function of the scene fields it reads
    and of the names and descriptions of the roster: two computations from
    inputs that agree on these (in particular, two computations from the
    same scene and roster) give the same text for each of the four backend
    identifiers. The composer [generateAllModelPrompts] takes no service and
    no state and returns a prompt map for every input. *)
Theorem C5_prompt_composition_deterministic
    (scene1 scene2 : InitialSceneData.t) (roster1 roster2 : list Character.t) :
  sameSceneFields scene1 scene2 ->
  rosterView roster1 = rosterView roster2 ->
  forall m : VideoModelId.t,
    Prompts.get (generateAllModelPrompts scene1 roster1) m
    = Prompts.get (generateAllModelPrompts scene2 roster2) m.
Proof.
  intros (Hd & Hn & Hdur & Hc & Hp) Hv m.
  pose proof (getCharacterAnchors_view scene1 scene2 roster1 roster2 Hc Hv) as Ha.
  destruct m; simpl;
    unfold generateSeedancePrompt, generateHailuoPrompt, generateVeoPrompt, generateKlingPrompt;
    rewrite ?Ha, Hd, Hn, Hdur, ?Hc, ?Hp; reflexivity.
Qed.

Lemma pretty_N_length_13 (x : N) :
  (10 ^ 12 <= x < 10 ^ 13)%N -> String.length (pretty x) = 13.
Proof.
  intros [Hlo Hhi].
  pose proof (pretty_N_length_mono (10 ^ 12) x Hlo) as H1.
  pose proof (pretty_N_length_mono x (10 ^ 13 - 1) ltac:(lia)) as H2.
  change (String.length (pretty (10 ^ 12)%N)) with 13 in H1.
  change (String.length (pretty (10 ^ 13 - 1)%N)) with 13 in H2. lia.
Qed.

Lemma scene_id_inj_steady (now : nat -> N) (i j : nat) :
  steadyClock now ->
  pretty (now i) +:+ pretty i = pretty (now j) +:+ pretty j -> i = j.
Proof.
  intros [Hmono|Hrange] Heq.
  - destruct (decide (i <= j)).
    + by destruct (scene_id_inj (now i) (now j) i j (Hmono i j ltac:(lia)) ltac:(lia) Heq).
    + by destruct (scene_id_inj (now j) (now i) j i (Hmono j i ltac:(lia)) ltac:(lia)
                     (eq_sym Heq)).
  - destruct (string_app_inj_length _ _ _ _ Heq) as [_ H2].
    + by rewrite !pretty_N_length_13.
    + by apply (inj pretty) in H2.
Qed.

(** ** Patches by id *)

Lemma patchById_lookup (sceneId : string) (patch : VideoScene.t -> VideoScene.t)
    (l : list VideoScene.t) (i : nat) :
  patchById sceneId patch l !! i
  = (fun s => if String.eqb (VideoScene.id s) sceneId then patch s else s) <$> l !! i.
Proof. unfold patchById. apply list_lookup_fmap. Qed.

Lemma patchById_ids (sceneId : string) (patch : VideoScene.t -> VideoScene.t)
    (l : list VideoScene.t) :
  (forall s, VideoScene.id (patch s) = VideoScene.id s) ->
  idsOf (patchById sceneId patch l) = idsOf l.
Proof.
  intros Hp. unfold idsOf, patchById. rewrite map_map. apply map_ext.
  intros s. by destruct (String.eqb (VideoScene.id s) sceneId).
Qed.

(** With pairwise distinct ids, a patch by id is an update at one index. *)
Lemma patchById_alter (patch : VideoScene.t -> VideoScene.t) (l : list VideoScene.t)
    (k : nat) (s : VideoScene.t) :
  NoDup (idsOf l) -> l !! k = Some s ->
  patchById (VideoScene.id s) patch l = alter patch k l.
Proof.
  intros Hnd Hk. apply list_eq. intros i. rewrite patchById_lookup.
  destruct (decide (i = k)) as [->|Hne].
  - rewrite list_lookup_alter_eq, Hk. simpl. by rewrite String.eqb_refl.
  - rewrite list_lookup_alter_ne by done.
    destruct (l !! i) as [s'|] eqn:Hi; [simpl|done].
    destruct (String.eqb_spec (VideoScene.id s') (VideoScene.id s)) as [Heq|]; [|done].
    exfalso. apply Hne.
    apply (proj1 (NoDup_alt (idsOf l)) Hnd i k (VideoScene.id s)); unfold idsOf.
    + change (map VideoScene.id l) with (VideoScene.id <$> l).
      by rewrite list_lookup_fmap, Hi, <- Heq.
    + change (map VideoScene.id l) with (VideoScene.id <$> l).
      by rewrite list_lookup_fmap, Hk.
Qed.

Lemma placeholderScenes_lookup (now : nat -> N) (data : list InitialSceneData.t) (i : nat) :
  placeholderScenes now data !! i = placeholderScene now i <$> data !! i.
Proof. apply list_lookup_imap. Qed.

Lemma placeholderScenes_NoDup (now : nat -> N) (data : list InitialSceneData.t) :
  steadyClock now -> NoDup (idsOf (placeholderScenes now data)).
Proof.
  intros Hclock. apply NoDup_alt. intros i j x Hi Hj.
  unfold idsOf in *. change (map VideoScene.id ?l) with (VideoScene.id <$> l) in *.
  rewrite list_lookup_fmap, placeholderScenes_lookup in Hi, Hj.
  destruct (data !! i) as [pi|]; [|done]. destruct (data !! j) as [pj|]; [|done].
  simpl in Hi, Hj. injection Hi as Hi. injection Hj as Hj. subst x.
  by apply (scene_id_inj_steady now i j Hclock).
Qed.

(** ** What a computation may do to the storyboard *)

Section StepsIn.
Context (R : relation (list VideoScene.t)) `{!PreOrder R}.

Lemma stepsIn_silent {A} (m : M A) : silent m -> stepsIn R m.
Proof.
  intros Hs st. destruct (Hs st) as [-> ->]. split; [reflexivity|].
  exists []. by rewrite app_nil_r.
Qed.

Lemma stepsIn_ret {A} (a : A) : stepsIn R (ret a).
Proof. by apply stepsIn_silent. Qed.

Lemma stepsIn_await {A} (r : result A) : stepsIn R (await r).
Proof. by apply stepsIn_silent. Qed.

Lemma stepsIn_bind {A B} (m : M A) (k : A -> M B) :
  stepsIn R m -> (forall a, stepsIn R (k a)) -> stepsIn R (bind m k).
Proof.
  intros Hm Hk st. unfold bind. destruct (Hm st) as (H1 & new1 & Hp1 & Hf1).
  destruct (m st) as [[a| |] st1]; simpl in *; [|eauto..].
  destruct (Hk a st1) as (H2 & new2 & Hp2 & Hf2). split; [by etrans|].
  exists (new1 ++ new2). rewrite Hp2, Hp1, app_assoc. split; [done|].
  apply Forall_app. split; [done|].
  eapply Forall_impl; [exact Hf2|]. intros l Hl. by etrans.
Qed.

Lemma stepsIn_tryCatch {A} (body : M A) (handler : exn -> M A) :
  stepsIn R body -> (forall e, stepsIn R (handler e)) -> stepsIn R (tryCatch body handler).
Proof.
  intros Hm Hk st. unfold tryCatch. destruct (Hm st) as (H1 & new1 & Hp1 & Hf1).
  destruct (body st) as [[a|e|] st1]; simpl in *; [eauto| |eauto].
  destruct (Hk e st1) as (H2 & new2 & Hp2 & Hf2). split; [by etrans|].
  exists (new1 ++ new2). rewrite Hp2, Hp1, app_assoc. split; [done|].
  apply Forall_app. split; [done|].
  eapply Forall_impl; [exact Hf2|]. intros l Hl. by etrans.
Qed.

Lemma stepsIn_tryFinally {A} (body : M A) (cleanup : M unit) :
  stepsIn R body -> stepsIn R cleanup -> stepsIn R (tryFinally body cleanup).
Proof.
  intros Hm Hk st. unfold tryFinally. destruct (Hm st) as (H1 & new1 & Hp1 & Hf1).
  destruct (body st) as [r st1]; simpl in *.
  destruct (Hk st1) as (H2 & new2 & Hp2 & Hf2).
  assert (R (scenes st) (scenes (cleanup st1).2)
          /\ exists new, published (cleanup st1).2 = published st ++ new
                         /\ Forall (R (scenes st)) new) as Hboth.
  { split; [by etrans|]. exists (new1 ++ new2). rewrite Hp2, Hp1, app_assoc.
    split; [done|]. apply Forall_app. split; [done|].
    eapply Forall_impl; [exact Hf2|]. intros l Hl. by etrans. }
  destruct r as [a|e|]; [| |simpl; eauto];
    destruct (cleanup st1) as [[[]|e'|] st2]; simpl in *; exact Hboth.
Qed.

Lemma stepsIn_setScenes (f : list VideoScene.t -> list VideoScene.t) :
  (forall l, R l (f l)) -> stepsIn R (setScenes f).
Proof.
  intros Hf st. simpl. split; [done|]. exists [f (scenes st)]. split; [done|].
  by apply Forall_singleton.
Qed.

Lemma stepsIn_pollLoop (onProgressUpdate : string -> M unit) (polls : list (result Operation.t)) :
  (forall progress, stepsIn R (onProgressUpdate progress)) ->
  forall operation pollCount,
    stepsIn R (pollLoop onProgressUpdate operation pollCount polls).
Proof.
  intros Hcb. induction polls as [|answer later IH]; intros operation pollCount; simpl;
    (destruct (Operation.done operation); [apply stepsIn_ret|]);
    (apply stepsIn_bind; [apply Hcb|intros _]).
  - apply stepsIn_await.
  - apply stepsIn_bind; [apply stepsIn_await|]. intros op'. apply IH.
Qed.

Lemma stepsIn_generateVeoVideo (svc : Services) (prompt : string)
    (onProgressUpdate : string -> M unit) (startFrame : option string) (duration : Z) :
  (forall progress, stepsIn R (onProgressUpdate progress)) ->
  stepsIn R (generateVeoVideo svc prompt onProgressUpdate startFrame duration).
Proof.
  intros Hcb. unfold generateVeoVideo.
  apply stepsIn_bind; [apply Hcb|intros _].
  apply stepsIn_bind; [by apply stepsIn_silent|intros op0].
  apply stepsIn_bind; [by apply stepsIn_pollLoop|intros op].
  destruct (Operation.error op); [apply stepsIn_await|].
  apply stepsIn_bind; [apply Hcb|intros _].
  destruct (Operation.uri op) as [link|]; [|apply stepsIn_await].
  destruct (String.eqb link ""); [apply stepsIn_await|].
  apply stepsIn_bind; [apply stepsIn_await|intros response].
  destruct (FetchResponse.ok response); [apply stepsIn_ret|apply stepsIn_await].
Qed.

End StepsIn.

Global Instance sameIds_preorder : PreOrder sameIds.
Proof.
  split; [by intros l|]. intros l1 l2 l3 H12 H23. unfold sameIds in *. congruence.
Qed.

Global Instance anyChange_preorder : PreOrder anyChange.
Proof. by split. Qed.

(** Apply a [stepsIn] rule and discharge its side condition on the relation. *)
Ltac step_with lem := apply lem; try (solve [apply _]).

Lemma stepsIn_patch (sceneId : string) (patch : VideoScene.t -> VideoScene.t) :
  (forall s, VideoScene.id (patch s) = VideoScene.id s) ->
  stepsIn sameIds (setScenes (patchById sceneId patch)).
Proof. intros Hp. step_with stepsIn_setScenes. intros l. by apply patchById_ids. Qed.

Lemma stepsIn_processScene (svc : Services) (characters : list Character.t)
    (pagesToImport : list Page.t) (i : nat) (panel : InitialSceneData.t)
    (placeholder : VideoScene.t) :
  stepsIn sameIds (processScene svc characters pagesToImport i panel placeholder).
Proof.
  unfold processScene.
  step_with stepsIn_bind; [step_with stepsIn_await|intros [startFrame u1]].
  step_with stepsIn_bind; [by step_with stepsIn_silent|intros _].
  step_with stepsIn_bind; [step_with stepsIn_await|intros [endFrame u2]].
  step_with stepsIn_bind; [by step_with stepsIn_silent|intros _].
  by apply stepsIn_patch.
Qed.

Lemma stepsIn_forEachScene (svc : Services) (characters : list Character.t)
    (pagesToImport : list Page.t) (data : list InitialSceneData.t) :
  forall i placeholders,
    stepsIn sameIds
      (forEachScene (processScene svc characters pagesToImport) i data placeholders).
Proof.
  induction data as [|panel data IH]; intros i [|ph phs]; simpl;
    try (step_with stepsIn_ret).
  step_with stepsIn_bind; [apply stepsIn_processScene|intros _; apply IH].
Qed.

Lemma stepsIn_handleRegenerateFrame (svc : Services) (sceneId : string)
    (frameType : FrameType) (editPrompt : string) :
  stepsIn sameIds (handleRegenerateFrame svc sceneId frameType editPrompt).
Proof.
  intros st. unfold handleRegenerateFrame.
  destruct (find _ (scenes st)) as [scene|]; simpl;
    [|split; [done|]; exists []; by rewrite app_nil_r].
  destruct (frameOf frameType scene) as [original|]; simpl;
    [|split; [done|]; exists []; by rewrite app_nil_r].
  destruct (String.eqb original "");
    [split; [done|]; exists []; by rewrite app_nil_r|].
  revert st. change (stepsIn sameIds
    (setRegeneratingFrame (Some (sceneId, frameType)) ;;
     setRegenState None ;;
     tryFinally
       (tryCatch
          (let! (newFrame, usage) :=
             await (regenerateVideoFrame svc original editPrompt (VideoScene.description scene)) in
           addUsageRecord usage ;;
           setScenes (patchById sceneId (patchFrame frameType newFrame)))
          (fun error =>
             alert ("Frame regeneration failed: " +:+ messageOr error "Unknown Error")))
       (setRegeneratingFrame None))).
  step_with stepsIn_bind; [by step_with stepsIn_silent|intros _].
  step_with stepsIn_bind; [by step_with stepsIn_silent|intros _].
  step_with stepsIn_tryFinally; [|by step_with stepsIn_silent].
  step_with stepsIn_tryCatch; [|intros e; by step_with stepsIn_silent].
  step_with stepsIn_bind; [step_with stepsIn_await|intros [newFrame usage]].
  step_with stepsIn_bind; [by step_with stepsIn_silent|intros _].
  apply stepsIn_patch. by destruct frameType.
Qed.

Lemma stepsIn_handleCreateVeoVideo (svc : Services) (scene : VideoScene.t) :
  stepsIn sameIds (handleCreateVeoVideo svc scene).
Proof.
  unfold handleCreateVeoVideo.
  destruct (Prompts.veo <$> VideoScene.prompts scene) as [veoPrompt|];
    [|step_with stepsIn_ret].
  destruct (VideoScene.startFrame scene) as [startFrame|]; [|step_with stepsIn_ret].
  destruct (_ || _); [step_with stepsIn_ret|].
  step_with stepsIn_bind; [by apply stepsIn_patch|intros _].
  step_with stepsIn_tryCatch; [|intros e; by apply stepsIn_patch].
  step_with stepsIn_bind; [|intros [videoUrl usage]].
  - step_with stepsIn_generateVeoVideo. intros progress. by apply stepsIn_patch.
  - step_with stepsIn_bind; [by step_with stepsIn_silent|intros _].
    by apply stepsIn_patch.
Qed.

(** ** The storyboard build *)

Lemma stepsIn_afterPlaceholders (svc : Services) (characters : list Character.t)
    (pagesToImport : list Page.t) (data : list InitialSceneData.t)
    (placeholders : list VideoScene.t) :
  stepsIn sameIds
    (forEachScene (processScene svc characters pagesToImport) 0 data placeholders ;;
     match placeholders with
     | first :: _ => setSelectedSceneId (Some (VideoScene.id first))
     | [] => ret tt
     end).
Proof.
  step_with stepsIn_bind; [apply stepsIn_forEachScene|intros _].
  destruct placeholders; by step_with stepsIn_silent.
Qed.

Lemma build_publishes_placeholders
    (svc : Services) (now : nat -> N) (characters : list Character.t)
    (pagesToImport : list Page.t) (st : State)
    (data : list InitialSceneData.t) (usage : UsageRecord.t) :
  pagesToImport <> [] ->
  generateStoryboardFromPages svc pagesToImport characters = Ok (data, usage) ->
  exists later,
    published (handleGenerateStoryboard svc now characters pagesToImport st).2
    = published st ++ [] :: placeholderScenes now data :: later.
Proof.
  intros Hne Hgen. unfold handleGenerateStoryboard.
  destruct pagesToImport as [|p0 pages]; [done|]. simpl Nat.eqb. cbv iota.
  unfold bind at 1 2 3 4 5, tryFinally, tryCatch. simpl.
  unfold bind at 1, await. rewrite Hgen. unfold bind at 1. simpl.
  unfold buildScenes. unfold bind at 1. simpl.
  match goal with |- context [bind ?m ?k ?s] =>
    destruct (stepsIn_afterPlaceholders svc characters (p0 :: pages) data
                (placeholderScenes now data) s) as (_ & new & Hp & _);
    destruct (bind m k s) as [[[]|e|] st'] end;
    simpl in *; rewrite ?Hp; rewrite <- !app_assoc; simpl; eauto.
Qed.

(** C9. When decomposition returns N scenes, the build publishes, right after
    emptying the storyboard, exactly N placeholder scenes in decomposition
    order, each loading and with an idle video status; and the frame/prompt
    patch of a scene, a frame regeneration and a video run only ever store
    and publish storyboards with the same scenes in the same order. *)
Theorem C9_placeholders_published_in_order
    (svc : Services) (now : nat -> N) (characters : list Character.t)
    (pagesToImport : list Page.t) (st : State)
    (data : list InitialSceneData.t) (usage : UsageRecord.t) :
  pagesToImport <> [] ->
  generateStoryboardFromPages svc pagesToImport characters = Ok (data, usage) ->
  let placeholders := placeholderScenes now data in
  (exists later,
     published (handleGenerateStoryboard svc now characters pagesToImport st).2
     = published st ++ [] :: placeholders :: later)
  /\ length placeholders = length data
  /\ (forall i panel, data !! i = Some panel ->
        exists s, placeholders !! i = Some s
          /\ VideoScene.description s = InitialSceneData.sceneDescription panel
          /\ VideoScene.isLoading s = true
          /\ VideoScene.videoGenerationStatus s = idle)
  /\ (forall i panel placeholder,
        stepsIn sameIds (processScene svc characters pagesToImport i panel placeholder))
  /\ (forall sceneId frameType editPrompt,
        stepsIn sameIds (handleRegenerateFrame svc sceneId frameType editPrompt))
  /\ (forall scene, stepsIn sameIds (handleCreateVeoVideo svc scene)).
Proof.
  intros Hne Hgen placeholders. split; [|split; [|split; [|split; [|split]]]].
  - by eapply build_publishes_placeholders.
  - apply length_imap.
  - intros i panel Hi. exists (placeholderScene now i panel).
    subst placeholders. by rewrite placeholderScenes_lookup, Hi.
  - apply stepsIn_processScene.
  - apply stepsIn_handleRegenerateFrame.
  - apply stepsIn_handleCreateVeoVideo.
Qed.

Lemma C9_witness :
  length data5 = 5
  /\ length (placeholderScenes clock0 data5) = length data5
  /\ exists later,
       published (handleGenerateStoryboard (happyServices panels5 []) clock0 roster2 pages3
                    initialState).2
       = [] :: placeholderScenes clock0 data5 :: later.
Proof.
  destruct (C9_placeholders_published_in_order (happyServices panels5 []) clock0 roster2
              pages3 initialState data5 usage5 ltac:(discriminate) eq_refl)
    as (Hpub & Hlen & _).
  split; [reflexivity|]. split; [exact Hlen|exact Hpub].
Defined.



Lemma C5_witness :
  Forall
    (fun m : VideoModelId.t =>
       Prompts.get
         (generateAllModelPrompts
            (InitialSceneData.mk "scene a" "beat a" 3 ["Ann"; "Bob"] 0 "veo" "has dialogue")
            roster2) m
       = Prompts.get
           (generateAllModelPrompts
              (InitialSceneData.mk "scene a" "beat a" 3 ["Ann"; "Bob"] 0 "kling" "bulk")
              [ Character.mk "x" "Ann" (Some "red hair") "other sheet";
                Character.mk "y" "Bob" None "" ]) m)
    VideoModelId.all.
Proof.
  apply Forall_forall. intros m _.
  apply C5_prompt_composition_deterministic.
  - repeat split; reflexivity.
  - reflexivity.
Defined.

(** ** Decomposition *)

Lemma Promise_all_Ok {A} (promises : list (result A)) (values : list A) :
  Promise_all promises = Ok values <-> promises = Ok <$> values.
Proof.
  revert values. induction promises as [|p rest IH]; intros values; simpl.
  - split; [by intros [= <-]|]. by destruct values.
  - destruct p as [a|e|], (Promise_all rest) as [vs|e'|] eqn:Hrest;
      (split; [try discriminate|destruct values as [|v values]; try discriminate]).
    all: try (intros [= -> Hr]; apply (IH values) in Hr; congruence).
    intros [= <-]. simpl. f_equal. by apply IH.
Qed.

Lemma Promise_all_Throw {A} (promises : list (result A)) (e : exn) :
  Throw e ∈ promises -> exists e', Promise_all promises = Throw e'.
Proof.
  induction promises as [|p rest IH]; [by intros ?%elem_of_nil|].
  intros [<-|Hin]%elem_of_cons; simpl; [eauto|].
  destruct (IH Hin) as [e' ->]. destruct p; eauto.
Qed.

Lemma generateStoryboardFromPages_Ok (svc : Services) (pageImages : list Page.t)
    (characters : list Character.t) (data : list InitialSceneData.t) (usage : UsageRecord.t) :
  generateStoryboardFromPages svc pageImages characters = Ok (data, usage) ->
  exists response panels,
    ai_storyboard svc pageImages characters = Ok response
    /\ TextResponse.parsed response = Some panels
    /\ length data = length panels
    /\ forall i d, data !! i = Some d ->
         exists panel model reasoning u,
           panels !! i = Some panel
           /\ recommendVideoModel svc i (Panel.sceneDescription panel) (Panel.narrative panel)
              = Ok ((model, reasoning), u)
           /\ d = enrichPanel panel model reasoning.
Proof.
  unfold generateStoryboardFromPages.
  destruct (ai_storyboard svc pageImages characters) as [response| |]; try discriminate.
  destruct (TextResponse.parsed response) as [panels|] eqn:Hparsed; [|discriminate].
  destruct (Promise_all _) as [enriched| |] eqn:Hall; try discriminate.
  intros [= <- _]. apply Promise_all_Ok in Hall.
  exists response, panels. split; [done|]. split; [done|].
  pose proof (f_equal length Hall) as Hlen.
  rewrite length_imap, length_fmap in Hlen. split.
  { by rewrite length_map. }
  intros i d Hd.
  change (map fst enriched) with (fst <$> enriched) in Hd.
  rewrite list_lookup_fmap in Hd.
  destruct (enriched !! i) as [[d' u]|] eqn:Hi; [|done]. simpl in Hd. injection Hd as ->.
  pose proof (f_equal (fun l => l !! i) Hall) as Hl. simpl in Hl.
  rewrite list_lookup_imap, list_lookup_fmap, Hi in Hl.
  destruct (panels !! i) as [panel|]; [|done]. simpl in Hl. injection Hl as Hl.
  unfold enrichedPanel in Hl.
  destruct (recommendVideoModel svc i _ _) as [[[model reasoning] u']| |] eqn:Hrec;
    try discriminate.
  injection Hl as <- <-. by exists panel, model, reasoning, u'.
Qed.

Lemma Math_round_ge_1 (x : Q) : (1 <= Math_round x)%Z <-> (1 # 2 <= x)%Q.
Proof.
  unfold Math_round. split.
  - intros H. pose proof (Qfloor_le (x + (1 # 2))) as Hf.
    assert (inject_Z 1 <= inject_Z (Qfloor (x + (1 # 2))))%Q as Hi
      by (rewrite <- Zle_Qle; exact H).
    change (inject_Z 1) with 1%Q in Hi.
    assert (1 <= x + (1 # 2))%Q as Hx by (eapply Qle_trans; [exact Hi|exact Hf]).
    clear - Hx. lra.
  - intros H. apply (Qfloor_resp_le 1 (x + (1 # 2))). lra.
Qed.

Lemma build_decomposition_fails
    (svc : Services) (now : nat -> N) (characters : list Character.t)
    (pagesToImport : list Page.t) (st : State) (e : exn) :
  pagesToImport <> [] ->
  generateStoryboardFromPages svc pagesToImport characters = Throw e ->
  let out := handleGenerateStoryboard svc now characters pagesToImport st in
  out.1 = Ok tt
  /\ scenes out.2 = []
  /\ isGenerating out.2 = false
  /\ alerts out.2
     = alerts st ++ ["Storyboard Generation Failed: " +:+ messageOr e "Unknown Error"]
  /\ published out.2 = published st ++ [[]; []].
Proof.
  intros Hne Hgen. unfold handleGenerateStoryboard.
  destruct pagesToImport as [|p0 pages]; [done|]. simpl Nat.eqb. cbv iota.
  unfold bind at 1 2 3 4 5, tryFinally, tryCatch. simpl.
  unfold bind at 1, await. rewrite Hgen. simpl.
  rewrite <- !app_assoc. done.
Qed.

(** C2 (amended). Every scene stored after decomposition carries the
    duration [min(round(d), 10)] of the duration [d] that the service
    reported for its panel: an integer that is at most 10, and at least 1
    exactly when [d >= 1/2]. Its [sourcePageIndex] is the value that the
    service reported, stored without any check against the number of pages.
    No later patch of the scene writes either field. *)
Theorem C2_stored_duration_and_page_index
    (svc : Services) (now : nat -> N) (characters : list Character.t)
    (pagesToImport : list Page.t) (data : list InitialSceneData.t) (usage : UsageRecord.t)
    (i : nat) (s : VideoScene.t) :
  generateStoryboardFromPages svc pagesToImport characters = Ok (data, usage) ->
  placeholderScenes now data !! i = Some s ->
  exists response panels panel,
    ai_storyboard svc pagesToImport characters = Ok response
    /\ TextResponse.parsed response = Some panels
    /\ panels !! i = Some panel
    /\ VideoScene.duration s = Z.min (Qfloor (Panel.duration panel + (1 # 2))) 10
    /\ (VideoScene.duration s <= 10)%Z
    /\ ((1 <= VideoScene.duration s)%Z <-> (1 # 2 <= Panel.duration panel)%Q)
    /\ VideoScene.sourcePageIndex s = Panel.sourcePageIndex panel
    /\ forall patch,
         (exists startFrame endFrame allPrompts,
            patch = patchFrames startFrame endFrame allPrompts)
         \/ (exists frameType newFrame, patch = patchFrame frameType newFrame)
         \/ (exists status progress, patch = patchStatusProgress status progress)
         \/ (exists progress, patch = patchProgress progress)
         \/ (exists videoUrl, patch = patchDone videoUrl) ->
         VideoScene.duration (patch s) = VideoScene.duration s
         /\ VideoScene.sourcePageIndex (patch s) = VideoScene.sourcePageIndex s.
Proof.
  intros Hgen Hs.
  destruct (generateStoryboardFromPages_Ok _ _ _ _ _ Hgen)
    as (response & panels & Hresp & Hparsed & _ & Hdata).
  rewrite placeholderScenes_lookup in Hs.
  destruct (data !! i) as [d|] eqn:Hd; [|done]. simpl in Hs. injection Hs as <-.
  destruct (Hdata i d Hd) as (panel & model & reasoning & u & Hp & _ & ->).
  exists response, panels, panel. simpl. unfold Math_min.
  repeat (split; [done|]). split; [lia|]. split; [|split; [done|]].
  - rewrite <- Math_round_ge_1. lia.
  - intros patch [(? & ? & ? & ->)|[(? & ? & ->)|[(? & ? & ->)|[(? & ->)|(? & ->)]]]]; done.
Qed.

Lemma C2_witness :
  exists panel,
    panels2 !! 1 = Some panel
    /\ Panel.duration panel = 12%Q
    /\ VideoScene.duration (placeholderScene clock0 1 (enrichPanel panel "veo" "has dialogue"))
       = 10%Z.
Proof.
  destruct (C2_stored_duration_and_page_index (happyServices panels2 []) clock0 roster2 pages3
              data2 usage2
              1 (placeholderScene clock0 1 (enrichPanel (panelOf "b" 12 1) "veo" "has dialogue"))
              eq_refl eq_refl)
    as (response & panels & panel & Hresp & Hparsed & Hpanel & Hdur & _).
  injection Hresp as <-. injection Hparsed as <-. injection Hpanel as <-.
  exists (panelOf "b" 12 1). repeat split; reflexivity.
Defined.

(** C2, as stated, fails: a reported duration of 2/5 is stored as 0, and a
    reported page index 7 is stored for a build from three pages. *)
Lemma C2_counterexample :
  let short := (handleGenerateStoryboard (happyServices [panelOf "a" (2 # 5) 0] [])
                  clock0 roster2 pages3 initialState).2 in
  let stray := (handleGenerateStoryboard (happyServices [panelOf "b" 5 7] [])
                  clock0 roster2 pages3 initialState).2 in
  (exists s, scenes short = [s] /\ ~ (1 <= VideoScene.duration s <= 10)%Z)
  /\ (exists s, published stray !! 1 = Some [s]
        /\ ~ (0 <= VideoScene.sourcePageIndex s < Z.of_nat (length pages3))%Z).
Proof.
  split; eexists; (split; [vm_compute; reflexivity|]); vm_compute; intros [H1 H2];
    first [by apply H1 | by apply H2 | done].
Qed.

Lemma recommendVideoModel_unparseable (svc : Services) (i : nat)
    (sceneDescription narrative : string) (r : TextResponse.t (string * string)) :
  ai_recommend svc i sceneDescription narrative = Ok r ->
  TextResponse.parsed r = None ->
  exists u, recommendVideoModel svc i sceneDescription narrative
            = Ok (("seedance", "Default recommendation due to an error."), u).
Proof. intros Hr Hp. unfold recommendVideoModel. rewrite Hr, Hp. eauto. Qed.

Lemma recommendVideoModel_answered (svc : Services) (i : nat)
    (sceneDescription narrative : string) (r : TextResponse.t (string * string)) :
  ai_recommend svc i sceneDescription narrative = Ok r ->
  exists recommendation u,
    recommendVideoModel svc i sceneDescription narrative = Ok (recommendation, u).
Proof.
  intros Hr. unfold recommendVideoModel. rewrite Hr.
  destruct (TextResponse.parsed r); eauto.
Qed.

Lemma imap_all_Ok {A B} (f : nat -> A -> result B) (l : list A) :
  (forall i a, l !! i = Some a -> exists v, f i a = Ok v) ->
  exists values, imap f l = Ok <$> values.
Proof.
  revert f. induction l as [|a l IH]; intros f Hf; [by exists []|].
  destruct (Hf 0 a eq_refl) as [v Hv].
  destruct (IH (f ∘ S)) as [vs Hvs]; [intros i b Hb; by apply (Hf (S i))|].
  exists (v :: vs). by rewrite imap_cons, Hv, Hvs.
Qed.

(** C7 (amended). A recommendation answer that cannot be parsed is replaced
    by the default model seedance with the reasoning "Default recommendation
    due to an error.", and decomposition goes on with every panel. A
    recommendation request that itself fails is not caught there: the whole
    decomposition fails with "Failed to get a valid storyboard from AI." and
    the build ends with an empty storyboard. *)
Theorem C7_recommendation_failure
    (svc : Services) (now : nat -> N) (characters : list Character.t)
    (pagesToImport : list Page.t) (st : State)
    (response : TextResponse.t (list Panel.t)) (panels : list Panel.t) :
  pagesToImport <> [] ->
  ai_storyboard svc pagesToImport characters = Ok response ->
  TextResponse.parsed response = Some panels ->
  ((forall i panel, panels !! i = Some panel ->
      exists r, ai_recommend svc i (Panel.sceneDescription panel) (Panel.narrative panel)
                = Ok r) ->
   exists data usage,
     generateStoryboardFromPages svc pagesToImport characters = Ok (data, usage)
     /\ length data = length panels
     /\ forall i panel r,
          panels !! i = Some panel ->
          ai_recommend svc i (Panel.sceneDescription panel) (Panel.narrative panel) = Ok r ->
          TextResponse.parsed r = None ->
          data !! i
          = Some (enrichPanel panel "seedance" "Default recommendation due to an error."))
  /\ ((exists i panel e,
         panels !! i = Some panel
         /\ ai_recommend svc i (Panel.sceneDescription panel) (Panel.narrative panel)
            = Throw e) ->
      generateStoryboardFromPages svc pagesToImport characters
      = Throw (JsError "Failed to get a valid storyboard from AI.")
      /\ scenes (handleGenerateStoryboard svc now characters pagesToImport st).2 = []).
Proof.
  intros Hne Hresp Hparsed. split.
  - intros Hall.
    destruct (imap_all_Ok (enrichedPanel svc) panels) as [enriched He].
    { intros i panel Hp. destruct (Hall i panel Hp) as [r Hr].
      destruct (recommendVideoModel_answered _ _ _ _ _ Hr) as ([model reasoning] & u & Hrec).
      unfold enrichedPanel. rewrite Hrec. eauto. }
    pose proof (proj2 (Promise_all_Ok _ _) He) as Hall'.
    exists (map fst enriched),
      (fold_left addTokens (map snd enriched)
         (createTextUsageRecord "Storyboard Generation"
            (TextResponse.promptTokenCount response)
            (TextResponse.candidatesTokenCount response))).
    split; [|split].
    + unfold generateStoryboardFromPages. by rewrite Hresp, Hparsed, Hall'.
    + pose proof (f_equal length He) as Hlen.
      rewrite length_imap, length_fmap in Hlen. by rewrite length_map.
    + intros i panel r Hp Hr Hnone.
      destruct (recommendVideoModel_unparseable _ _ _ _ _ Hr Hnone) as [u Hrec].
      pose proof (f_equal (fun l => l !! i) He) as Hl. simpl in Hl.
      rewrite list_lookup_imap, list_lookup_fmap, Hp in Hl. simpl in Hl.
      unfold enrichedPanel in Hl. rewrite Hrec in Hl.
      change (map fst enriched) with (fst <$> enriched). rewrite list_lookup_fmap.
      destruct (enriched !! i) as [[d u']|]; [|done]. simpl in *. congruence.
  - intros (i & panel & e & Hp & Hthrow).
    assert (generateStoryboardFromPages svc pagesToImport characters
            = Throw (JsError "Failed to get a valid storyboard from AI.")) as Hgen.
    { destruct (Promise_all_Throw (imap (enrichedPanel svc) panels) e) as [e' He'].
      { apply list_elem_of_lookup. exists i. rewrite list_lookup_imap, Hp. simpl.
        unfold enrichedPanel, recommendVideoModel. by rewrite Hthrow. }
      unfold generateStoryboardFromPages. by rewrite Hresp, Hparsed, He'. }
    split; [done|].
    by destruct (build_decomposition_fails svc now characters pagesToImport st _ Hne Hgen)
      as (_ & ? & _).
Qed.

Lemma C7_witness :
  (exists data usage,
     generateStoryboardFromPages
       (recommendFails 1 (Ok (TextResponse.mk None 10 0)) panels2) pages3 roster2
     = Ok (data, usage)
     /\ data !! 1
        = Some (enrichPanel (panelOf "b" 12 1) "seedance"
                  "Default recommendation due to an error."))
  /\ scenes (handleGenerateStoryboard (recommendFails 1 (Throw (JsError "503")) panels2)
               clock0 roster2 pages3 initialState).2 = [].
Proof.
  split.
  - destruct (C7_recommendation_failure
                (recommendFails 1 (Ok (TextResponse.mk None 10 0)) panels2)
                clock0 roster2 pages3 initialState (TextResponse.mk (Some panels2) 100 20)
                panels2 ltac:(discriminate) eq_refl eq_refl) as [Hfallback _].
    destruct Hfallback as (data & usage & Hgen & _ & Hdata).
    { intros [|[|i]] panel Hp; simpl; eauto. }
    exists data, usage. split; [exact Hgen|].
    exact (Hdata 1 (panelOf "b" 12 1) (TextResponse.mk None 10 0) eq_refl eq_refl eq_refl).
  - destruct (C7_recommendation_failure
                (recommendFails 1 (Throw (JsError "503")) panels2)
                clock0 roster2 pages3 initialState (TextResponse.mk (Some panels2) 100 20)
                panels2 ltac:(discriminate) eq_refl eq_refl) as [_ Hfatal].
    destruct Hfatal as [_ Hscenes]; [|exact Hscenes].
    exists 1, (panelOf "b" 12 1), (JsError "503"). split; reflexivity.
Defined.

(** C7, as stated, fails: when the recommendation request for the second of
    two panels is refused, no default is substituted; the build ends with an
    alert and an empty storyboard. *)
Lemma C7_counterexample :
  let out := handleGenerateStoryboard (recommendFails 1 (Throw (JsError "503")) panels2)
               clock0 roster2 pages3 initialState in
  out.1 = Ok tt
  /\ scenes out.2 = []
  /\ alerts out.2
     = ["Storyboard Generation Failed: Failed to get a valid storyboard from AI."]
  /\ published out.2 = [[]; []].
Proof. vm_compute. repeat split; reflexivity. Qed.

(** ** Frame synthesis during the build *)

Lemma processScene_Throw (svc : Services) (characters : list Character.t)
    (pagesToImport : list Page.t) (i : nat) (panel : InitialSceneData.t)
    (placeholder : VideoScene.t) (e : exn) (st : State) :
  synthesizeFrames svc pagesToImport i panel = Throw e ->
  let out := processScene svc characters pagesToImport i panel placeholder st in
  out.1 = Throw e /\ scenes out.2 = scenes st /\ published out.2 = published st
  /\ alerts out.2 = alerts st.
Proof.
  unfold synthesizeFrames, processScene, bind, await. intros H.
  destruct (generateVideoFrame _ _ _ _) as [[sf u1]|e1|]; try discriminate; simpl.
  - destruct (generateWebtoonEndFrame _ _ _ _ _) as [[ef u2]|e2|]; try discriminate; simpl.
    by injection H as ->.
  - by injection H as ->.
Qed.

Lemma processScene_Ok (svc : Services) (characters : list Character.t)
    (pagesToImport : list Page.t) (i : nat) (panel : InitialSceneData.t)
    (placeholder : VideoScene.t) (startFrame endFrame : string) (st : State) :
  synthesizeFrames svc pagesToImport i panel = Ok (startFrame, endFrame) ->
  let out := processScene svc characters pagesToImport i panel placeholder st in
  let patched := patchById (VideoScene.id placeholder)
                   (patchFrames startFrame endFrame (generateAllModelPrompts panel characters))
                   (scenes st) in
  out.1 = Ok tt /\ scenes out.2 = patched /\ published out.2 = published st ++ [patched]
  /\ alerts out.2 = alerts st.
Proof.
  unfold synthesizeFrames, processScene, bind, await. intros H.
  destruct (generateVideoFrame _ _ _ _) as [[sf u1]|e1|]; try discriminate; simpl.
  destruct (generateWebtoonEndFrame _ _ _ _ _) as [[ef u2]|e2|]; try discriminate; simpl.
  by injection H as -> ->.
Qed.

(** The loop stops at the first scene whose frames fail: the scenes before
    it have been patched and published, nothing after it is. *)
Lemma forEachScene_first_failure (svc : Services) (characters : list Character.t)
    (pagesToImport : list Page.t) (data : list InitialSceneData.t) :
  forall (i0 : nat) (placeholders : list VideoScene.t) (st : State)
         (k : nat) (panel : InitialSceneData.t) (e : exn),
    length placeholders = length data ->
    (forall j p, j < k -> data !! j = Some p ->
       exists frames, synthesizeFrames svc pagesToImport (i0 + j) p = Ok frames) ->
    data !! k = Some panel ->
    synthesizeFrames svc pagesToImport (i0 + k) panel = Throw e ->
    let out := forEachScene (processScene svc characters pagesToImport) i0 data placeholders st in
    out.1 = Throw e /\ alerts out.2 = alerts st
    /\ exists patched, published out.2 = published st ++ patched /\ length patched = k.
Proof.
  induction data as [|p0 data IH]; intros i0 [|ph phs] st k panel e Hlen Hbefore Hk Hfail;
    try discriminate.
  simpl. unfold bind. destruct k as [|k].
  - injection Hk as ->. rewrite Nat.add_0_r in Hfail.
    destruct (processScene_Throw svc characters pagesToImport i0 panel ph e st Hfail)
      as (H1 & _ & H3 & H4).
    destruct (processScene _ _ _ _ _ _ _) as [r st']. simpl in *. subst r.
    split; [done|]. split; [done|]. exists []. by rewrite app_nil_r.
  - destruct (Hbefore 0 p0 ltac:(lia) eq_refl) as [[sf ef] Hok].
    rewrite Nat.add_0_r in Hok.
    destruct (processScene_Ok svc characters pagesToImport i0 p0 ph sf ef st Hok)
      as (H1 & _ & H3 & H4).
    destruct (processScene _ _ _ _ _ _ _) as [r st']. simpl in *. subst r.
    destruct (IH (S i0) phs st' k panel e) as (Hr & Ha & patched & Hp & Hl).
    + by injection Hlen.
    + intros j p Hj Hp. replace (S i0 + j) with (i0 + S j) by lia.
      apply Hbefore; [lia|done].
    + done.
    + by replace (S i0 + k) with (i0 + S k) by lia.
    + split; [done|]. split; [congruence|].
      exists (patchById (VideoScene.id ph)
                (patchFrames sf ef (generateAllModelPrompts p0 characters)) (scenes st)
              :: patched).
      rewrite Hp, H3, <- app_assoc. simpl. split; [done|]. by rewrite Hl.
Qed.

(** C1 (amended). During the build, the first scene whose start or end frame
    fails ends the whole build: the scenes before it have been patched and
    published (one publication each, all with the scenes of the placeholders
    in their order), no later scene is processed, an alert carries the
    failure, and the storyboard is emptied, which discards the scenes that
    were already populated. *)
Theorem C1_frame_failure_ends_build
    (svc : Services) (now : nat -> N) (characters : list Character.t)
    (pagesToImport : list Page.t) (st : State)
    (data : list InitialSceneData.t) (usage : UsageRecord.t)
    (k : nat) (panel : InitialSceneData.t) (e : exn) :
  pagesToImport <> [] ->
  generateStoryboardFromPages svc pagesToImport characters = Ok (data, usage) ->
  (forall j p, j < k -> data !! j = Some p ->
     exists frames, synthesizeFrames svc pagesToImport j p = Ok frames) ->
  data !! k = Some panel ->
  synthesizeFrames svc pagesToImport k panel = Throw e ->
  let out := handleGenerateStoryboard svc now characters pagesToImport st in
  out.1 = Ok tt
  /\ scenes out.2 = []
  /\ isGenerating out.2 = false
  /\ alerts out.2
     = alerts st ++ ["Storyboard Generation Failed: " +:+ messageOr e "Unknown Error"]
  /\ exists patched,
       published out.2
       = published st ++ [] :: placeholderScenes now data :: patched ++ [[]]
       /\ length patched = k
       /\ Forall (sameIds (placeholderScenes now data)) patched.
Proof.
  intros Hne Hgen Hbefore Hk Hfail out.
  assert (out = handleGenerateStoryboard svc now characters pagesToImport st) as Hout
    by reflexivity.
  clearbody out. unfold handleGenerateStoryboard in Hout.
  destruct pagesToImport as [|p0 pages]; [done|]. simpl Nat.eqb in Hout. cbv iota in Hout.
  unfold bind at 1 2 3 4 5, tryFinally, tryCatch in Hout. simpl in Hout.
  unfold bind at 1, await in Hout. rewrite Hgen in Hout. unfold bind at 1 in Hout.
  simpl in Hout. unfold buildScenes in Hout. unfold bind at 1 in Hout. simpl in Hout.
  unfold bind at 1 in Hout.
  match type of Hout with context [forEachScene ?b 0 data ?phs ?s] =>
    destruct (forEachScene_first_failure svc characters (p0 :: pages) data 0 phs s k panel e)
      as (Hr & Ha & patched & Hp & Hl);
      [apply length_imap|exact Hbefore|exact Hk|exact Hfail|];
    destruct (stepsIn_forEachScene svc characters (p0 :: pages) data 0 phs s)
      as (_ & new & Hnew & Hids);
    destruct (forEachScene b 0 data phs s) as [r st'] end.
  simpl in *. subst r out. simpl. repeat (split; [done|]). split.
  { by rewrite Ha. }
  rewrite Hp in Hnew. apply app_inv_head in Hnew. subst new.
  exists patched. rewrite Hp, <- !app_assoc. by simpl.
Qed.

Lemma C1_witness :
  let out := handleGenerateStoryboard (endFrameFails 1 panels2) clock0 roster2 pages3
               initialState in
  out.1 = Ok tt
  /\ scenes out.2 = []
  /\ exists patched,
       published out.2 = [] :: placeholderScenes clock0 data2 :: patched ++ [[]]
       /\ length patched = 1.
Proof.
  destruct (C1_frame_failure_ends_build (endFrameFails 1 panels2) clock0 roster2 pages3
              initialState data2 usage2 1
              (enrichPanel (panelOf "b" 12 1) "veo" "has dialogue")
              (JsError ("AI did not return an image. Response: "
                        +:+ dquote +:+ "blocked" +:+ dquote))
              ltac:(discriminate) eq_refl)
    as (Hr & Hs & _ & _ & patched & Hp & Hl & _).
  - intros [|j] p Hj Hp; [|lia]. injection Hp as <-. eexists. vm_compute. reflexivity.
  - reflexivity.
  - reflexivity.
  - split; [exact Hr|]. split; [exact Hs|]. exists patched. split; [exact Hp|exact Hl].
Defined.

(** C1, as stated, fails: in a build of two scenes in which the end frame of
    the second fails, the first scene has been populated and published, but
    the build then empties the storyboard: neither the failed scene nor its
    populated sibling is left. *)
Lemma C1_counterexample :
  let out := handleGenerateStoryboard (endFrameFails 1 panels2) clock0 roster2 pages3
               initialState in
  scenes out.2 = []
  /\ exists s0 s1,
       published out.2 = [[]; placeholderScenes clock0 data2; [s0; s1]; []]
       /\ VideoScene.isLoading s0 = false
       /\ VideoScene.startFrame s0 = Some "data:image/png;base64,S0"
       /\ VideoScene.endFrame s0 = Some "data:image/png;base64,E0"
       /\ VideoScene.isLoading s1 = true.
Proof.
  split; [vm_compute; reflexivity|]. do 2 eexists.
  split; [vm_compute; reflexivity|]. repeat split; reflexivity.
Qed.

(** ** Frame regeneration *)

Lemma sameExceptFrame_refl (frameType : FrameType) (s : VideoScene.t) :
  sameExceptFrame frameType s s.
Proof. unfold sameExceptFrame. by destruct frameType. Qed.

Lemma sameExceptFrame_patchFrame (frameType : FrameType) (newFrame : string)
    (s : VideoScene.t) :
  sameExceptFrame frameType s (patchFrame frameType newFrame s).
Proof. unfold sameExceptFrame. by destruct frameType. Qed.

Lemma patchFrame_only_by_id (sceneId : string) (frameType : FrameType) (newFrame : string)
    (l : list VideoScene.t) :
  Forall2 (fun s s' => sameExceptFrame frameType s s'
                       /\ (VideoScene.id s <> sceneId -> s' = s))
    l (patchById sceneId (patchFrame frameType newFrame) l).
Proof.
  induction l as [|s l IH]; simpl; constructor; [|exact IH].
  destruct (String.eqb_spec (VideoScene.id s) sceneId).
  - split; [apply sameExceptFrame_patchFrame|done].
  - split; [apply sameExceptFrame_refl|done].
Qed.

Lemma unchanged_only_by_id (sceneId : string) (frameType : FrameType)
    (l : list VideoScene.t) :
  Forall2 (fun s s' => sameExceptFrame frameType s s'
                       /\ (VideoScene.id s <> sceneId -> s' = s)) l l.
Proof.
  induction l; constructor; [|done]. split; [apply sameExceptFrame_refl|done].
Qed.

(** C6. A regeneration request for one frame of a scene leaves every other
    scene as it was and, in the scene itself, every field other than the
    requested frame: on success the requested frame alone is replaced by the
    new image; on failure the storyboard is exactly what it was and the
    failure is reported in an alert. *)
Theorem C6_regeneration_changes_one_frame
    (svc : Services) (sceneId : string) (frameType : FrameType) (editPrompt : string)
    (st : State) (scene : VideoScene.t) (original : string) :
  find (fun s => String.eqb (VideoScene.id s) sceneId) (scenes st) = Some scene ->
  frameOf frameType scene = Some original ->
  original <> "" ->
  let out := handleRegenerateFrame svc sceneId frameType editPrompt st in
  Forall2 (fun s s' => sameExceptFrame frameType s s'
                       /\ (VideoScene.id s <> sceneId -> s' = s))
    (scenes st) (scenes out.2)
  /\ match regenerateVideoFrame svc original editPrompt (VideoScene.description scene) with
     | Ok (newFrame, _) =>
         out.1 = Ok tt
         /\ scenes out.2 = patchById sceneId (patchFrame frameType newFrame) (scenes st)
         /\ forall k s, scenes st !! k = Some s -> VideoScene.id s = sceneId ->
              exists s', scenes out.2 !! k = Some s'
                         /\ frameOf frameType s' = Some newFrame
     | Throw e =>
         out.1 = Ok tt
         /\ scenes out.2 = scenes st
         /\ alerts out.2
            = alerts st ++ ["Frame regeneration failed: " +:+ messageOr e "Unknown Error"]
     | Never => out.1 = Never /\ scenes out.2 = scenes st
     end.
Proof.
  intros Hfind Hframe Hne out.
  assert (out = handleRegenerateFrame svc sceneId frameType editPrompt st) as Hout
    by reflexivity.
  clearbody out. unfold handleRegenerateFrame in Hout. rewrite Hfind in Hout.
  simpl in Hout. rewrite Hframe in Hout.
  destruct (String.eqb_spec original ""); [done|].
  unfold bind at 1 2, tryFinally, tryCatch in Hout. simpl in Hout.
  unfold bind at 1, await in Hout.
  destruct (regenerateVideoFrame svc original editPrompt (VideoScene.description scene))
    as [[newFrame usage]|e|]; simpl in Hout; subst out; simpl.
  - split; [apply patchFrame_only_by_id|]. split; [done|]. split; [done|].
    intros k s Hk Hid. rewrite patchById_lookup, Hk. simpl.
    rewrite Hid, String.eqb_refl. eexists. split; [done|]. by destruct frameType.
  - split; [apply unchanged_only_by_id|done].
  - split; [apply unchanged_only_by_id|done].
Qed.

Lemma C6_witness :
  let ok := handleRegenerateFrame (happyServices panels2 []) "17000000000000" start
              "make the character smile" (stateWith storyboard2) in
  let ko := handleRegenerateFrame regenerateFails "17000000000000" end_
              "" (stateWith storyboard2) in
  scenes ok.2
  = patchById "17000000000000" (patchFrame start "data:image/png;base64,R") storyboard2
  /\ scenes ko.2 = storyboard2
  /\ alerts ko.2 = ["Frame regeneration failed: AI did not return a regenerated image."].
Proof.
  pose proof (C6_regeneration_changes_one_frame (happyServices panels2 []) "17000000000000"
                start "make the character smile" (stateWith storyboard2) sceneA
                "data:image/png;base64,S0"
                ltac:(vm_compute; reflexivity) ltac:(vm_compute; reflexivity)
                ltac:(discriminate)) as Hok.
  pose proof (C6_regeneration_changes_one_frame regenerateFails "17000000000000"
                end_ "" (stateWith storyboard2) sceneA
                "data:image/png;base64,E0"
                ltac:(vm_compute; reflexivity) ltac:(vm_compute; reflexivity)
                ltac:(discriminate)) as Hko.
  destruct Hok as (_ & _ & Hs & _). destruct Hko as (_ & _ & Hs' & Ha).
  split; [exact Hs|]. split; [exact Hs'|exact Ha].
Defined.

(** ** The video job *)

Lemma sameIds_lookup (l l' : list VideoScene.t) (k : nat) (s : VideoScene.t) :
  sameIds l l' -> l !! k = Some s ->
  exists s', l' !! k = Some s' /\ VideoScene.id s' = VideoScene.id s.
Proof.
  unfold sameIds, idsOf. intros Hids Hk.
  pose proof (f_equal (fun ids => ids !! k) Hids) as H. simpl in H.
  change (map VideoScene.id ?x) with (VideoScene.id <$> x) in H.
  rewrite !list_lookup_fmap, Hk in H. simpl in H.
  destruct (l' !! k) as [s'|]; [|done]. injection H as H. eauto.
Qed.

Lemma pollLoop_settles (onProgressUpdate : string -> M unit)
    (polls : list (result Operation.t)) :
  (forall progress, alwaysReturns (onProgressUpdate progress)) ->
  forall operation pollCount st,
    Operation.done operation || scriptEnds polls = true ->
    (pollLoop onProgressUpdate operation pollCount polls st).1 <> Never.
Proof.
  intros Hcb. induction polls as [|answer later IH]; intros operation pollCount st Hends;
    simpl; destruct (Operation.done operation) eqn:Hdone; simpl in *; try done.
  unfold bind at 1.
  destruct (Hcb (progressMessages !!! (pollCount `mod` length progressMessages)) st)
    as [[] Hr].
  destruct (onProgressUpdate _ st) as [r st1]. simpl in Hr. subst r.
  unfold bind, await. destruct answer as [op'| |]; simpl; try done.
  by apply IH.
Qed.

Lemma generateVeoVideo_settles (svc : Services) (prompt : string)
    (onProgressUpdate : string -> M unit) (startFrame : option string) (duration : Z)
    (st : State) :
  (forall progress, alwaysReturns (onProgressUpdate progress)) ->
  settled (generateVideos svc prompt startFrame) ->
  scriptEnds (getVideosOperation svc) = true ->
  (forall url, settled (fetch svc url)) ->
  (generateVeoVideo svc prompt onProgressUpdate startFrame duration st).1 <> Never.
Proof.
  intros Hcb Hsubmit Hends Hfetch. unfold generateVeoVideo.
  unfold bind at 1. destruct (Hcb "Starting video generation..." st) as [[] Hr].
  destruct (onProgressUpdate _ st) as [r st1]. simpl in Hr. subst r.
  unfold bind at 1, submitJob.
  destruct (generateVideos svc prompt startFrame) as [submitted|failure|] eqn:Hgv; [|done|done].
  unfold bind at 1.
  match goal with |- context [pollLoop ?cb ?op ?n ?ps ?s] =>
    pose proof (pollLoop_settles cb ps Hcb op n s) as Hloop;
    destruct (pollLoop cb op n ps s) as [[final|e|] st2] end; simpl in *; [|done|].
  - destruct (Operation.error final); [done|]. unfold bind at 1.
    destruct (Hcb "Fetching video..." st2) as [[] Hr].
    destruct (onProgressUpdate _ st2) as [r st3]. simpl in Hr. subst r.
    destruct (Operation.uri final) as [link|]; [|done].
    destruct (String.eqb link ""); [done|]. unfold bind, await.
    pose proof (Hfetch (link +:+ "&key=" +:+ apiKey svc)) as Hf.
    destruct (fetch svc _) as [response|e|]; [|done|done].
    by destruct (FetchResponse.ok response).
  - exfalso. apply Hloop; [|done]. rewrite Hends. apply orb_true_r.
Qed.


Lemma keepsJobs_bind {A B} (m : M A) (k : A -> M B) :
  keepsJobs m -> (forall a, keepsJobs (k a)) -> keepsJobs (bind m k).
Proof.
  intros Hm Hk st. unfold bind. pose proof (Hm st) as H1.
  destruct (m st) as [[a| |] st1]; simpl in *; [|done..].
  by rewrite (Hk a st1).
Qed.

Lemma keepsJobs_pollLoop (onProgressUpdate : string -> M unit)
    (polls : list (result Operation.t)) :
  (forall progress, keepsJobs (onProgressUpdate progress)) ->
  forall operation pollCount,
    keepsJobs (pollLoop onProgressUpdate operation pollCount polls).
Proof.
  intros Hcb. induction polls as [|answer later IH]; intros operation pollCount; simpl;
    (destruct (Operation.done operation); [done|]);
    (apply keepsJobs_bind; [apply Hcb|intros _]); [done|].
  apply keepsJobs_bind; [done|]. intros op'. apply IH.
Qed.

(** Whatever the answers of the service, [generateVeoVideo] submits exactly
    one job, with the prompt and the start frame it was given. *)
Lemma generateVeoVideo_submits (svc : Services) (prompt : string)
    (onProgressUpdate : string -> M unit) (startFrame : option string) (duration : Z)
    (st : State) :
  (forall progress, keepsJobs (onProgressUpdate progress)) ->
  (forall progress, alwaysReturns (onProgressUpdate progress)) ->
  submittedJobs (generateVeoVideo svc prompt onProgressUpdate startFrame duration st).2
  = submittedJobs st ++ [(prompt, startFrame)].
Proof.
  intros Hcb Hret. unfold generateVeoVideo. unfold bind at 1.
  pose proof (Hcb "Starting video generation..." st) as Hj.
  destruct (Hret "Starting video generation..." st) as [[] Hr].
  destruct (onProgressUpdate _ st) as [r st1]. simpl in *. subst r.
  unfold bind at 1, submitJob. rewrite <- Hj.
  destruct (generateVideos svc prompt startFrame) as [submitted|failure|]; [|done|done].
  match goal with |- context [bind ?m ?k ?s] =>
    assert (keepsJobs (bind m k)) as Hrest end.
  { apply keepsJobs_bind; [by apply keepsJobs_pollLoop|]. intros final.
    destruct (Operation.error final); [done|].
    apply keepsJobs_bind; [apply Hcb|intros _].
    destruct (Operation.uri final) as [link|]; [|done].
    destruct (String.eqb link ""); [done|].
    apply keepsJobs_bind; [done|]. intros response.
    by destruct (FetchResponse.ok response). }
  by rewrite Hrest.
Qed.

(** C4 (amended). [handleCreateVeoVideo] does not look at the video status of
    the scene it is given. It does nothing exactly when the veo prompt or the
    start frame is missing or empty; otherwise, whatever the status (pending
    included), it publishes the scene as pending with "Initializing..." and
    submits one job to the service. The only guard on the status is in the
    render: the button that calls it is offered when the status is idle or
    error, and not when it is pending or done. *)
Theorem C4_run_is_not_guarded_by_status
    (svc : Services) (scene : VideoScene.t) (st : State) :
  let out := handleCreateVeoVideo svc scene st in
  (if falsy (Prompts.veo <$> VideoScene.prompts scene) || falsy (VideoScene.startFrame scene)
   then out = (Ok tt, st)
   else exists veoPrompt startFrame later,
          Prompts.veo <$> VideoScene.prompts scene = Some veoPrompt
          /\ VideoScene.startFrame scene = Some startFrame
          /\ submittedJobs out.2 = submittedJobs st ++ [(veoPrompt, Some startFrame)]
          /\ published out.2
             = published st
               ++ patchById (VideoScene.id scene)
                    (patchStatusProgress pending "Initializing...") (scenes st) :: later)
  /\ (veoButtonRendered scene = true
      <-> VideoScene.videoGenerationStatus scene = idle
          \/ VideoScene.videoGenerationStatus scene = error).
Proof.
  intros out. split.
  - assert (out = handleCreateVeoVideo svc scene st) as Hout by reflexivity.
    clearbody out. unfold handleCreateVeoVideo in Hout.
    destruct (Prompts.veo <$> VideoScene.prompts scene) as [veoPrompt|]; [|done].
    destruct (VideoScene.startFrame scene) as [startFrame|];
      [|simpl; by rewrite orb_true_r].
    simpl. destruct (String.eqb veoPrompt "" || String.eqb startFrame ""); [done|].
    exists veoPrompt, startFrame.
    unfold bind at 1, tryCatch in Hout. simpl in Hout. unfold bind at 1 in Hout.
    set (callback := fun progress : string =>
           setScenes (patchById (VideoScene.id scene) (patchProgress progress))) in *.
    match type of Hout with context [generateVeoVideo ?a ?b ?c ?d ?e ?s] =>
      pose proof (generateVeoVideo_submits a b c d e s) as Hjobs;
      destruct (stepsIn_generateVeoVideo anyChange a b c d e) with (st := s)
        as (_ & new & Hpub & _); [intros progress; by step_with stepsIn_setScenes|];
      destruct (generateVeoVideo a b c d e s) as [[[videoUrl usage]|thrown|] st2] end;
      simpl in *; subst out; simpl; rewrite Hjobs, Hpub by (intros ? ?; by eauto);
      rewrite <- !app_assoc; simpl; eauto.
  - unfold veoButtonRendered.
    destruct (VideoScene.videoGenerationStatus scene); split; intros H;
      try done; try (by left); try (by right); by destruct H.
Qed.

(** C4, as stated, fails: called on a scene whose video job is pending, the
    handler neither rejects the call nor leaves the state alone; it submits
    a job and drives it to completion. *)
Lemma C4_counterexample :
  let st := stateWith [sceneApending] in
  let out := handleCreateVeoVideo (happyServices panels2 pollsD) sceneApending st in
  VideoScene.videoGenerationStatus sceneApending = pending
  /\ out.1 = Ok tt
  /\ alerts out.2 = []
  /\ submittedJobs st = []
  /\ submittedJobs out.2 = [(Prompts.veo promptsA, Some "data:image/png;base64,S0")]
  /\ length (published out.2) = 7.
Proof. vm_compute. repeat split; reflexivity. Qed.

(** ** Progress of a video run *)

Lemma runPatches_spec (sceneId : string) (patches : list (VideoScene.t -> VideoScene.t)) :
  forall st,
    scenes (runPatches sceneId patches st) = foldPatches sceneId patches (scenes st)
    /\ published (runPatches sceneId patches st)
       = published st ++ publishEach sceneId patches (scenes st)
    /\ submittedJobs (runPatches sceneId patches st) = submittedJobs st
    /\ usageRecords (runPatches sceneId patches st) = usageRecords st.
Proof.
  induction patches as [|patch rest IH]; intros st; simpl.
  - by rewrite app_nil_r.
  - destruct (IH (setScenes (patchById sceneId patch) st).2) as (H1 & H2 & H3 & H4).
    unfold runPatches in *. simpl in *. rewrite H1, H2, H3, H4, <- app_assoc. done.
Qed.

Lemma publishEach_app (sceneId : string) (ps1 ps2 : list (VideoScene.t -> VideoScene.t))
    (l : list VideoScene.t) :
  publishEach sceneId (ps1 ++ ps2) l
  = publishEach sceneId ps1 l ++ publishEach sceneId ps2 (foldPatches sceneId ps1 l).
Proof.
  revert l. induction ps1 as [|p ps1 IH]; intros l; simpl; [done|]. by rewrite IH.
Qed.

Lemma foldPatches_lookup (sceneId : string) (patches : list (VideoScene.t -> VideoScene.t)) :
  Forall (fun patch => forall s, VideoScene.id (patch s) = VideoScene.id s) patches ->
  forall l k s,
    l !! k = Some s -> VideoScene.id s = sceneId ->
    foldPatches sceneId patches l !! k = Some (fold_left (fun s patch => patch s) patches s).
Proof.
  induction 1 as [|patch rest Hp _ IH]; intros l k s Hk Hid; simpl; [done|].
  apply IH.
  - by rewrite patchById_lookup, Hk; simpl; rewrite Hid, String.eqb_refl.
  - by rewrite Hp.
Qed.

Lemma pollLoop_done (onProgressUpdate : string -> M unit) (operation : Operation.t)
    (pollCount : nat) (polls : list (result Operation.t)) (st : State) :
  Operation.done operation = true ->
  pollLoop onProgressUpdate operation pollCount polls st = (Ok operation, st).
Proof. intros Hdone. destruct polls; simpl; by rewrite Hdone. Qed.

(** The loop on a job that answers [pending] to the first polls and [done] to
    the next: one message of the rotation before every poll. *)
Lemma pollLoop_pending_then_done (sceneId : string) (pendings : list Operation.t)
    (final : Operation.t) (later : list (result Operation.t)) :
  Forall (fun operation => Operation.done operation = false) pendings ->
  Operation.done final = true ->
  forall operation pollCount st,
    Operation.done operation = false ->
    pollLoop (fun progress => setScenes (patchById sceneId (patchProgress progress)))
      operation pollCount ((Ok <$> pendings) ++ Ok final :: later) st
    = (Ok final,
       runPatches sceneId (patchProgress <$> rotation (S (length pendings)) pollCount) st).
Proof.
  intros Hpend Hfinal. induction Hpend as [|p pendings Hp _ IH];
    intros operation pollCount st Hop; simpl; rewrite Hop; unfold bind at 1; simpl;
    unfold bind at 1, await.
  - by rewrite pollLoop_done.
  - by rewrite (IH p (S pollCount) _ Hp).
Qed.

(** C8 (amended). When the submitted job is pending, answers [pending] to
    the first n polls and [done] with a download link to the next, and the
    download succeeds, the run returns normally and the subscriber sees, in
    this order: the scene set pending with "Initializing...", "Starting
    video generation...", n + 1 messages of the rotation (one before each
    poll, the poll that reports completion included), "Fetching video...",
    and the scene done; the URL stored in the scene is the object URL made
    from the downloaded video, not the link that the job reported. For the
    poll answers pending, pending, done that is three messages of the
    rotation. *)
Theorem C8_progress_updates_per_poll
    (svc : Services) (scene : VideoScene.t) (st : State)
    (allPrompts : Prompts.t) (startFrame : string)
    (submitted : Operation.t) (pendings : list Operation.t) (final : Operation.t)
    (later : list (result Operation.t)) (link : string) (response : FetchResponse.t) :
  VideoScene.prompts scene = Some allPrompts ->
  Prompts.veo allPrompts <> "" ->
  VideoScene.startFrame scene = Some startFrame ->
  startFrame <> "" ->
  generateVideos svc (Prompts.veo allPrompts) (Some startFrame) = Ok submitted ->
  Operation.done submitted = false ->
  getVideosOperation svc = (Ok <$> pendings) ++ Ok final :: later ->
  Forall (fun operation => Operation.done operation = false) pendings ->
  Operation.done final = true ->
  Operation.error final = None ->
  Operation.uri final = Some link ->
  link <> "" ->
  fetch svc (link +:+ "&key=" +:+ apiKey svc) = Ok response ->
  FetchResponse.ok response = true ->
  let out := handleCreateVeoVideo svc scene st in
  let updates :=
    [patchStatusProgress pending "Initializing...";
     patchProgress "Starting video generation..."]
    ++ (patchProgress <$> rotation (S (length pendings)) 0)
    ++ [patchProgress "Fetching video..."; patchDone (FetchResponse.objectURL response)] in
  out.1 = Ok tt
  /\ published out.2 = published st ++ publishEach (VideoScene.id scene) updates (scenes st)
  /\ scenes out.2 = foldPatches (VideoScene.id scene) updates (scenes st)
  /\ length (rotation (S (length pendings)) 0) = S (length pendings)
  /\ (forall k s, scenes st !! k = Some s -> VideoScene.id s = VideoScene.id scene ->
        exists s', scenes out.2 !! k = Some s'
          /\ VideoScene.videoGenerationStatus s' = done
          /\ VideoScene.generatedVideoUrl s' = Some (FetchResponse.objectURL response)).
Proof.
  intros Hprompts Hveo Hstart Hframe Hsubmit Hsubmitted Hpolls Hpend Hfinal Herror Huri
    Hlink Hfetch Hok out updates.
  assert (out = handleCreateVeoVideo svc scene st) as Hout by reflexivity.
  clearbody out. unfold handleCreateVeoVideo in Hout. rewrite Hprompts, Hstart in Hout.
  simpl in Hout.
  destruct (String.eqb_spec (Prompts.veo allPrompts) ""); [done|].
  destruct (String.eqb_spec startFrame ""); [done|]. simpl in Hout.
  unfold bind at 1, tryCatch in Hout. simpl in Hout. unfold bind at 1 in Hout.
  unfold generateVeoVideo in Hout. unfold bind at 1 in Hout. simpl in Hout.
  unfold bind at 1, submitJob in Hout. rewrite Hsubmit in Hout. simpl in Hout.
  unfold bind at 1 in Hout. rewrite Hpolls in Hout.
  rewrite (pollLoop_pending_then_done _ _ _ _ Hpend Hfinal _ _ _ Hsubmitted) in Hout.
  set (rot := patchProgress <$> rotation (S (length pendings)) 0) in *.
  match type of Hout with context [runPatches ?i rot ?s] =>
    destruct (runPatches_spec i rot s) as (Hs & Hp & _); set (st3 := runPatches i rot s) in *
  end.
  clearbody st3. simpl in Hs, Hp.
  rewrite Herror in Hout. unfold bind at 1 in Hout. simpl in Hout.
  rewrite Huri in Hout. destruct (String.eqb_spec link ""); [done|].
  unfold bind at 1, await in Hout. rewrite Hfetch, Hok in Hout. simpl in Hout.
  subst out. simpl. rewrite Hs, Hp. clear Hs Hp st3.
  assert (Forall (fun patch : VideoScene.t -> VideoScene.t =>
                    forall s, VideoScene.id (patch s) = VideoScene.id s) updates) as Hids.
  { subst updates rot. repeat (apply Forall_cons; split; [done|]).
    apply Forall_app. split; [|by repeat constructor].
    apply Forall_fmap, Forall_forall. by intros. }
  split; [done|]. split; [|split; [|split]].
  - subst updates. simpl. rewrite publishEach_app. simpl.
    rewrite <- !app_assoc. done.
  - subst updates. unfold foldPatches. simpl. by rewrite fold_left_app.
  - unfold rotation. by rewrite length_fmap, length_seq.
  - intros k s Hk Hid.
    assert (foldPatches (VideoScene.id scene) updates (scenes st) !! k
            = Some (fold_left (fun s patch => patch s) updates s)) as Hfold
      by (by apply foldPatches_lookup).
    subst updates. unfold foldPatches in Hfold. simpl in Hfold.
    rewrite !fold_left_app in Hfold. simpl in Hfold.
    eexists. split; [exact Hfold|]. done.
Qed.

Lemma C8_witness :
  let out := handleCreateVeoVideo (happyServices panels2 pollsD) sceneA
               (stateWith storyboard2) in
  out.1 = Ok tt
  /\ length (rotation 3 0) = 3
  /\ exists s', scenes out.2 !! 0 = Some s'
       /\ VideoScene.videoGenerationStatus s' = done
       /\ VideoScene.generatedVideoUrl s' = Some "blob:https://video/X?alt=media&key=KEY".
Proof.
  destruct (C8_progress_updates_per_poll (happyServices panels2 pollsD) sceneA
              (stateWith storyboard2) promptsA "data:image/png;base64,S0"
              pendingOperation [pendingOperation; pendingOperation]
              (doneOperation "https://video/X?alt=media") []
              "https://video/X?alt=media"
              (FetchResponse.mk true "OK" "blob:https://video/X?alt=media&key=KEY")
              eq_refl ltac:(discriminate) eq_refl ltac:(discriminate)
              eq_refl eq_refl eq_refl
              ltac:(repeat constructor) eq_refl eq_refl eq_refl ltac:(discriminate)
              eq_refl eq_refl)
    as (Hr & _ & _ & Hlen & Hscene).
  split; [exact Hr|]. split; [exact Hlen|].
  exact (Hscene 0 sceneA eq_refl eq_refl).
Defined.

(** C8, as stated, fails: with the poll answers pending, pending, done(X) the
    subscriber sees three messages of the rotation between "Starting video
    generation..." and "Fetching video...", not two, and the scene stores
    the object URL of the download, not X. *)
Lemma C8_counterexample :
  let out := handleCreateVeoVideo (happyServices panels2 pollsD) sceneA
               (stateWith storyboard2) in
  let seen := observedProgress (VideoScene.id sceneA) (published out.2) in
  getVideosOperation (happyServices panels2 pollsD)
  = [Ok pendingOperation; Ok pendingOperation; Ok (doneOperation "https://video/X?alt=media")]
  /\ seen = [ "Initializing..."; "Starting video generation...";
              "Casting characters..."; "Setting up the scene...";
              "Director is shouting 'Action!'...";
              "Fetching video..."; "Fetching video..." ]
  /\ length (filter (fun m => isRotating m = true) seen) = 3
  /\ (scenes out.2 !! 0) ≫= VideoScene.generatedVideoUrl
     = Some "blob:https://video/X?alt=media&key=KEY"
  /\ ~ (length (filter (fun m => isRotating m = true) seen) = 2
        /\ (scenes out.2 !! 0) ≫= VideoScene.generatedVideoUrl
           = Some "https://video/X?alt=media").
Proof.
  split; [reflexivity|]. split; [vm_compute; reflexivity|].
  split; [vm_compute; reflexivity|]. split; [vm_compute; reflexivity|].
  intros [H _]. vm_compute in H. discriminate.
Qed.

(** ** Data URLs *)

Lemma beforeComma_app (s t : string) :
  noneOf (fun c => Ascii.eqb c ","%char) s = true ->
  beforeComma (s +:+ String ","%char t) = s.
Proof.
  induction s as [|c s IH]; simpl; [done|].
  destruct (Ascii.eqb c ","%char); simpl; [done|].
  intros H. by rewrite IH.
Qed.

Lemma beforeComma_none (s : string) :
  noneOf (fun c => Ascii.eqb c ","%char) s = true -> beforeComma s = s.
Proof.
  induction s as [|c s IH]; simpl; [done|].
  destruct (Ascii.eqb c ","%char); simpl; [done|].
  intros H. by rewrite IH.
Qed.

Lemma secondField_app (s t : string) :
  noneOf (fun c => Ascii.eqb c ","%char) s = true ->
  secondField (s +:+ String ","%char t) = Some (beforeComma t).
Proof.
  induction s as [|c s IH]; simpl; [done|].
  destruct (Ascii.eqb c ","%char); simpl; [done|].
  exact IH.
Qed.

(** A semicolon never completes a line separator. *)
Lemma atLineSeparator_app (c : ascii) (s t : string) :
  atLineSeparator (String c s +:+ String ";"%char t) = atLineSeparator (String c s).
Proof.
  destruct s as [|b [|d s]]; simpl.
  - destruct t; [done|]. by rewrite andb_false_r.
  - by rewrite andb_false_r.
  - done.
Qed.

Lemma lazyUntilSemicolon_app (s t : string) :
  noneOf (fun c => Ascii.eqb c ";"%char || isLineTerminator c) s = true ->
  noLineSeparator s = true ->
  lazyUntilSemicolon (s +:+ String ";"%char t) = Some s.
Proof.
  induction s as [|c s IH]; [done|].
  intros Hnone Hsep. cbn [noneOf noLineSeparator] in Hnone, Hsep.
  apply andb_true_iff in Hnone as [Hc Hnone]. apply andb_true_iff in Hsep as [Hc' Hsep].
  apply negb_true_iff, orb_false_iff in Hc as [Hsemi Hterm]. apply negb_true_iff in Hc'.
  change (String c s +:+ String ";"%char t) with (String c (s +:+ String ";"%char t)).
  cbn [lazyUntilSemicolon]. rewrite Hsemi, Hterm.
  change (String c (s +:+ String ";"%char t)) with (String c s +:+ String ";"%char t).
  rewrite atLineSeparator_app, Hc'. simpl. by rewrite IH.
Qed.

Lemma stripPrefix_Some (p s r : string) : stripPrefix p s = Some r <-> s = p +:+ r.
Proof.
  revert s. induction p as [|a p IH]; intros s; simpl.
  - split; [by intros [= ->]|by intros ->].
  - destruct s as [|b s]; [split; discriminate|].
    destruct (Ascii.eqb_spec a b) as [->|Hne].
    + rewrite IH. split; [by intros ->|by intros [= ->]].
    + split; [discriminate|]. intros [= -> _]. done.
Qed.

Lemma matchDataImage_image (s m : string) :
  matchDataImage s = Some m -> exists rest, m = "image/" +:+ rest.
Proof.
  induction s as [|c s IH]; simpl.
  - discriminate.
  - destruct (_ ≫= lazyUntilSemicolon) as [rest|]; [intros [= <-]; eauto|exact IH].
Qed.

Lemma secondField_skip (s t : string) :
  noneOf (fun c => Ascii.eqb c ","%char) s = true ->
  secondField (s +:+ t) = secondField t.
Proof.
  induction s as [|c s IH]; simpl; [done|].
  destruct (Ascii.eqb c ","%char); simpl; [done|]. exact IH.
Qed.

Lemma lazyUntilSemicolon_skip (s t : string) :
  noneOf (fun c => Ascii.eqb c ";"%char || isLineTerminator c) s = true ->
  noLineSeparator s = true ->
  lazyUntilSemicolon (s +:+ String ";"%char t) = Some s.
Proof. apply lazyUntilSemicolon_app. Qed.

Lemma matchDataImage_occurs (s m : string) :
  matchDataImage s = Some m -> exists pre post, s = pre +:+ "data:image/" +:+ post.
Proof.
  induction s as [|c s IH].
  - simpl. discriminate.
  - cbn [matchDataImage].
    destruct (stripPrefix "data:image/" (String c s)) as [r|] eqn:Hp.
    + intros _. apply stripPrefix_Some in Hp. exists "", r. exact Hp.
    + simpl. intros H. destruct (IH H) as (pre & post & ->).
      by exists (String c pre), post.
Qed.

Lemma matchDataImage_head (r rest : string) :
  lazyUntilSemicolon r = Some rest ->
  matchDataImage ("data:image/" +:+ r) = Some ("image/" +:+ rest).
Proof.
  intros Hr. change ("data:image/" +:+ r) with (String "d"%char ("ata:image/" +:+ r)).
  cbn [matchDataImage].
  change (String "d"%char ("ata:image/" +:+ r)) with ("data:image/" +:+ r).
  rewrite (proj2 (stripPrefix_Some "data:image/" ("data:image/" +:+ r) r) eq_refl).
  simpl. by rewrite Hr.
Qed.

(** X1. A frame as the frame functions return it, made from an inline image of
    an [image/...] type, is taken apart again into exactly that type and
    that data when it is sent back to the image model: the regular
    expression recovers the type and the split at the comma recovers the
    data. The type must hold no semicolon, no comma and none of the four
    line terminators (line feed, carriage return, line separator, paragraph
    separator), and the data no comma, which is so for media types and
    base64 text. *)
Theorem frame_part_round_trip (subtype data : string) :
  noneOf (fun c => Ascii.eqb c ";"%char || isLineTerminator c) subtype = true ->
  noLineSeparator subtype = true ->
  noneOf (fun c => Ascii.eqb c ","%char) subtype = true ->
  noneOf (fun c => Ascii.eqb c ","%char) data = true ->
  framePart (dataUrl ("image/" +:+ subtype) data)
  = InlineData.mk (Some data) ("image/" +:+ subtype).
Proof.
  intros Hsemi Hsep Hcomma Hdata. unfold framePart, base64ToGeminiPart.
  change (dataUrl ("image/" +:+ subtype) data)
    with ("data:image/" +:+ (subtype +:+ String ";"%char ("base64" +:+ String ","%char data))).
  f_equal.
  - rewrite (secondField_skip "data:image/") by reflexivity.
    rewrite (secondField_skip subtype) by done.
    change (String ";"%char ("base64" +:+ String ","%char data))
      with (";base64" +:+ String ","%char data).
    rewrite (secondField_app ";base64") by reflexivity. by rewrite beforeComma_none.
  - unfold mimeTypeOf.
    rewrite (matchDataImage_head _ subtype) by (by apply lazyUntilSemicolon_app).
    done.
Qed.

Lemma frame_part_round_trip_witness :
  framePart (dataUrl "image/jpeg" "AAECAw==")
  = InlineData.mk (Some "AAECAw==") "image/jpeg".
Proof.
  exact (frame_part_round_trip "jpeg" "AAECAw==" eq_refl eq_refl eq_refl eq_refl).
Defined.

(** A type with a line separator in it is not matched by the expression:
    the type sent is the default, and the round trip is lost. *)
Example mimeTypeOf_line_separator :
  mimeTypeOf
    (dataUrl ("image/p" +:+ String "226" (String "128" (String "168" "ng"))) "AAECAw==")
  = "image/png".
Proof. reflexivity. Qed.

(** X2. The media type computed for a frame always is an [image/...] type; it is
    [image/png] whenever the frame holds no [data:image/] anywhere, whatever
    type the frame announces. *)
Theorem mimeTypeOf_is_image (s : string) :
  (exists rest, mimeTypeOf s = "image/" +:+ rest)
  /\ ((forall pre post, s <> pre +:+ "data:image/" +:+ post) -> mimeTypeOf s = "image/png").
Proof.
  unfold mimeTypeOf. split.
  - destruct (matchDataImage s) as [m|] eqn:Hm; [|by exists "png"].
    destruct (matchDataImage_image s m Hm) as [rest ->]. by exists rest.
  - intros Hno. destruct (matchDataImage s) as [m|] eqn:Hm; [|done].
    destruct (matchDataImage_occurs s m Hm) as (pre & post & ->). by destruct (Hno pre post).
Qed.

(** ** ImportSourceModal *)

(** X3. Clicking a page twice leaves the selection as it was; one click changes
    whether that page is selected and nothing else. *)
Theorem toggleEditorPageSelection_involutive (pageId : string) (prev : gset string) :
  toggleEditorPageSelection pageId (toggleEditorPageSelection pageId prev) = prev
  /\ (pageId ∈ toggleEditorPageSelection pageId prev <-> pageId ∉ prev)
  /\ (forall other, other <> pageId ->
        (other ∈ toggleEditorPageSelection pageId prev <-> other ∈ prev)).
Proof.
  unfold toggleEditorPageSelection. split; [|split].
  - destruct (decide (pageId ∈ prev)) as [Hin|Hout].
    + rewrite decide_False by set_solver. apply set_eq. intros x.
      destruct (decide (x = pageId)); set_solver.
    + rewrite decide_True by set_solver. set_solver.
  - destruct (decide (pageId ∈ prev)); set_solver.
  - intros other Hne. destruct (decide (pageId ∈ prev)); set_solver.
Qed.

Lemma filter_nonempty {A} (f : A -> bool) (l : list A) (x : A) :
  In x l -> f x = true -> List.filter f l <> [].
Proof.
  intros Hin Hf Hnil. assert (In x (List.filter f l)) as H by (by apply filter_In).
  rewrite Hnil in H. done.
Qed.

(** X4. An enabled Generate button hands a non-empty page list to the build,
    in upload mode always, and in editor mode when the selection holds only
    ids of editor pages that have a generated image (the pages the modal
    offers for selection). *)
Theorem enabled_generate_gives_pages (mode : ImportMode) (editorPages : list EditorPage.t)
    (selectedEditorPageIds : gset string) (uploadedPages : list Page.t) :
  isGenerateDisabled mode selectedEditorPageIds uploadedPages = false ->
  (mode = editor ->
   forall pageId, pageId ∈ selectedEditorPageIds ->
     exists p, In p (generatedEditorPages editorPages) /\ EditorPage.id p = pageId) ->
  handleGenerateClick mode editorPages selectedEditorPageIds uploadedPages <> [].
Proof.
  intros Henabled Hsel. destruct mode; simpl in *.
  - apply Nat.eqb_neq in Henabled.
    destruct (set_choose_L selectedEditorPageIds) as [pageId Hin].
    { intros ->. by rewrite size_empty in Henabled. }
    destruct (Hsel eq_refl pageId Hin) as (p & Hp & Hid).
    intros Hnil. apply map_eq_nil in Hnil. revert Hnil.
    apply (filter_nonempty _ _ p Hp). apply bool_decide_eq_true. by rewrite Hid.
  - apply Nat.eqb_neq in Henabled. by destruct uploadedPages.
Qed.

Lemma enabled_generate_gives_pages_witness :
  handleGenerateClick editor
    [EditorPage.mk "p1" "Page 1" (Some "data:image/png;base64,AA");
     EditorPage.mk "p2" "Page 2" None]
    {[ "p1" ]} [] <> [].
Proof.
  apply enabled_generate_gives_pages.
  - reflexivity.
  - intros _ pageId Hin. apply elem_of_singleton in Hin. subst pageId.
    exists (EditorPage.mk "p1" "Page 1" (Some "data:image/png;base64,AA")).
    split; [left; reflexivity|reflexivity].
Defined.

(** X5. In editor mode the pages handed over are the generated images of the
    selected pages, in the order of the editor; a page without image is
    never among them, selected or not. *)
Theorem handleGenerateClick_editor_pages (editorPages : list EditorPage.t)
    (selectedEditorPageIds : gset string) (uploadedPages : list Page.t) :
  map Page.data (handleGenerateClick editor editorPages selectedEditorPageIds uploadedPages)
  = omap (fun p =>
            if bool_decide (EditorPage.id p ∈ selectedEditorPageIds)
            then match EditorPage.generatedImage p with
                 | Some image => if String.eqb image "" then None else Some image
                 | None => None
                 end
            else None) editorPages.
Proof.
  unfold handleGenerateClick, generatedEditorPages.
  induction editorPages as [|p l IH]; simpl; [done|].
  destruct (EditorPage.generatedImage p) as [image|] eqn:Himg; simpl.
  - destruct (String.eqb image ""); simpl.
    + rewrite IH. by destruct (bool_decide _).
    + destruct (bool_decide _); simpl; [rewrite Himg; simpl|]; by rewrite IH.
  - rewrite IH. by destruct (bool_decide _).
Qed.

Lemma omap_id_Some {A} (l : list A) : omap id (Some <$> l) = l.
Proof. induction l as [|x l IH]; [done|]. cbn. by f_equal. Qed.

(** X6. Removing an uploaded page deletes exactly the page at that index and
    keeps the others in order; an index past the end removes nothing, and
    removing a page that was just added at the end gives the list back. *)
Theorem removeUploadedPage_delete (index : nat) (p : list Page.t) :
  removeUploadedPage index p = delete index p
  /\ (length p <= index -> removeUploadedPage index p = p)
  /\ (forall page, removeUploadedPage (length p) (p ++ [page]) = p).
Proof.
  assert (forall index l, removeUploadedPage index l = delete index l) as Hdel.
  { clear. intros index l. unfold removeUploadedPage. revert index.
    induction l as [|q l IH]; intros index; [done|].
    rewrite imap_cons. destruct index as [|index].
    - rewrite (imap_ext _ (const Some) l) by done. rewrite imap_const.
      exact (omap_id_Some l).
    - simpl. f_equal. rewrite <- (IH index). f_equal. }
  split; [apply Hdel|]. split.
  - intros Hle. rewrite Hdel. clear Hdel. revert index Hle.
    induction p as [|q p IH]; intros index Hle; [by destruct index|].
    destruct index as [|index]; simpl in *; [lia|]. f_equal. apply IH. lia.
  - intros page. rewrite Hdel. clear Hdel.
    induction p as [|q p IH]; simpl; [done|]. by rewrite IH.
Qed.

(** ** Model selection *)

(** X7. Ticking a model twice leaves the selection as it was, and one tick
    changes that model alone; the prompt cards shown are the ticked models
    in the order of the table, and the button that starts a video run is
    shown exactly when veo is ticked and the scene is idle or in error. *)
Theorem toggleModelSelection_involutive (modelId : VideoModelId.t)
    (prev : VideoModelId.t -> bool) (selectedScene : VideoScene.t) :
  (forall m, toggleModelSelection modelId (toggleModelSelection modelId prev) m = prev m)
  /\ toggleModelSelection modelId prev modelId = negb (prev modelId)
  /\ (forall m, m <> modelId -> toggleModelSelection modelId prev m = prev m)
  /\ (forall m, In m (shownModels prev) <-> prev m = true)
  /\ sublist (shownModels prev) VideoModelId.all
  /\ (veoButtonShown prev selectedScene = true
      <-> In VideoModelId.veo (shownModels prev)
          /\ (VideoScene.videoGenerationStatus selectedScene = idle
              \/ VideoScene.videoGenerationStatus selectedScene = error)).
Proof.
  assert (forall m, In m (shownModels prev) <-> prev m = true) as Hshown.
  { intros m. unfold shownModels. rewrite filter_In. split; [by intros [_ ?]|].
    intros H. split; [|done]. destruct m; simpl; auto. }
  split; [|split; [|split; [|split; [|split]]]].
  - intros m. destruct modelId, m; simpl; try done; by rewrite negb_involutive.
  - by destruct modelId.
  - intros m Hne. by destruct modelId, m.
  - exact Hshown.
  - unfold shownModels, VideoModelId.all. simpl.
    destruct (prev VideoModelId.seedance), (prev VideoModelId.hailuo),
      (prev VideoModelId.veo), (prev VideoModelId.kling);
      repeat first [apply sublist_skip | apply sublist_cons | apply sublist_nil].
  - unfold veoButtonShown, veoButtonRendered. rewrite Hshown, andb_true_iff.
    destruct (VideoScene.videoGenerationStatus selectedScene); split;
      intros [H1 H2]; split; try done; try (by left); try (by right); by destruct H2.
Qed.

(** ** What is kept along a computation *)

Section Keeps.
Context (I : relation State) `{!PreOrder I}.

Lemma keeps_same {A} (m : M A) : (forall st, (m st).2 = st) -> keeps I m.
Proof. intros H st. rewrite H. reflexivity. Qed.

Lemma keeps_ret {A} (a : A) : keeps I (ret a).
Proof. by apply keeps_same. Qed.

Lemma keeps_await {A} (r : result A) : keeps I (await r).
Proof. by apply keeps_same. Qed.

Lemma keeps_bind {A B} (m : M A) (k : A -> M B) :
  keeps I m -> (forall a, keeps I (k a)) -> keeps I (bind m k).
Proof.
  intros Hm Hk st. unfold bind. pose proof (Hm st) as H1.
  destruct (m st) as [[a| |] st1]; simpl in *; [|done..].
  etrans; [exact H1|apply Hk].
Qed.

Lemma keeps_tryCatch {A} (body : M A) (handler : exn -> M A) :
  keeps I body -> (forall e, keeps I (handler e)) -> keeps I (tryCatch body handler).
Proof.
  intros Hm Hk st. unfold tryCatch. pose proof (Hm st) as H1.
  destruct (body st) as [[a|e|] st1]; simpl in *; [done| |done].
  etrans; [exact H1|apply Hk].
Qed.

Lemma keeps_tryFinally {A} (body : M A) (cleanup : M unit) :
  keeps I body -> keeps I cleanup -> keeps I (tryFinally body cleanup).
Proof.
  intros Hm Hk st. unfold tryFinally. pose proof (Hm st) as H1.
  destruct (body st) as [r st1]; simpl in *. pose proof (Hk st1) as H2.
  destruct r as [a|e|]; [| |done];
    destruct (cleanup st1) as [[[]|e'|] st2]; simpl in *; by etrans.
Qed.

Lemma keeps_pollLoop (onProgressUpdate : string -> M unit) (polls : list (result Operation.t)) :
  (forall progress, keeps I (onProgressUpdate progress)) ->
  forall operation pollCount, keeps I (pollLoop onProgressUpdate operation pollCount polls).
Proof.
  intros Hcb. induction polls as [|answer later IH]; intros operation pollCount; simpl;
    (destruct (Operation.done operation); [apply keeps_ret|]);
    (apply keeps_bind; [apply Hcb|intros _]).
  - apply keeps_await.
  - apply keeps_bind; [apply keeps_await|]. intros op'. apply IH.
Qed.

Lemma keeps_generateVeoVideo (svc : Services) (prompt : string)
    (onProgressUpdate : string -> M unit) (startFrame : option string) (duration : Z) :
  (forall progress, keeps I (onProgressUpdate progress)) ->
  keeps I (submitJob svc prompt startFrame) ->
  keeps I (generateVeoVideo svc prompt onProgressUpdate startFrame duration).
Proof.
  intros Hcb Hsubmit. unfold generateVeoVideo.
  apply keeps_bind; [apply Hcb|intros _].
  apply keeps_bind; [apply Hsubmit|intros submitted].
  apply keeps_bind; [by apply keeps_pollLoop|intros final].
  destruct (Operation.error final); [apply keeps_await|].
  apply keeps_bind; [apply Hcb|intros _].
  destruct (Operation.uri final) as [link|]; [|apply keeps_await].
  destruct (String.eqb link ""); [apply keeps_await|].
  apply keeps_bind; [apply keeps_await|intros response].
  destruct (FetchResponse.ok response); [apply keeps_ret|apply keeps_await].
Qed.

End Keeps.

Lemma differOnlyIn_refl (erase : VideoScene.t -> VideoScene.t) (sceneId : string)
    (l : list VideoScene.t) :
  differOnlyIn erase sceneId l l.
Proof.
  induction l as [|s l IH]; constructor; [|exact IH].
  by destruct (String.eqb (VideoScene.id s) sceneId).
Qed.

Lemma differOnlyIn_trans (erase : VideoScene.t -> VideoScene.t) (sceneId : string) :
  (forall s s', erase s' = erase s -> VideoScene.id s' = VideoScene.id s) ->
  forall l1 l2 l3,
    differOnlyIn erase sceneId l1 l2 -> differOnlyIn erase sceneId l2 l3 ->
    differOnlyIn erase sceneId l1 l3.
Proof.
  intros Hid l1 l2 l3 H12. revert l3.
  induction H12 as [|s1 s2 l1 l2 Hs _ IH]; intros l3 H23; inversion H23 as [|? s3 ? l3' Hs' H23']; subst;
    constructor; [|by apply IH].
  destruct (String.eqb (VideoScene.id s1) sceneId) eqn:E1.
  - rewrite (Hid _ _ Hs), E1 in Hs'. congruence.
  - subst s2. by rewrite E1 in Hs'.
Qed.

Lemma differOnlyIn_patch (erase : VideoScene.t -> VideoScene.t) (sceneId : string)
    (patch : VideoScene.t -> VideoScene.t) (l : list VideoScene.t) :
  (forall s, erase (patch s) = erase s) ->
  differOnlyIn erase sceneId l (patchById sceneId patch l).
Proof.
  intros Hp. induction l as [|s l IH]; simpl; constructor; [|exact IH].
  by destruct (String.eqb (VideoScene.id s) sceneId).
Qed.

Lemma differOnlyIn_lookup (erase : VideoScene.t -> VideoScene.t) (sceneId : string)
    (l l' : list VideoScene.t) (k : nat) (s : VideoScene.t) :
  differOnlyIn erase sceneId l l' -> l !! k = Some s ->
  exists s', l' !! k = Some s'
    /\ (if String.eqb (VideoScene.id s) sceneId then erase s' = erase s else s' = s).
Proof.
  intros H Hk. destruct (Forall2_lookup_l _ _ _ _ _ H Hk) as (s' & Hk' & Hs). eauto.
Qed.

Global Instance progressOnly_preorder (sceneId : string) : PreOrder (progressOnly sceneId).
Proof.
  split.
  - intros st. split; [apply differOnlyIn_refl|done].
  - intros s1 s2 s3 (H1 & Hu1 & Ha1) (H2 & Hu2 & Ha2). split; [|split; congruence].
    eapply differOnlyIn_trans; [|exact H1|exact H2].
    intros s s' H. by apply (f_equal VideoScene.id) in H.
Qed.

Global Instance videoOnly_preorder (sceneId : string) : PreOrder (videoOnly sceneId).
Proof.
  split.
  - intros st. split; [apply differOnlyIn_refl|done].
  - intros s1 s2 s3 (H1 & Ha1) (H2 & Ha2). split; [|congruence].
    eapply differOnlyIn_trans; [|exact H1|exact H2].
    intros s s' H. by apply (f_equal VideoScene.id) in H.
Qed.

(** ** Outcome of a video run *)

Lemma pollLoop_result (onProgressUpdate : string -> M unit)
    (polls : list (result Operation.t)) :
  (forall progress, alwaysReturns (onProgressUpdate progress)) ->
  forall operation pollCount st,
    (pollLoop onProgressUpdate operation pollCount polls st).1 = awaitJob operation polls.
Proof.
  intros Hcb. induction polls as [|answer later IH]; intros operation pollCount st;
    simpl; destruct (Operation.done operation); try done; unfold bind at 1;
    destruct (Hcb (progressMessages !!! (pollCount `mod` length progressMessages)) st)
      as [[] Hr];
    destruct (onProgressUpdate _ st) as [r st1]; simpl in Hr; subst r; try done.
  unfold bind, await. by destruct answer as [op'| |]; simpl.
Qed.

(** The result of [generateVeoVideo] is a function of the answers of the
    service alone: neither the state nor what the progress callback does
    with the messages has a part in it. *)
Lemma generateVeoVideo_outcome (svc : Services) (prompt : string)
    (onProgressUpdate : string -> M unit) (startFrame : option string) (duration : Z)
    (st : State) :
  (forall progress, alwaysReturns (onProgressUpdate progress)) ->
  (generateVeoVideo svc prompt onProgressUpdate startFrame duration st).1
  = match videoOutcome svc prompt startFrame with
    | Ok videoUrl => Ok (videoUrl, createVideoUsageRecord "Generate VEO Video" duration)
    | Throw e => Throw e
    | Never => Never
    end.
Proof.
  intros Hcb. unfold generateVeoVideo, videoOutcome, jobOutcome. unfold bind at 1.
  destruct (Hcb "Starting video generation..." st) as [[] Hr].
  destruct (onProgressUpdate _ st) as [r st1]. simpl in Hr. subst r.
  unfold bind at 1, submitJob.
  destruct (generateVideos svc prompt startFrame) as [submitted|failure|]; [|done|done].
  unfold bind at 1.
  match goal with |- context [pollLoop ?cb ?o ?n ?ps ?s] =>
    pose proof (pollLoop_result cb ps Hcb o n s) as Hloop;
    destruct (pollLoop cb o n ps s) as [r st2] end.
  simpl in Hloop. subst r.
  destruct (awaitJob submitted (getVideosOperation svc)) as [final|e|]; [|done|done].
  unfold downloadOutcome. destruct (Operation.error final); [done|]. unfold bind at 1.
  destruct (Hcb "Fetching video..." st2) as [[] Hr].
  destruct (onProgressUpdate _ st2) as [r st3]. simpl in Hr. subst r.
  destruct (Operation.uri final) as [link|]; [|done]. simpl.
  destruct (String.eqb link ""); [done|]. unfold bind, await.
  destruct (fetch svc _) as [response|e|]; [|done|done].
  by destruct (FetchResponse.ok response).
Qed.

Lemma keeps_progress_patch (sceneId progress : string) :
  keeps (progressOnly sceneId) (setScenes (patchById sceneId (patchProgress progress))).
Proof. intros st. split; [|done]. by apply differOnlyIn_patch. Qed.

Lemma keeps_progress_submitJob (sceneId : string) (svc : Services) (prompt : string)
    (startFrame : option string) :
  keeps (progressOnly sceneId) (submitJob svc prompt startFrame).
Proof. intros st. split; [apply differOnlyIn_refl|done]. Qed.

(** The state just before the last patch of a run, and how the run ends
    from there. *)
Lemma handleCreateVeoVideo_outcome (svc : Services) (scene : VideoScene.t) (st : State)
    (allPrompts : Prompts.t) (startFrame : string) :
  VideoScene.prompts scene = Some allPrompts ->
  Prompts.veo allPrompts <> "" ->
  VideoScene.startFrame scene = Some startFrame ->
  startFrame <> "" ->
  let sceneId := VideoScene.id scene in
  exists st2,
    progressOnly sceneId
      (setScenes (patchById sceneId (patchStatusProgress pending "Initializing...")) st).2 st2
    /\ handleCreateVeoVideo svc scene st
       = match videoOutcome svc (Prompts.veo allPrompts) (Some startFrame) with
         | Ok videoUrl =>
             (Ok tt,
              (setScenes (patchById sceneId (patchDone videoUrl))
                 (addUsageRecord
                    (createVideoUsageRecord "Generate VEO Video" (VideoScene.duration scene))
                    st2).2).2)
         | Throw e =>
             (Ok tt,
              (setScenes (patchById sceneId
                            (patchStatusProgress error (messageOr e "Unknown error"))) st2).2)
         | Never => (Never, st2)
         end.
Proof.
  intros Hprompts Hveo Hstart Hframe sceneId.
  unfold handleCreateVeoVideo. rewrite Hprompts, Hstart. simpl.
  destruct (String.eqb_spec (Prompts.veo allPrompts) ""); [done|].
  destruct (String.eqb_spec startFrame ""); [done|]. simpl.
  unfold bind at 1, tryCatch. simpl. unfold bind at 1.
  set (callback := fun progress : string =>
         setScenes (patchById (VideoScene.id scene) (patchProgress progress))).
  assert (forall progress, alwaysReturns (callback progress)) as Hcb
    by (intros progress st0; by exists tt).
  match goal with |- context [generateVeoVideo ?a ?b ?c ?d ?e ?s] =>
    pose proof (generateVeoVideo_outcome a b c d e s Hcb) as Hout;
    pose proof (keeps_generateVeoVideo (progressOnly sceneId) a b c d e
                  (keeps_progress_patch sceneId)
                  (keeps_progress_submitJob sceneId a b d) s) as Hkeeps;
    destruct (generateVeoVideo a b c d e s) as [r st2] end.
  simpl in Hout, Hkeeps. subst r. exists st2. split; [exact Hkeeps|].
  by destruct (videoOutcome svc (Prompts.veo allPrompts) (Some startFrame)).
Qed.

(** The scene at an index before the last patch of a run: the scene that was
    there at the start, set pending, with some progress text. *)
Lemma scene_before_last_patch (sceneId : string) (st st2 : State) (k : nat)
    (s : VideoScene.t) :
  progressOnly sceneId
    (setScenes (patchById sceneId (patchStatusProgress pending "Initializing...")) st).2 st2 ->
  scenes st !! k = Some s -> VideoScene.id s = sceneId ->
  exists s2, scenes st2 !! k = Some s2
    /\ eraseProgress s2 = eraseProgress (patchStatusProgress pending "Initializing..." s).
Proof.
  intros (Hscenes & _) Hk Hid. simpl in Hscenes.
  destruct (differOnlyIn_lookup _ _ _ _ k (patchStatusProgress pending "Initializing..." s)
              Hscenes) as (s2 & Hk2 & Hs2).
  { rewrite patchById_lookup, Hk. simpl. by rewrite Hid, String.eqb_refl. }
  simpl in Hs2. rewrite Hid, String.eqb_refl in Hs2. eauto.
Qed.

Lemma keeps_video_patch (sceneId : string) (patch : VideoScene.t -> VideoScene.t) :
  (forall s, eraseVideo (patch s) = eraseVideo s) ->
  keeps (videoOnly sceneId) (setScenes (patchById sceneId patch)).
Proof. intros Hp st. split; [|done]. by apply differOnlyIn_patch. Qed.

Lemma keeps_video_same {A} (sceneId : string) (m : M A) :
  (forall st, scenes (m st).2 = scenes st /\ alerts (m st).2 = alerts st) ->
  keeps (videoOnly sceneId) m.
Proof. intros H st. destruct (H st) as [Hs Ha]. split; [rewrite Hs; apply differOnlyIn_refl|done]. Qed.

(** X8. A video run, however it ends, changes nothing in the storyboard but the
    status, the progress text and the video URL of the scenes with the id of
    the scene it was started for, and raises no alert. *)
Theorem video_run_changes_only_video_fields (svc : Services) (scene : VideoScene.t)
    (st : State) :
  let out := handleCreateVeoVideo svc scene st in
  alerts out.2 = alerts st
  /\ length (scenes out.2) = length (scenes st)
  /\ forall k s, scenes st !! k = Some s ->
       exists s', scenes out.2 !! k = Some s'
         /\ (VideoScene.id s <> VideoScene.id scene -> s' = s)
         /\ eraseVideo s' = eraseVideo s.
Proof.
  assert (keeps (videoOnly (VideoScene.id scene)) (handleCreateVeoVideo svc scene)) as Hkeeps.
  { unfold handleCreateVeoVideo.
    destruct (Prompts.veo <$> VideoScene.prompts scene) as [veoPrompt|];
      [|by apply keeps_ret; apply _].
    destruct (VideoScene.startFrame scene) as [startFrame|]; [|by apply keeps_ret; apply _].
    destruct (_ || _); [by apply keeps_ret; apply _|].
    apply keeps_bind; [apply _|by apply keeps_video_patch|intros _].
    apply keeps_tryCatch; [apply _| |intros e; by apply keeps_video_patch].
    apply keeps_bind; [apply _| |intros [videoUrl usage]].
    - apply keeps_generateVeoVideo; [apply _| |by apply keeps_video_same].
      intros progress. by apply keeps_video_patch.
    - apply keeps_bind; [apply _|by apply keeps_video_same|intros _].
      by apply keeps_video_patch. }
  intros out. destruct (Hkeeps st) as [Hscenes Halerts]. fold out in Hscenes, Halerts.
  split; [done|]. split; [symmetry; by eapply Forall2_length|].
  intros k s Hk. destruct (differOnlyIn_lookup _ _ _ _ k s Hscenes Hk) as (s' & Hk' & Hs).
  exists s'. split; [done|].
  destruct (String.eqb_spec (VideoScene.id s) (VideoScene.id scene)); subst; by split.
Qed.

(** The three ways a run can end, for the scene at one index. *)
Lemma video_run_ends (svc : Services) (scene : VideoScene.t) (st : State)
    (allPrompts : Prompts.t) (startFrame : string) (k : nat) (s : VideoScene.t) :
  VideoScene.prompts scene = Some allPrompts ->
  Prompts.veo allPrompts <> "" ->
  VideoScene.startFrame scene = Some startFrame ->
  startFrame <> "" ->
  scenes st !! k = Some s ->
  VideoScene.id s = VideoScene.id scene ->
  let out := handleCreateVeoVideo svc scene st in
  exists s',
    scenes out.2 !! k = Some s'
    /\ match videoOutcome svc (Prompts.veo allPrompts) (Some startFrame) with
       | Ok videoUrl =>
           out.1 = Ok tt
           /\ usageRecords out.2
              = usageRecords st
                ++ [createVideoUsageRecord "Generate VEO Video" (VideoScene.duration scene)]
           /\ VideoScene.videoGenerationStatus s' = done
           /\ VideoScene.generatedVideoUrl s' = Some videoUrl
       | Throw e =>
           out.1 = Ok tt
           /\ usageRecords out.2 = usageRecords st
           /\ VideoScene.videoGenerationStatus s' = error
           /\ VideoScene.videoGenerationProgress s' = Some (messageOr e "Unknown error")
           /\ VideoScene.generatedVideoUrl s' = VideoScene.generatedVideoUrl s
       | Never =>
           out.1 = Never
           /\ usageRecords out.2 = usageRecords st
           /\ VideoScene.videoGenerationStatus s' = pending
           /\ VideoScene.generatedVideoUrl s' = VideoScene.generatedVideoUrl s
       end.
Proof.
  intros Hprompts Hveo Hstart Hframe Hk Hid out.
  destruct (handleCreateVeoVideo_outcome svc scene st allPrompts startFrame
              Hprompts Hveo Hstart Hframe) as (st2 & Hrel & Hout).
  fold out in Hout.
  destruct (scene_before_last_patch _ _ _ k s Hrel Hk Hid) as (s2 & Hk2 & Hs2).
  destruct Hrel as (_ & Husage & _). simpl in Husage.
  assert (VideoScene.id s2 = VideoScene.id scene) as Hid2.
  { apply (f_equal VideoScene.id) in Hs2. simpl in Hs2. congruence. }
  assert (VideoScene.videoGenerationStatus s2 = pending) as Hst2
    by (by apply (f_equal VideoScene.videoGenerationStatus) in Hs2).
  assert (VideoScene.generatedVideoUrl s2 = VideoScene.generatedVideoUrl s) as Hurl2
    by (by apply (f_equal VideoScene.generatedVideoUrl) in Hs2).
  destruct (videoOutcome svc (Prompts.veo allPrompts) (Some startFrame)) as [videoUrl|e|];
    rewrite Hout; simpl.
  - exists (patchDone videoUrl s2). rewrite patchById_lookup, Hk2. simpl.
    rewrite Hid2, String.eqb_refl. by rewrite Husage.
  - exists (patchStatusProgress error (messageOr e "Unknown error") s2).
    rewrite patchById_lookup, Hk2. simpl. rewrite Hid2, String.eqb_refl. by rewrite Husage.
  - exists s2. by rewrite Husage.
Qed.

Lemma awaitJob_rejected (waiting : list Operation.t) :
  forall (submitted : Operation.t) (later : list (result Operation.t)) (thrown : exn),
    Operation.done submitted = false ->
    Forall (fun operation => Operation.done operation = false) waiting ->
    awaitJob submitted ((Ok <$> waiting) ++ Throw thrown :: later) = Throw thrown.
Proof.
  induction waiting as [|operation waiting IH]; intros submitted later thrown Hs Hw; simpl;
    rewrite Hs; [done|].
  apply Forall_cons in Hw as [Hop Hw]. by apply IH.
Qed.

Lemma videoOutcome_rejected (svc : Services) (prompt : string) (startFrame : option string)
    (thrown : exn) :
  submissionRejected svc prompt startFrame thrown
  \/ pollRejected svc prompt startFrame thrown
  \/ downloadRejected svc prompt startFrame thrown ->
  videoOutcome svc prompt startFrame = Throw thrown.
Proof.
  unfold videoOutcome, jobOutcome.
  intros [Hs|[(submitted & waiting & later & Hs & Hd & Hw & Hp)
             |(final & link & Hj & He & Hu & Hl & Hf)]].
  - unfold submissionRejected in Hs. by rewrite Hs.
  - rewrite Hs, Hp. by rewrite awaitJob_rejected.
  - unfold jobOutcome in Hj. rewrite Hj. unfold downloadOutcome. rewrite He, Hu. simpl.
    rewrite (proj2 (String.eqb_neq _ _) Hl). by rewrite Hf.
Qed.

Lemma videoOutcome_Ok (svc : Services) (prompt : string) (startFrame : option string)
    (videoUrl : string) :
  videoOutcome svc prompt startFrame = Ok videoUrl ->
  exists final link response,
    jobOutcome svc prompt startFrame = Ok final
    /\ Operation.error final = None
    /\ Operation.uri final = Some link
    /\ link <> ""
    /\ fetch svc (link +:+ "&key=" +:+ apiKey svc) = Ok response
    /\ FetchResponse.ok response = true
    /\ videoUrl = FetchResponse.objectURL response.
Proof.
  unfold videoOutcome. destruct (jobOutcome svc prompt startFrame) as [final| |];
    try discriminate.
  unfold downloadOutcome. destruct (Operation.error final) eqn:He; [discriminate|].
  destruct (Operation.uri final) as [link|] eqn:Hu; simpl; [|discriminate].
  destruct (String.eqb_spec link ""); [discriminate|].
  destruct (fetch svc _) as [response| |] eqn:Hf; try discriminate.
  destruct (FetchResponse.ok response) eqn:Hok; [|discriminate].
  intros [= <-]. exists final, link, response. repeat split; done.
Qed.

Lemma videoOutcome_settles (svc : Services) (prompt : string) (startFrame : option string) :
  settled (generateVideos svc prompt startFrame) ->
  scriptEnds (getVideosOperation svc) = true ->
  (forall url, settled (fetch svc url)) ->
  videoOutcome svc prompt startFrame <> Never.
Proof.
  intros Hs He Hf Hnever.
  assert (forall progress : string, alwaysReturns (fun st : State => (Ok tt, st))) as Hcb
    by (intros _ st; by exists tt).
  pose proof (generateVeoVideo_settles svc prompt (fun _ st => (Ok tt, st)) startFrame 0
                initialState Hcb Hs He Hf) as Hsettles.
  rewrite (generateVeoVideo_outcome svc prompt _ startFrame 0 initialState Hcb) in Hsettles.
  by rewrite Hnever in Hsettles.
Qed.

(** C3. For a scene with a veo prompt and a start frame, a video run never
    throws to its caller. When it returns, every scene of the storyboard
    with the id of the scene is either done, and then the job ended without
    error with a download link, the download was answered ok, and the video
    URL of the scene is the object URL of the downloaded video; or in error,
    and then the run failed and the progress text of the scene is the
    message of that failure; so it is not pending. A rejected submission, a
    rejected poll and a rejected download each make the run return with the
    scene in error and the message of the rejection as progress text. And
    the run does return whenever the service answers the submission, the
    polls up to a final one, and the download. *)
Theorem C3_run_returns_settled
    (svc : Services) (scene : VideoScene.t) (st : State)
    (allPrompts : Prompts.t) (startFrame : string) :
  VideoScene.prompts scene = Some allPrompts ->
  Prompts.veo allPrompts <> "" ->
  VideoScene.startFrame scene = Some startFrame ->
  startFrame <> "" ->
  let out := handleCreateVeoVideo svc scene st in
  let veoPrompt := Prompts.veo allPrompts in
  (forall e, out.1 <> Throw e)
  /\ (out.1 = Ok tt ->
      forall k s, scenes st !! k = Some s -> VideoScene.id s = VideoScene.id scene ->
        exists s', scenes out.2 !! k = Some s'
          /\ VideoScene.id s' = VideoScene.id scene
          /\ VideoScene.videoGenerationStatus s' <> pending
          /\ ((VideoScene.videoGenerationStatus s' = done
               /\ exists final link response,
                    jobOutcome svc veoPrompt (Some startFrame) = Ok final
                    /\ Operation.error final = None
                    /\ Operation.uri final = Some link
                    /\ fetch svc (link +:+ "&key=" +:+ apiKey svc) = Ok response
                    /\ FetchResponse.ok response = true
                    /\ VideoScene.generatedVideoUrl s'
                       = Some (FetchResponse.objectURL response))
              \/ (VideoScene.videoGenerationStatus s' = error
                  /\ exists thrown,
                       videoOutcome svc veoPrompt (Some startFrame) = Throw thrown
                       /\ VideoScene.videoGenerationProgress s'
                          = Some (messageOr thrown "Unknown error"))))
  /\ (forall thrown,
        submissionRejected svc veoPrompt (Some startFrame) thrown
        \/ pollRejected svc veoPrompt (Some startFrame) thrown
        \/ downloadRejected svc veoPrompt (Some startFrame) thrown ->
        out.1 = Ok tt
        /\ forall k s, scenes st !! k = Some s -> VideoScene.id s = VideoScene.id scene ->
             exists s', scenes out.2 !! k = Some s'
               /\ VideoScene.videoGenerationStatus s' = error
               /\ VideoScene.videoGenerationProgress s'
                  = Some (messageOr thrown "Unknown error"))
  /\ (settled (generateVideos svc veoPrompt (Some startFrame)) ->
      scriptEnds (getVideosOperation svc) = true ->
      (forall url, settled (fetch svc url)) ->
      out.1 = Ok tt).
Proof.
  intros Hprompts Hveo Hstart Hframe out veoPrompt.
  destruct (handleCreateVeoVideo_outcome svc scene st allPrompts startFrame
              Hprompts Hveo Hstart Hframe) as (st2 & _ & Hout).
  fold out veoPrompt in Hout.
  assert (out.1 = match videoOutcome svc veoPrompt (Some startFrame) with
                  | Never => Never
                  | _ => Ok tt
                  end) as Hresult.
  { rewrite Hout. by destruct (videoOutcome svc veoPrompt (Some startFrame)). }
  clear st2 Hout.
  assert (forall k s, scenes st !! k = Some s -> VideoScene.id s = VideoScene.id scene ->
            exists s', scenes out.2 !! k = Some s'
              /\ VideoScene.id s' = VideoScene.id scene
              /\ match videoOutcome svc veoPrompt (Some startFrame) with
                 | Ok videoUrl =>
                     VideoScene.videoGenerationStatus s' = done
                     /\ VideoScene.generatedVideoUrl s' = Some videoUrl
                 | Throw e =>
                     VideoScene.videoGenerationStatus s' = error
                     /\ VideoScene.videoGenerationProgress s'
                        = Some (messageOr e "Unknown error")
                 | Never => True
                 end) as Hends.
  { intros k s Hk Hid.
    destruct (video_run_ends svc scene st allPrompts startFrame k s
                Hprompts Hveo Hstart Hframe Hk Hid) as (s' & Hk' & Hs').
    fold out veoPrompt in Hk', Hs'.
    destruct (stepsIn_handleCreateVeoVideo svc scene st) as [Hids _].
    destruct (sameIds_lookup _ _ k s Hids Hk) as (s'' & Hk'' & Hid'').
    fold out in Hk''. rewrite Hk' in Hk''. injection Hk'' as <-.
    exists s'. split; [done|]. split; [congruence|].
    destruct (videoOutcome svc veoPrompt (Some startFrame));
      [by destruct Hs' as (_ & _ & ? & ?)|by destruct Hs' as (_ & _ & ? & ? & _)|done]. }
  split; [|split; [|split]].
  - intros e. rewrite Hresult. by destruct (videoOutcome svc veoPrompt (Some startFrame)).
  - intros Hr k s Hk Hid. destruct (Hends k s Hk Hid) as (s' & Hk' & Hid' & Hs').
    exists s'. split; [done|]. split; [done|].
    destruct (videoOutcome svc veoPrompt (Some startFrame)) as [videoUrl|thrown|] eqn:Hv.
    + destruct Hs' as [Hst Hurl]. split; [by rewrite Hst|]. left. split; [done|].
      destruct (videoOutcome_Ok _ _ _ _ Hv)
        as (final & link & response & ? & ? & ? & _ & ? & ? & ->).
      by exists final, link, response.
    + destruct Hs' as [Hst Hp]. split; [by rewrite Hst|]. right. split; [done|].
      by exists thrown.
    + rewrite Hr in Hresult. discriminate.
  - intros thrown Hrejected. apply videoOutcome_rejected in Hrejected.
    rewrite Hrejected in Hresult. split; [done|].
    intros k s Hk Hid. destruct (Hends k s Hk Hid) as (s' & Hk' & _ & Hs').
    rewrite Hrejected in Hs'. destruct Hs'. by exists s'.
  - intros Hs He Hf. rewrite Hresult.
    pose proof (videoOutcome_settles svc veoPrompt (Some startFrame) Hs He Hf).
    by destruct (videoOutcome svc veoPrompt (Some startFrame)).
Qed.

Lemma C3_witness :
  let out := handleCreateVeoVideo (happyServices panels2 pollsD) sceneA
               (stateWith storyboard2) in
  let ko := handleCreateVeoVideo
              (videoServices (Throw (JsError "quota exceeded")) [] Never) sceneA
              (stateWith storyboard2) in
  out.1 = Ok tt
  /\ (exists s', scenes out.2 !! 0 = Some s'
        /\ VideoScene.videoGenerationStatus s' <> pending)
  /\ ko.1 = Ok tt
  /\ exists s', scenes ko.2 !! 0 = Some s'
       /\ VideoScene.videoGenerationStatus s' = error
       /\ VideoScene.videoGenerationProgress s' = Some "quota exceeded".
Proof.
  destruct (C3_run_returns_settled (happyServices panels2 pollsD) sceneA
              (stateWith storyboard2) promptsA "data:image/png;base64,S0"
              eq_refl ltac:(discriminate) eq_refl ltac:(discriminate))
    as (_ & Hsettled & _ & Hreturns).
  destruct (C3_run_returns_settled
              (videoServices (Throw (JsError "quota exceeded")) [] Never) sceneA
              (stateWith storyboard2) promptsA "data:image/png;base64,S0"
              eq_refl ltac:(discriminate) eq_refl ltac:(discriminate))
    as (_ & _ & Hrejected & _).
  assert ((handleCreateVeoVideo (happyServices panels2 pollsD) sceneA
             (stateWith storyboard2)).1 = Ok tt) as Hr.
  { apply Hreturns; [discriminate|reflexivity|intros url; discriminate]. }
  split; [exact Hr|]. split.
  - destruct (Hsettled Hr 0 sceneA eq_refl eq_refl) as (s' & Hk & _ & Hnp & _).
    exists s'. split; [exact Hk|exact Hnp].
  - destruct (Hrejected (JsError "quota exceeded") (or_introl eq_refl)) as (Hko & Hscene).
    split; [exact Hko|].
    destruct (Hscene 0 sceneA eq_refl eq_refl) as (s' & Hk & Hst & Hp).
    exists s'. split; [exact Hk|]. split; [exact Hst|exact Hp].
Defined.

(** X9. When the service fails a run in any way (a rejected submission, poll or
    download, a job that reports an error, a finished job without a usable
    video), the run still returns normally; the scene is in error with the
    message of the failure as its progress text ("Unknown error" for a
    thrown value that is not an Error), it keeps the video URL it had, and
    no usage is recorded. *)
Theorem video_run_failure_is_reported (svc : Services) (scene : VideoScene.t) (st : State)
    (allPrompts : Prompts.t) (startFrame : string) (k : nat) (s : VideoScene.t) (e : exn) :
  VideoScene.prompts scene = Some allPrompts ->
  Prompts.veo allPrompts <> "" ->
  VideoScene.startFrame scene = Some startFrame ->
  startFrame <> "" ->
  scenes st !! k = Some s ->
  VideoScene.id s = VideoScene.id scene ->
  videoOutcome svc (Prompts.veo allPrompts) (Some startFrame) = Throw e ->
  let out := handleCreateVeoVideo svc scene st in
  out.1 = Ok tt
  /\ usageRecords out.2 = usageRecords st
  /\ exists s', scenes out.2 !! k = Some s'
       /\ VideoScene.videoGenerationStatus s' = error
       /\ VideoScene.videoGenerationProgress s' = Some (messageOr e "Unknown error")
       /\ VideoScene.generatedVideoUrl s' = VideoScene.generatedVideoUrl s.
Proof.
  intros Hprompts Hveo Hstart Hframe Hk Hid Hout out.
  destruct (video_run_ends svc scene st allPrompts startFrame k s
              Hprompts Hveo Hstart Hframe Hk Hid) as (s' & Hk' & Hends).
  rewrite Hout in Hends. destruct Hends as (? & ? & ? & ? & ?). eauto 10.
Qed.

Lemma video_run_failure_is_reported_witness :
  let out := handleCreateVeoVideo (videoServices (Throw JsOther) [] Never) sceneA
               (stateWith storyboard2) in
  out.1 = Ok tt
  /\ exists s', scenes out.2 !! 0 = Some s'
       /\ VideoScene.videoGenerationStatus s' = error
       /\ VideoScene.videoGenerationProgress s' = Some "Unknown error".
Proof.
  destruct (video_run_failure_is_reported (videoServices (Throw JsOther) [] Never) sceneA
              (stateWith storyboard2) promptsA "data:image/png;base64,S0" 0 sceneA JsOther
              eq_refl ltac:(discriminate) eq_refl ltac:(discriminate) eq_refl eq_refl eq_refl)
    as (Hr & _ & s' & Hk & Hs & Hp & _).
  split; [exact Hr|]. exists s'. split; [exact Hk|]. split; [exact Hs|exact Hp].
Defined.

(** X10. When the job ends without error and with a download link, and the
    download succeeds, the scene is done with the object URL of the
    downloaded video, and exactly one usage record is added, which counts
    the duration of the scene in video seconds. This holds for any number of
    polls. *)
Theorem video_run_success (svc : Services) (scene : VideoScene.t) (st : State)
    (allPrompts : Prompts.t) (startFrame : string) (k : nat) (s : VideoScene.t)
    (final : Operation.t) (link : string) (response : FetchResponse.t) :
  VideoScene.prompts scene = Some allPrompts ->
  Prompts.veo allPrompts <> "" ->
  VideoScene.startFrame scene = Some startFrame ->
  startFrame <> "" ->
  scenes st !! k = Some s ->
  VideoScene.id s = VideoScene.id scene ->
  jobOutcome svc (Prompts.veo allPrompts) (Some startFrame) = Ok final ->
  Operation.error final = None ->
  Operation.uri final = Some link ->
  link <> "" ->
  fetch svc (link +:+ "&key=" +:+ apiKey svc) = Ok response ->
  FetchResponse.ok response = true ->
  let out := handleCreateVeoVideo svc scene st in
  out.1 = Ok tt
  /\ usageRecords out.2
     = usageRecords st
       ++ [UsageRecord.mk "Generate VEO Video" None None (Some (VideoScene.duration scene)) 0]
  /\ exists s', scenes out.2 !! k = Some s'
       /\ VideoScene.videoGenerationStatus s' = done
       /\ VideoScene.generatedVideoUrl s' = Some (FetchResponse.objectURL response).
Proof.
  intros Hprompts Hveo Hstart Hframe Hk Hid Hjob Herror Huri Hlink Hfetch Hok out.
  destruct (video_run_ends svc scene st allPrompts startFrame k s
              Hprompts Hveo Hstart Hframe Hk Hid) as (s' & Hk' & Hends).
  unfold videoOutcome, downloadOutcome in Hends.
  rewrite Hjob, Herror, Huri in Hends. simpl in Hends.
  destruct (String.eqb_spec link ""); [done|]. rewrite Hfetch, Hok in Hends.
  destruct Hends as (? & ? & ? & ?). eauto 10.
Qed.

Lemma video_run_success_witness :
  let out := handleCreateVeoVideo (happyServices panels2 pollsD) sceneA
               (stateWith storyboard2) in
  usageRecords out.2 = [UsageRecord.mk "Generate VEO Video" None None (Some 3%Z) 0].
Proof.
  destruct (video_run_success (happyServices panels2 pollsD) sceneA
              (stateWith storyboard2) promptsA "data:image/png;base64,S0" 0 sceneA
              (doneOperation "https://video/X?alt=media") "https://video/X?alt=media"
              (FetchResponse.mk true "OK" "blob:https://video/X?alt=media&key=KEY")
              eq_refl ltac:(discriminate) eq_refl ltac:(discriminate) eq_refl eq_refl
              eq_refl eq_refl eq_refl ltac:(discriminate) eq_refl eq_refl)
    as (_ & Hu & _).
  exact Hu.
Defined.

(** X11. A run does not return exactly when the service leaves it without answer
    (the submission, a poll before the job is done, or the download); the
    scene then stays pending, with the video URL it had, and no usage is
    recorded. *)
Theorem video_run_waiting_is_pending (svc : Services) (scene : VideoScene.t) (st : State)
    (allPrompts : Prompts.t) (startFrame : string) (k : nat) (s : VideoScene.t) :
  VideoScene.prompts scene = Some allPrompts ->
  Prompts.veo allPrompts <> "" ->
  VideoScene.startFrame scene = Some startFrame ->
  startFrame <> "" ->
  scenes st !! k = Some s ->
  VideoScene.id s = VideoScene.id scene ->
  let out := handleCreateVeoVideo svc scene st in
  (out.1 = Never <-> videoOutcome svc (Prompts.veo allPrompts) (Some startFrame) = Never)
  /\ (out.1 = Never ->
      usageRecords out.2 = usageRecords st
      /\ exists s', scenes out.2 !! k = Some s'
           /\ VideoScene.videoGenerationStatus s' = pending
           /\ VideoScene.generatedVideoUrl s' = VideoScene.generatedVideoUrl s).
Proof.
  intros Hprompts Hveo Hstart Hframe Hk Hid out.
  destruct (video_run_ends svc scene st allPrompts startFrame k s
              Hprompts Hveo Hstart Hframe Hk Hid) as (s' & Hk' & Hends).
  fold out in Hk', Hends.
  destruct (videoOutcome svc (Prompts.veo allPrompts) (Some startFrame)) as [videoUrl|e|].
  - destruct Hends as (Hr & _). rewrite Hr. split; [split; discriminate|discriminate].
  - destruct Hends as (Hr & _). rewrite Hr. split; [split; discriminate|discriminate].
  - destruct Hends as (Hr & ? & ? & ?). split; [done|]. intros _. eauto 10.
Qed.

Lemma video_run_waiting_is_pending_witness :
  let out := handleCreateVeoVideo
               (videoServices (Ok pendingOperation) [Ok pendingOperation] Never) sceneA
               (stateWith storyboard2) in
  out.1 = Never
  /\ exists s', scenes out.2 !! 0 = Some s'
       /\ VideoScene.videoGenerationStatus s' = pending.
Proof.
  destruct (video_run_waiting_is_pending
              (videoServices (Ok pendingOperation) [Ok pendingOperation] Never) sceneA
              (stateWith storyboard2) promptsA "data:image/png;base64,S0" 0 sceneA
              eq_refl ltac:(discriminate) eq_refl ltac:(discriminate) eq_refl eq_refl)
    as (Hiff & Hpending).
  assert ((handleCreateVeoVideo
             (videoServices (Ok pendingOperation) [Ok pendingOperation] Never) sceneA
             (stateWith storyboard2)).1 = Never) as Hr by (apply Hiff; reflexivity).
  split; [exact Hr|]. destruct (Hpending Hr) as (_ & s' & Hk & Hs & _).
  exists s'. split; [exact Hk|exact Hs].
Defined.

(** X12. When the job ends with an error, the scene shows "Video generation
    failed: " followed by the message of the job, whether or not the job also
    carries a download link and whatever the download would answer. *)
Theorem job_error_is_shown (svc : Services) (scene : VideoScene.t) (st : State)
    (allPrompts : Prompts.t) (startFrame : string) (k : nat) (s : VideoScene.t)
    (final : Operation.t) (message : string) :
  VideoScene.prompts scene = Some allPrompts ->
  Prompts.veo allPrompts <> "" ->
  VideoScene.startFrame scene = Some startFrame ->
  startFrame <> "" ->
  scenes st !! k = Some s ->
  VideoScene.id s = VideoScene.id scene ->
  jobOutcome svc (Prompts.veo allPrompts) (Some startFrame) = Ok final ->
  Operation.error final = Some message ->
  let out := handleCreateVeoVideo svc scene st in
  out.1 = Ok tt
  /\ exists s', scenes out.2 !! k = Some s'
       /\ VideoScene.videoGenerationStatus s' = error
       /\ VideoScene.videoGenerationProgress s'
          = Some ("Video generation failed: " +:+ message)
       /\ VideoScene.generatedVideoUrl s' = VideoScene.generatedVideoUrl s.
Proof.
  intros Hprompts Hveo Hstart Hframe Hk Hid Hjob Herror out.
  destruct (video_run_ends svc scene st allPrompts startFrame k s
              Hprompts Hveo Hstart Hframe Hk Hid) as (s' & Hk' & Hends).
  unfold videoOutcome, downloadOutcome in Hends. rewrite Hjob, Herror in Hends.
  destruct Hends as (? & ? & ? & ? & ?). eauto 10.
Qed.

Lemma job_error_is_shown_witness :
  let out := handleCreateVeoVideo
               (videoServices (Ok pendingOperation)
                  [Ok (failedOperation "quota exceeded")]
                  (Ok (FetchResponse.mk true "OK" "blob:v")))
               sceneA (stateWith storyboard2) in
  exists s', scenes out.2 !! 0 = Some s'
    /\ VideoScene.videoGenerationProgress s'
       = Some "Video generation failed: quota exceeded".
Proof.
  destruct (job_error_is_shown
              (videoServices (Ok pendingOperation) [Ok (failedOperation "quota exceeded")]
                 (Ok (FetchResponse.mk true "OK" "blob:v")))
              sceneA (stateWith storyboard2) promptsA "data:image/png;base64,S0" 0 sceneA
              (failedOperation "quota exceeded") "quota exceeded"
              eq_refl ltac:(discriminate) eq_refl ltac:(discriminate) eq_refl eq_refl
              eq_refl eq_refl)
    as (_ & s' & Hk & _ & Hp & _).
  exists s'. split; [exact Hk|exact Hp].
Defined.

(** X13. When the job ends without error but the video cannot be had, the scene
    is in error: with "Video generation completed, but no download link was
    provided." when the link is missing or empty, and with "Failed to
    download video: " followed by the status text when the download is
    answered with a status that is not ok. *)
Theorem finished_job_without_video (svc : Services) (scene : VideoScene.t) (st : State)
    (allPrompts : Prompts.t) (startFrame : string) (k : nat) (s : VideoScene.t)
    (final : Operation.t) :
  VideoScene.prompts scene = Some allPrompts ->
  Prompts.veo allPrompts <> "" ->
  VideoScene.startFrame scene = Some startFrame ->
  startFrame <> "" ->
  scenes st !! k = Some s ->
  VideoScene.id s = VideoScene.id scene ->
  jobOutcome svc (Prompts.veo allPrompts) (Some startFrame) = Ok final ->
  Operation.error final = None ->
  let out := handleCreateVeoVideo svc scene st in
  (falsy (Operation.uri final) = true ->
   out.1 = Ok tt
   /\ exists s', scenes out.2 !! k = Some s'
        /\ VideoScene.videoGenerationStatus s' = error
        /\ VideoScene.videoGenerationProgress s'
           = Some "Video generation completed, but no download link was provided.")
  /\ (forall link response,
        Operation.uri final = Some link -> link <> "" ->
        fetch svc (link +:+ "&key=" +:+ apiKey svc) = Ok response ->
        FetchResponse.ok response = false ->
        out.1 = Ok tt
        /\ exists s', scenes out.2 !! k = Some s'
             /\ VideoScene.videoGenerationStatus s' = error
             /\ VideoScene.videoGenerationProgress s'
                = Some ("Failed to download video: " +:+ FetchResponse.statusText response)).
Proof.
  intros Hprompts Hveo Hstart Hframe Hk Hid Hjob Herror out.
  destruct (video_run_ends svc scene st allPrompts startFrame k s
              Hprompts Hveo Hstart Hframe Hk Hid) as (s' & Hk' & Hends).
  unfold videoOutcome, downloadOutcome in Hends. rewrite Hjob, Herror in Hends.
  fold out in Hk', Hends. split.
  - intros Hfalsy. rewrite Hfalsy in Hends. destruct Hends as (? & ? & ? & ? & ?). eauto 10.
  - intros link response Huri Hlink Hfetch Hok. rewrite Huri in Hends. simpl in Hends.
    destruct (String.eqb_spec link ""); [done|]. rewrite Hfetch, Hok in Hends.
    destruct Hends as (? & ? & ? & ? & ?). eauto 10.
Qed.

Lemma finished_job_without_video_witness :
  let out := handleCreateVeoVideo
               (videoServices (Ok pendingOperation)
                  [Ok (doneOperation "https://video/X?alt=media")]
                  (Ok (FetchResponse.mk false "Forbidden" "")))
               sceneA (stateWith storyboard2) in
  exists s', scenes out.2 !! 0 = Some s'
    /\ VideoScene.videoGenerationProgress s' = Some "Failed to download video: Forbidden".
Proof.
  destruct (finished_job_without_video
              (videoServices (Ok pendingOperation)
                 [Ok (doneOperation "https://video/X?alt=media")]
                 (Ok (FetchResponse.mk false "Forbidden" "")))
              sceneA (stateWith storyboard2) promptsA "data:image/png;base64,S0" 0 sceneA
              (doneOperation "https://video/X?alt=media")
              eq_refl ltac:(discriminate) eq_refl ltac:(discriminate) eq_refl eq_refl
              eq_refl eq_refl)
    as (_ & Hdownload).
  destruct (Hdownload "https://video/X?alt=media" (FetchResponse.mk false "Forbidden" "")
              eq_refl ltac:(discriminate) eq_refl eq_refl)
    as (_ & s' & Hk & _ & Hp).
  exists s'. split; [exact Hk|exact Hp].
Defined.

(** ** A build that succeeds *)

Global Instance sameControls_preorder : PreOrder sameControls.
Proof.
  split; [by intros st|].
  intros s1 s2 s3 (?&?&?&?&?&?&?&?) (?&?&?&?&?&?&?&?). repeat split; congruence.
Qed.

Lemma append_nonempty (c : ascii) (s t : string) : String c s +:+ t <> "".
Proof. change (String c s +:+ t) with (String c (s +:+ t)). discriminate. Qed.

Lemma synthesizeFrames_usage (svc : Services) (pagesToImport : list Page.t) (i : nat)
    (panel : InitialSceneData.t) (startFrame endFrame : string) :
  synthesizeFrames svc pagesToImport i panel = Ok (startFrame, endFrame) ->
  generateVideoFrame svc i (InitialSceneData.sceneDescription panel)
    (pageAt pagesToImport (InitialSceneData.sourcePageIndex panel))
  = Ok (startFrame, createImageUsageRecord "Generate Video Frame" 1)
  /\ generateWebtoonEndFrame svc i startFrame (InitialSceneData.narrative panel)
       (InitialSceneData.duration panel)
     = Ok (endFrame, createImageUsageRecord "Generate End Frame" 1)
  /\ startFrame <> "" /\ endFrame <> "".
Proof.
  unfold synthesizeFrames, generateVideoFrame, generateWebtoonEndFrame, imageOrThrow.
  intros H. destruct (pageAt _ _) as [img|]; [|discriminate].
  destruct (ai_startFrame svc i _ img) as [[m d|t|]| |]; try discriminate;
    [|destruct (String.eqb t ""); discriminate].
  destruct (ai_endFrame svc i _ _ _) as [[m' d'|t'|]| |] eqn:E2; try discriminate;
    [|destruct (String.eqb t' ""); discriminate].
  injection H as <- <-. rewrite E2.
  repeat split; apply (append_nonempty "d"%char "ata:").
Qed.

Lemma processScene_Ok_state (svc : Services) (characters : list Character.t)
    (pagesToImport : list Page.t) (i : nat) (panel : InitialSceneData.t)
    (placeholder : VideoScene.t) (startFrame endFrame : string) (st : State) :
  synthesizeFrames svc pagesToImport i panel = Ok (startFrame, endFrame) ->
  let out := processScene svc characters pagesToImport i panel placeholder st in
  out.1 = Ok tt
  /\ scenes out.2
     = patchById (VideoScene.id placeholder)
         (patchFrames startFrame endFrame (generateAllModelPrompts panel characters))
         (scenes st)
  /\ usageRecords out.2 = usageRecords st ++ frameUsage
  /\ length (published out.2) = S (length (published st))
  /\ sameControls st out.2.
Proof.
  intros H. destruct (synthesizeFrames_usage _ _ _ _ _ _ H) as (H1 & H2 & _).
  unfold processScene, bind, await. rewrite H1. simpl. rewrite H2. simpl.
  rewrite <- app_assoc, length_app. simpl. repeat split; try done. lia.
Qed.

(** The loop, when the frames of every scene are synthesized: scene after
    scene is populated in its own place. *)
Lemma forEachScene_all_Ok (svc : Services) (characters : list Character.t)
    (pagesToImport : list Page.t) (frames : nat -> string * string)
    (data : list InitialSceneData.t) :
  forall (i0 : nat) (placeholders : list VideoScene.t) (st : State),
    length placeholders = length data ->
    NoDup (idsOf (scenes st)) ->
    (forall j ph, placeholders !! j = Some ph ->
       exists s, scenes st !! (i0 + j) = Some s /\ VideoScene.id s = VideoScene.id ph) ->
    (forall j panel, data !! j = Some panel ->
       synthesizeFrames svc pagesToImport (i0 + j) panel = Ok (frames (i0 + j))) ->
    let out := forEachScene (processScene svc characters pagesToImport) i0 data
                 placeholders st in
    out.1 = Ok tt
    /\ usageRecords out.2 = usageRecords st ++ (data ≫= fun _ => frameUsage)
    /\ length (published out.2) = length (published st) + length data
    /\ sameControls st out.2
    /\ forall k,
         scenes out.2 !! k
         = match data !! (k - i0) with
           | Some panel =>
               if bool_decide (i0 <= k) then populate characters frames k panel <$> scenes st !! k
               else scenes st !! k
           | None => scenes st !! k
           end.
Proof.
  induction data as [|panel data IH]; intros i0 [|ph phs] st Hlen Hnd Hph Hframes;
    try discriminate.
  { simpl. rewrite app_nil_r. repeat split; try done. }
  simpl. unfold bind.
  pose proof (Hframes 0 panel eq_refl) as Hf0. rewrite Nat.add_0_r in Hf0.
  destruct (frames i0) as [sf ef] eqn:Hfr.
  destruct (processScene_Ok_state svc characters pagesToImport i0 panel ph sf ef st Hf0)
    as (Hr & Hs & Hu & Hp & Hc).
  destruct (processScene _ _ _ _ _ _ _) as [r st1]. simpl in Hr, Hs, Hu, Hp, Hc. subst r.
  destruct (Hph 0 ph eq_refl) as (s0 & Hs0 & Hid0). rewrite Nat.add_0_r in Hs0.
  assert (idsOf (scenes st1) = idsOf (scenes st)) as Hids
    by (rewrite Hs; by apply patchById_ids).
  rewrite <- Hid0 in Hs.
  rewrite (patchById_alter _ _ i0 s0 Hnd Hs0) in Hs.
  destruct (IH (S i0) phs st1) as (Hr' & Hu' & Hp' & Hc' & Hk').
  - by injection Hlen.
  - by rewrite Hids.
  - intros j ph' Hj. destruct (Hph (S j) ph' Hj) as (s & Hsj & Hidj).
    exists s. split; [|done]. rewrite Hs, list_lookup_alter_ne by lia.
    by replace (S i0 + j) with (i0 + S j) by lia.
  - intros j p Hj. replace (S i0 + j) with (i0 + S j) by lia. by apply (Hframes (S j)).
  - split; [done|]. split; [by rewrite Hu', Hu, <- app_assoc|].
    split; [rewrite Hp', Hp; simpl; lia|]. split; [by etrans|].
    intros k. rewrite Hk', Hs.
    destruct (decide (k = i0)) as [->|Hne].
    + rewrite Nat.sub_diag. replace (i0 - S i0) with 0 by lia. simpl.
      rewrite (bool_decide_true (i0 <= i0)) by lia. rewrite list_lookup_alter_eq.
      destruct data as [|p1 data']; simpl.
      * unfold populate. by rewrite Hfr.
      * rewrite (bool_decide_false (S i0 <= i0)) by lia. unfold populate. by rewrite Hfr.
    + rewrite list_lookup_alter_ne by done.
      destruct (decide (i0 < k)) as [Hlt|Hge].
      * replace (k - i0) with (S (k - S i0)) by lia. simpl.
        destruct (data !! (k - S i0)); [|done].
        by rewrite (bool_decide_true (S i0 <= k)), (bool_decide_true (i0 <= k)) by lia.
      * replace (k - S i0) with 0 by lia. replace (k - i0) with 0 by lia. simpl.
        destruct data; simpl; [|rewrite (bool_decide_false (S i0 <= k)) by lia];
          by rewrite (bool_decide_false (i0 <= k)) by lia.
Qed.

(** X14. When decomposition succeeds and the frames of every scene are
    synthesized, the build returns normally with the spinner and the modal
    off and without alert; scene i of the storyboard is the placeholder of
    panel i with its two frames, its four prompts and [isLoading] false; the
    first scene, if there is one, is selected; the usage recorded is that of
    decomposition followed by one start-frame and one end-frame record per
    scene. (The clock assumption makes the ids distinct, so that each patch
    lands on its own scene.) *)
Theorem build_succeeds
    (svc : Services) (now : nat -> N) (characters : list Character.t)
    (pagesToImport : list Page.t) (st : State)
    (data : list InitialSceneData.t) (usage : UsageRecord.t)
    (frames : nat -> string * string) :
  pagesToImport <> [] ->
  steadyClock now ->
  generateStoryboardFromPages svc pagesToImport characters = Ok (data, usage) ->
  (forall i panel, data !! i = Some panel ->
     synthesizeFrames svc pagesToImport i panel = Ok (frames i)) ->
  let out := handleGenerateStoryboard svc now characters pagesToImport st in
  out.1 = Ok tt
  /\ isGenerating out.2 = false
  /\ showImportModal out.2 = false
  /\ importedPages out.2 = pagesToImport
  /\ alerts out.2 = alerts st
  /\ scenes out.2
     = imap (fun i panel => populate characters frames i panel (placeholderScene now i panel))
         data
  /\ selectedSceneId out.2 = VideoScene.id <$> placeholderScenes now data !! 0
  /\ usageRecords out.2 = usageRecords st ++ usage :: (data ≫= fun _ => frameUsage)
  /\ length (published out.2) = length (published st) + 2 + length data.
Proof.
  intros Hne Hclock Hgen Hframes out.
  assert (out = handleGenerateStoryboard svc now characters pagesToImport st) as Hout
    by reflexivity.
  clearbody out. unfold handleGenerateStoryboard in Hout.
  destruct pagesToImport as [|p0 pages]; [done|]. simpl Nat.eqb in Hout. cbv iota in Hout.
  unfold bind at 1 2 3 4 5, tryFinally, tryCatch in Hout. simpl in Hout.
  unfold bind at 1, await in Hout. rewrite Hgen in Hout. unfold bind at 1 in Hout.
  simpl in Hout. unfold buildScenes in Hout. unfold bind at 1 in Hout. simpl in Hout.
  unfold bind at 1 in Hout.
  match type of Hout with context [forEachScene ?b 0 data ?phs ?s] =>
    destruct (forEachScene_all_Ok svc characters (p0 :: pages) frames data 0 phs s)
      as (Hr & Hu & Hp & Hc & Hk);
      [apply length_imap
      |by apply placeholderScenes_NoDup
      |intros j ph Hj; by exists ph
      |exact Hframes
      |];
    destruct (forEachScene b 0 data phs s) as [r st'] end.
  simpl in Hr, Hu, Hp, Hc, Hk. subst r.
  destruct Hc as (Hc1 & Hc2 & Hc3 & Hc4 & Hc5 & Hc6 & Hc7 & Hc8). simpl in *.
  assert (scenes st'
          = imap (fun i panel => populate characters frames i panel (placeholderScene now i panel))
              data) as Hscenes.
  { apply list_eq. intros k. rewrite Hk, Nat.sub_0_r, list_lookup_imap, placeholderScenes_lookup.
    destruct (data !! k); simpl; done. }
  assert (length (published st') = length (published st) + 2 + length data) as Hlen.
  { rewrite Hp, !length_app. simpl. lia. }
  destruct data as [|panel0 data]; simpl in Hout; subst out; simpl;
    rewrite ?Hc1, ?Hc4, ?Hc7, Hu, <- ?app_assoc; simpl; done.
Qed.

Lemma build_succeeds_witness :
  let out := handleGenerateStoryboard (happyServices panels2 []) clock0 roster2 pages3
               initialState in
  out.1 = Ok tt
  /\ scenes out.2
     = imap (fun i panel =>
               populate roster2
                 (fun i => ("data:image/png;base64,S" +:+ pretty i,
                            "data:image/png;base64,E" +:+ pretty i))
                 i panel (placeholderScene clock0 i panel)) data2
  /\ length (usageRecords out.2) = 5.
Proof.
  destruct (build_succeeds (happyServices panels2 []) clock0 roster2 pages3 initialState
              data2 usage2
              (fun i => ("data:image/png;base64,S" +:+ pretty i,
                         "data:image/png;base64,E" +:+ pretty i))
              ltac:(discriminate) ltac:(left; intros i j _; unfold clock0; lia) eq_refl)
    as (Hr & _ & _ & _ & _ & Hs & _ & Hu & _).
  - intros [|[|i]] panel Hp; [by injection Hp as <-..|discriminate].
  - split; [exact Hr|]. split; [exact Hs|]. by rewrite Hu.
Defined.

(** ** How a build ends *)

Lemma keeps_controls (A : Type) (m : M A) :
  (forall st,
     showImportModal (m st).2 = showImportModal st
     /\ isGenerating (m st).2 = isGenerating st
     /\ selectedSceneId (m st).2 = selectedSceneId st
     /\ importedPages (m st).2 = importedPages st
     /\ regenState (m st).2 = regenState st
     /\ regeneratingFrame (m st).2 = regeneratingFrame st
     /\ alerts (m st).2 = alerts st
     /\ submittedJobs (m st).2 = submittedJobs st) ->
  keeps sameControls m.
Proof. intros H st. exact (H st). Qed.

Lemma keeps_controls_processScene (svc : Services) (characters : list Character.t)
    (pagesToImport : list Page.t) (i : nat) (panel : InitialSceneData.t)
    (placeholder : VideoScene.t) :
  keeps sameControls (processScene svc characters pagesToImport i panel placeholder).
Proof.
  unfold processScene.
  apply keeps_bind; [apply _|apply keeps_await; apply _|intros [startFrame u]].
  apply keeps_bind; [apply _|by apply keeps_controls|intros _].
  apply keeps_bind; [apply _|apply keeps_await; apply _|intros [endFrame u']].
  apply keeps_bind; [apply _|by apply keeps_controls|intros _].
  by apply keeps_controls.
Qed.

Lemma keeps_controls_forEachScene (svc : Services) (characters : list Character.t)
    (pagesToImport : list Page.t) (data : list InitialSceneData.t) :
  forall (i : nat) (placeholders : list VideoScene.t),
    keeps sameControls
      (forEachScene (processScene svc characters pagesToImport) i data placeholders).
Proof.
  induction data as [|panel data IH]; intros i [|ph phs]; simpl;
    try (apply keeps_ret; apply _).
  apply keeps_bind; [apply _|apply keeps_controls_processScene|intros _; apply IH].
Qed.

(** X15. A build never throws to its caller. Without pages it does nothing at
    all. With pages, the modal is closed and the pages are kept whatever
    happens; the spinner is off when the build returns and stays on when a
    request never settles; and at most one alert is raised, in which case
    the build has returned with an empty storyboard and nothing selected. *)
Theorem build_never_throws
    (svc : Services) (now : nat -> N) (characters : list Character.t)
    (pagesToImport : list Page.t) (st : State) :
  let out := handleGenerateStoryboard svc now characters pagesToImport st in
  (forall e, out.1 <> Throw e)
  /\ (pagesToImport = [] -> out = (Ok tt, st))
  /\ (pagesToImport <> [] ->
      showImportModal out.2 = false
      /\ importedPages out.2 = pagesToImport
      /\ isGenerating out.2 = (if out.1 is Never then true else false)
      /\ (alerts out.2 = alerts st
          \/ exists message,
               alerts out.2 = alerts st ++ ["Storyboard Generation Failed: " +:+ message]
               /\ out.1 = Ok tt /\ scenes out.2 = [] /\ selectedSceneId out.2 = None)).
Proof.
  intros out.
  assert (out = handleGenerateStoryboard svc now characters pagesToImport st) as Hout
    by reflexivity.
  clearbody out. unfold handleGenerateStoryboard in Hout.
  destruct pagesToImport as [|p0 pages].
  { simpl in Hout. subst out. by repeat split. }
  simpl Nat.eqb in Hout. cbv iota in Hout.
  unfold bind at 1 2 3 4 5, tryFinally, tryCatch in Hout. simpl in Hout.
  unfold bind at 1, await in Hout.
  destruct (generateStoryboardFromPages svc (p0 :: pages) characters) as [[data usage]|e|];
    simpl in Hout.
  - unfold bind at 1 in Hout. simpl in Hout. unfold buildScenes in Hout.
    unfold bind at 1 in Hout. simpl in Hout. unfold bind at 1 in Hout.
    match type of Hout with context [forEachScene ?b 0 data ?phs ?s] =>
      pose proof (keeps_controls_forEachScene svc characters (p0 :: pages) data 0 phs s)
        as Hc;
      destruct (forEachScene b 0 data phs s) as [[[]|e|] st'] end;
      destruct Hc as (Hc1 & Hc2 & Hc3 & Hc4 & Hc5 & Hc6 & Hc7 & Hc8); simpl in *.
    + destruct data as [|panel0 data]; simpl in Hout; subst out; simpl;
        (split; [done|]); (split; [done|]); intros _; by repeat split; auto.
    + subst out. simpl. split; [done|]. split; [done|]. intros _.
      repeat split; try done. right. exists (messageOr e "Unknown Error").
      by rewrite Hc7.
    + subst out. simpl. split; [done|]. split; [done|]. intros _.
      repeat split; try done. by left.
  - subst out. simpl. split; [done|]. split; [done|]. intros _.
    repeat split; try done. right. by exists (messageOr e "Unknown Error").
  - subst out. simpl. split; [done|]. split; [done|]. intros _.
    repeat split; try done. by left.
Qed.

(** ** The bookkeeping of a frame regeneration *)

(** X16. A regeneration request never throws to its caller and never touches
    the build switches, the imported pages or the selection. It does nothing
    at all when no scene has the id or when the first scene with the id has
    no such frame. When that scene has the frame, the edit dialog is closed,
    and then: if the service delivers a new frame, the handler returns with
    the busy mark cleared, one usage record "Regenerate Frame" for one
    image added, the new storyboard published once and no alert; if the
    service fails, it returns with the busy mark cleared, no usage added
    and nothing published; if the service never answers, it does not
    return, the busy mark stays on the requested frame, and nothing else has
    changed. *)
Theorem regenerate_bookkeeping
    (svc : Services) (sceneId : string) (frameType : FrameType) (editPrompt : string)
    (st : State) :
  let out := handleRegenerateFrame svc sceneId frameType editPrompt st in
  (forall e, out.1 <> Throw e)
  /\ isGenerating out.2 = isGenerating st
  /\ showImportModal out.2 = showImportModal st
  /\ importedPages out.2 = importedPages st
  /\ selectedSceneId out.2 = selectedSceneId st
  /\ ((forall s original,
         find (fun s => String.eqb (VideoScene.id s) sceneId) (scenes st) = Some s ->
         frameOf frameType s = Some original -> original = "") ->
      out = (Ok tt, st))
  /\ (forall scene original,
        find (fun s => String.eqb (VideoScene.id s) sceneId) (scenes st) = Some scene ->
        frameOf frameType scene = Some original ->
        original <> "" ->
        regenState out.2 = None
        /\ match regenerateVideoFrame svc original editPrompt
                   (VideoScene.description scene) with
           | Ok (newFrame, usage) =>
               out.1 = Ok tt
               /\ regeneratingFrame out.2 = None
               /\ usage = createImageUsageRecord "Regenerate Frame" 1
               /\ usageRecords out.2 = usageRecords st ++ [usage]
               /\ published out.2 = published st ++ [scenes out.2]
               /\ alerts out.2 = alerts st
           | Throw e =>
               out.1 = Ok tt
               /\ regeneratingFrame out.2 = None
               /\ usageRecords out.2 = usageRecords st
               /\ published out.2 = published st
               /\ length (alerts out.2) = S (length (alerts st))
           | Never =>
               out.1 = Never
               /\ regeneratingFrame out.2 = Some (sceneId, frameType)
               /\ usageRecords out.2 = usageRecords st
               /\ published out.2 = published st
               /\ alerts out.2 = alerts st
               /\ scenes out.2 = scenes st
           end).
Proof.
  intros out.
  assert (out = handleRegenerateFrame svc sceneId frameType editPrompt st) as Hout
    by reflexivity.
  clearbody out. unfold handleRegenerateFrame in Hout.
  destruct (find (fun s => String.eqb (VideoScene.id s) sceneId) (scenes st))
    as [scene|] eqn:Hfind; simpl in Hout;
    [|subst out; simpl; do 6 (split; [done|]); intros ? ? ? ? ?; congruence].
  destruct (frameOf frameType scene) as [original|] eqn:Hframe;
    [|subst out; simpl; do 6 (split; [done|]); intros ? ? ? ? ?; congruence].
  destruct (String.eqb_spec original "") as [->|Hne];
    [subst out; simpl; do 6 (split; [done|]); intros ? ? ? ? ?; congruence|].
  unfold bind at 1 2, tryFinally, tryCatch in Hout. simpl in Hout.
  unfold bind at 1, await in Hout.
  assert (forall newFrame usage,
            regenerateVideoFrame svc original editPrompt (VideoScene.description scene)
            = Ok (newFrame, usage) ->
            usage = createImageUsageRecord "Regenerate Frame" 1) as Husage.
  { unfold regenerateVideoFrame, imageOrThrow. intros newFrame usage.
    destruct (ai_regenerate svc _ _ _) as [[mimeType data|text|]| |]; try discriminate;
      [by intros [= _ <-]|destruct (String.eqb text ""); discriminate]. }
  destruct (regenerateVideoFrame svc original editPrompt (VideoScene.description scene))
    as [[newFrame usage]|e|] eqn:Hregen; simpl in Hout; subst out; simpl;
    (split; [done|]); do 4 (split; [done|]);
    (split; [intros H; destruct Hne; by eapply H|]);
    intros scene' original' [= <-] Hframe' Hne'; rewrite Hframe in Hframe';
    injection Hframe' as <-; rewrite Hregen; (split; [done|]).
  - repeat split; try done. by apply (Husage newFrame).
  - repeat split; try done. rewrite length_app. simpl. lia.
  - by repeat split.
Qed.

Lemma regenerate_bookkeeping_witness :
  let ok := handleRegenerateFrame (happyServices panels2 []) "17000000000000" start
              "make the character smile" (stateWith storyboard2) in
  let ko := handleRegenerateFrame regenerateFails "17000000000000" end_
              "" (stateWith storyboard2) in
  usageRecords ok.2 = [createImageUsageRecord "Regenerate Frame" 1]
  /\ published ok.2 = [scenes ok.2]
  /\ ko.1 = Ok tt /\ usageRecords ko.2 = [] /\ published ko.2 = [].
Proof.
  destruct (regenerate_bookkeeping (happyServices panels2 []) "17000000000000" start
              "make the character smile" (stateWith storyboard2))
    as (_ & _ & _ & _ & _ & _ & Hok).
  destruct (regenerate_bookkeeping regenerateFails "17000000000000" end_
              "" (stateWith storyboard2))
    as (_ & _ & _ & _ & _ & _ & Hko).
  destruct (Hok sceneA "data:image/png;base64,S0"
              ltac:(vm_compute; reflexivity) ltac:(vm_compute; reflexivity)
              ltac:(discriminate)) as (_ & _ & _ & _ & Hu & Hp & _).
  destruct (Hko sceneA "data:image/png;base64,E0"
              ltac:(vm_compute; reflexivity) ltac:(vm_compute; reflexivity)
              ltac:(discriminate)) as (_ & Hr & _ & Hu' & Hp' & _).
  split; [exact Hu|]. split; [exact Hp|]. split; [exact Hr|]. split; [exact Hu'|exact Hp'].
Defined.

(** ** The usage record of a decomposition *)

Lemma fold_left_addTokens (us : list UsageRecord.t) :
  forall (u : UsageRecord.t) (t : N),
    UsageRecord.tokens u = Some t ->
    Forall (fun r => UsageRecord.costUSD r = 0%N) us ->
    fold_left addTokens us u
    = UsageRecord.mk (UsageRecord.task u)
        (Some (t + sumN (map (fun r => default 0%N (UsageRecord.tokens r)) us))%N)
        (UsageRecord.images u) (UsageRecord.videoSeconds u) (UsageRecord.costUSD u).
Proof.
  induction us as [|r us IH]; intros u t Ht Hcost; simpl.
  - rewrite N.add_0_r. destruct u. simpl in *. by subst.
  - apply Forall_cons in Hcost as [Hr Hus].
    rewrite (IH (addTokens u r) (t + default 0%N (UsageRecord.tokens r))%N); [|by simpl; rewrite Ht|done].
    simpl. rewrite Hr, N.add_0_r. f_equal. f_equal. lia.
Qed.

Lemma enrichedPanel_usage (svc : Services) (i : nat) (panel : Panel.t)
    (d : InitialSceneData.t) (u : UsageRecord.t) :
  enrichedPanel svc i panel = Ok (d, u) ->
  UsageRecord.tokens u = Some (recommendTokens svc i panel)
  /\ UsageRecord.costUSD u = 0%N.
Proof.
  unfold enrichedPanel, recommendVideoModel, recommendTokens.
  destruct (ai_recommend svc i _ _) as [response| |]; try discriminate.
  destruct (TextResponse.parsed response) as [[model reasoning]|];
    intros [= _ <-]; done.
Qed.

(** X17. A decomposition that succeeds reports one usage record, named
    "Storyboard Generation", with no cost, whose tokens are the prompt and
    completion tokens of the storyboard request plus those of the
    recommendation request of every panel, those that were answered with
    unusable text included. *)
Theorem storyboard_usage_totals
    (svc : Services) (pageImages : list Page.t) (characters : list Character.t)
    (data : list InitialSceneData.t) (usage : UsageRecord.t) :
  generateStoryboardFromPages svc pageImages characters = Ok (data, usage) ->
  exists response panels,
    ai_storyboard svc pageImages characters = Ok response
    /\ TextResponse.parsed response = Some panels
    /\ usage
       = UsageRecord.mk "Storyboard Generation"
           (Some (TextResponse.promptTokenCount response
                  + TextResponse.candidatesTokenCount response
                  + sumN (imap (recommendTokens svc) panels))%N)
           None None 0%N.
Proof.
  unfold generateStoryboardFromPages.
  destruct (ai_storyboard svc pageImages characters) as [response| |]; try discriminate.
  destruct (TextResponse.parsed response) as [panels|] eqn:Hparsed; [|discriminate].
  destruct (Promise_all _) as [enriched| |] eqn:Hall; try discriminate.
  intros [= _ <-]. apply Promise_all_Ok in Hall.
  exists response, panels. split; [done|]. split; [done|].
  assert (forall i e, enriched !! i = Some e ->
            exists panel, panels !! i = Some panel /\ enrichedPanel svc i panel = Ok e) as Hat.
  { intros i e Hi. pose proof (f_equal (fun l => l !! i) Hall) as Hl. simpl in Hl.
    rewrite list_lookup_imap, list_lookup_fmap, Hi in Hl.
    destruct (panels !! i) as [panel|]; [|done]. injection Hl as Hl. by exists panel. }
  rewrite (fold_left_addTokens _ _
             (TextResponse.promptTokenCount response
              + TextResponse.candidatesTokenCount response)%N); [|done|].
  - simpl.
    replace (map (fun r => default 0%N (UsageRecord.tokens r)) (map snd enriched))
      with (imap (recommendTokens svc) panels); [done|].
    symmetry. apply list_eq. intros i.
    change (map ?f ?l) with (f <$> l). rewrite !list_lookup_fmap, list_lookup_imap.
    pose proof (f_equal length Hall) as Hlen. rewrite length_imap, length_fmap in Hlen.
    destruct (enriched !! i) as [[d u]|] eqn:Hi; simpl.
    + destruct (Hat i _ Hi) as (panel & -> & He). simpl.
      by destruct (enrichedPanel_usage _ _ _ _ _ He) as [-> _].
    + apply lookup_ge_None in Hi. rewrite (proj2 (lookup_ge_None panels i)); [done|lia].
  - apply Forall_forall. intros u Hin. change (map snd enriched) with (snd <$> enriched) in Hin.
    apply list_elem_of_fmap in Hin as ([d u'] & -> & Hin).
    apply list_elem_of_lookup in Hin as [i Hi].
    destruct (Hat i _ Hi) as (panel & _ & He).
    by destruct (enrichedPanel_usage _ _ _ _ _ He) as [_ ?].
Qed.

Lemma storyboard_usage_totals_witness :
  UsageRecord.tokens usage2 = Some 144%N.
Proof.
  destruct (storyboard_usage_totals (happyServices panels2 []) pages3 roster2 data2 usage2
              eq_refl) as (response & panels & Hr & Hp & ->).
  injection Hr as <-. injection Hp as <-. reflexivity.
Defined.

(** ** The roster in the prompts *)

Lemma find_skip {A} (p : A -> bool) (l1 : list A) (c : A) (l2 : list A) :
  p c = false \/ (exists c', c' ∈ l1 /\ p c' = true) ->
  find p (l1 ++ c :: l2) = find p (l1 ++ l2).
Proof.
  induction l1 as [|x l1 IH]; intros H; simpl.
  - destruct H as [->|(c' & Hin & _)]; [done|by apply elem_of_nil in Hin].
  - destruct (p x) eqn:Hx; [done|]. apply IH.
    destruct H as [H|(c' & Hin & Hc')]; [by left|right].
    apply elem_of_cons in Hin as [->|Hin]; [congruence|eauto].
Qed.

(** X18. A roster entry counts only if its character is in the scene and no
    earlier entry has the same name: without it the four prompts are the
    same, text for text. *)
Theorem unused_roster_entry_is_ignored (scene : InitialSceneData.t)
    (l1 : list Character.t) (c : Character.t) (l2 : list Character.t) :
  Character.name c ∉ InitialSceneData.charactersInScene scene
  \/ (exists c', c' ∈ l1 /\ Character.name c' = Character.name c) ->
  generateAllModelPrompts scene (l1 ++ c :: l2) = generateAllModelPrompts scene (l1 ++ l2).
Proof.
  intros H.
  assert (getCharacterAnchors scene (l1 ++ c :: l2) = getCharacterAnchors scene (l1 ++ l2))
    as Hanchors.
  { unfold getCharacterAnchors. f_equal. apply map_ext_in. intros charName Hin.
    rewrite find_skip; [done|].
    destruct H as [Hnot|(c' & Hc' & Hname)].
    - left. apply String.eqb_neq. intros Heq. apply Hnot. rewrite Heq.
      by apply list_elem_of_In.
    - destruct (String.eqb_spec (Character.name c) charName) as [Heq|Hne]; [|by left].
      right. exists c'. split; [done|]. apply String.eqb_eq. congruence. }
  unfold generateAllModelPrompts, generateSeedancePrompt. by rewrite Hanchors.
Qed.

Lemma unused_roster_entry_is_ignored_witness :
  generateAllModelPrompts
    (InitialSceneData.mk "scene a" "beat a" 3 ["Ann"] 0 "veo" "has dialogue")
    ([Character.mk "1" "Ann" (Some "red hair") ""]
       ++ Character.mk "2" "Ann" (Some "blue hair") "" :: [])
  = generateAllModelPrompts
      (InitialSceneData.mk "scene a" "beat a" 3 ["Ann"] 0 "veo" "has dialogue")
      ([Character.mk "1" "Ann" (Some "red hair") ""] ++ []).
Proof.
  apply unused_roster_entry_is_ignored. right.
  exists (Character.mk "1" "Ann" (Some "red hair") ""). split; [|reflexivity].
  apply list_elem_of_here.
Defined.

(** ** Updates of different scenes *)

(** X19. Updates by id compose: two updates of different scenes can be applied
    in either order, and two updates of the same scene are one update with
    the composed patch. Every patch of the handlers keeps the id, which is
    what this needs. *)
Theorem patches_by_id_compose (a b : string) (f g : VideoScene.t -> VideoScene.t)
    (l : list VideoScene.t) :
  (forall s, VideoScene.id (f s) = VideoScene.id s) ->
  (forall s, VideoScene.id (g s) = VideoScene.id s) ->
  (a <> b -> patchById a f (patchById b g l) = patchById b g (patchById a f l))
  /\ patchById a f (patchById a g l) = patchById a (fun s => f (g s)) l.
Proof.
  intros Hf Hg. unfold patchById. rewrite !map_map. split.
  - intros Hne. apply map_ext. intros s.
    destruct (String.eqb (VideoScene.id s) a) eqn:Ea,
             (String.eqb (VideoScene.id s) b) eqn:Eb;
      cbv iota; rewrite ?Hf, ?Hg, ?Ea, ?Eb; try done.
    apply String.eqb_eq in Ea, Eb. congruence.
  - apply map_ext. intros s.
    destruct (String.eqb (VideoScene.id s) a) eqn:Ea;
      cbv iota; by rewrite ?Hg, ?Ea.
Qed.

Lemma patches_by_id_compose_witness :
  patchById "17000000000000" (patchDone "blob:v")
    (patchById "17000000000001" (patchFrame start "data:image/png;base64,N") storyboard2)
  = patchById "17000000000001" (patchFrame start "data:image/png;base64,N")
      (patchById "17000000000000" (patchDone "blob:v") storyboard2).
Proof.
  apply (patches_by_id_compose "17000000000000" "17000000000001"
           (patchDone "blob:v") (patchFrame start "data:image/png;base64,N") storyboard2);
    [by intros []|by intros []|discriminate].
Defined.

(** ** From the build to the video run *)

Lemma template_nonempty (c : ascii) (s : string) (rest : list string) :
  template (String c s :: rest) <> "".
Proof.
  unfold template. simpl. destruct (map _ rest); simpl.
  - change (String c s +:+ nl) with (String c (s +:+ nl)). discriminate.
  - change (String c s +:+ nl) with (String c (s +:+ nl)).
    match goal with |- String.append (String c ?x) ?y <> _ =>
      change (String.append (String c x) y) with (String c (String.append x y)) end.
    discriminate.
Qed.

Lemma handleCreateVeoVideo_submits (svc : Services) (scene : VideoScene.t) (st : State)
    (allPrompts : Prompts.t) (startFrame : string) :
  VideoScene.prompts scene = Some allPrompts ->
  Prompts.veo allPrompts <> "" ->
  VideoScene.startFrame scene = Some startFrame ->
  startFrame <> "" ->
  submittedJobs (handleCreateVeoVideo svc scene st).2
  = submittedJobs st ++ [(Prompts.veo allPrompts, Some startFrame)].
Proof.
  intros Hprompts Hveo Hstart Hframe. unfold handleCreateVeoVideo.
  rewrite Hprompts, Hstart. simpl.
  rewrite (proj2 (String.eqb_neq _ _) Hveo), (proj2 (String.eqb_neq _ _) Hframe). simpl.
  unfold bind at 1, tryCatch. simpl. unfold bind at 1.
  match goal with |- context [generateVeoVideo ?a ?b ?c ?d ?e ?s] =>
    pose proof (generateVeoVideo_submits a b c d e s) as Hjobs;
    destruct (generateVeoVideo a b c d e s) as [[[videoUrl usage]|thrown|] st2] end;
    simpl in *; rewrite Hjobs; try done; intros progress st'; simpl; eauto.
Qed.

(** X20. A scene as a successful build leaves it is ready for what comes next:
    it is no longer loading, both frames are there and not empty, so that
    either can be regenerated, the run button is offered, and a video run
    started on it submits one job, with the veo prompt composed for its
    panel and with its start frame. *)
Theorem built_scene_is_ready
    (svc : Services) (now : nat -> N) (characters : list Character.t)
    (pagesToImport : list Page.t) (i : nat) (panel : InitialSceneData.t)
    (frames : nat -> string * string) :
  synthesizeFrames svc pagesToImport i panel = Ok (frames i) ->
  let scene := populate characters frames i panel (placeholderScene now i panel) in
  VideoScene.isLoading scene = false
  /\ veoButtonRendered scene = true
  /\ (forall frameType, exists frame, frameOf frameType scene = Some frame /\ frame <> "")
  /\ forall svc' st,
       submittedJobs (handleCreateVeoVideo svc' scene st).2
       = submittedJobs st ++ [(generateVeoPrompt panel characters, Some (frames i).1)].
Proof.
  intros Hframes scene. destruct (frames i) as [startFrame endFrame] eqn:Hfr.
  destruct (synthesizeFrames_usage _ _ _ _ _ _ Hframes) as (_ & _ & Hs & He).
  split; [done|]. split; [done|]. split.
  - intros [|]; simpl; rewrite Hfr; eauto.
  - intros svc' st.
    apply (handleCreateVeoVideo_submits svc' scene st (generateAllModelPrompts panel characters)
             startFrame).
    + unfold scene, populate. simpl. done.
    + apply (template_nonempty "T"%char).
    + unfold scene, populate. simpl. by rewrite Hfr.
    + done.
Qed.

Lemma built_scene_is_ready_witness :
  let scene := populate roster2
                 (fun i => ("data:image/png;base64,S" +:+ pretty i,
                            "data:image/png;base64,E" +:+ pretty i))
                 1 (InitialSceneData.mk "scene b" "beat b" 10 ["Bob"] 1 "veo" "has dialogue")
                 (placeholderScene clock0 1
                    (InitialSceneData.mk "scene b" "beat b" 10 ["Bob"] 1 "veo" "has dialogue")) in
  VideoScene.isLoading scene = false /\ veoButtonRendered scene = true.
Proof.
  intros scene.
  destruct (built_scene_is_ready (happyServices panels2 []) clock0 roster2 pages3 1
              (InitialSceneData.mk "scene b" "beat b" 10 ["Bob"] 1 "veo" "has dialogue")
              (fun i => ("data:image/png;base64,S" +:+ pretty i,
                         "data:image/png;base64,E" +:+ pretty i))
              eq_refl) as (H1 & H2 & _).
  split; [exact H1|exact H2].
Defined.

(** ** The mocked API service *)

Lemma find_elem {A} (p : A -> bool) (l : list A) (x : A) :
  find p l = Some x -> x ∈ l /\ p x = true.
Proof.
  induction l as [|y l IH]; simpl; [discriminate|].
  destruct (p y) eqn:Hy.
  - intros [= <-]. split; [apply list_elem_of_here|done].
  - intros H. destruct (IH H). split; [by apply list_elem_of_further|done].
Qed.

Lemma existsb_false_find {A} (p : A -> bool) (l : list A) :
  existsb p l = false <-> find p l = None.
Proof.
  induction l as [|y l IH]; simpl; [done|].
  destruct (p y); simpl; [split; discriminate|exact IH].
Qed.

Lemma find_app {A} (p : A -> bool) (l1 l2 : list A) :
  find p (l1 ++ l2) = match find p l1 with Some x => Some x | None => find p l2 end.
Proof. induction l1 as [|y l1 IH]; simpl; [done|]. by destruct (p y). Qed.

Lemma saveUsers_users (fits : gmap string Stored -> bool) (db : Db) :
  users (saveUsers fits db) = users db.
Proof. unfold saveUsers. by destruct (setItem _ _ _ _). Qed.

(** Whatever happens to the promise of a signup whose email is new, the
    account is in the database afterwards, at the end. *)
Lemma apiSignup_users (fits : gmap string Stored -> bool) (now : nat -> N)
    (name email password : string) (db : Db) :
  existsb (fun u => String.eqb (Account.email u) email) (users db) = false ->
  users (apiSignup fits now name email password db).2
  = users db ++ [Account.mk (pretty (now 0)) name email password PlanId.free "creator"].
Proof.
  intros Hnew. unfold apiSignup. rewrite Hnew.
  destruct (setItem _ _ _ _); simpl; by rewrite saveUsers_users.
Qed.

Lemma apiLogin_new_account (now : nat -> N) (new : Account.t) (db : Db) (password : string) :
  existsb (fun u => String.eqb (Account.email u) (Account.email new)) (users db) = false ->
  forall db', users db' = users db ++ [new] ->
    apiLogin now (Account.email new) password db'
    = if String.eqb (Account.password new) password
      then (Ok (AuthResponse.mk ("mock-jwt-token-" +:+ pretty (now 0)) (withoutPassword new)),
            db')
      else (Throw (JsError "Invalid email or password."), db').
Proof.
  intros Hnew db' Husers. unfold apiLogin. rewrite Husers, find_app.
  rewrite (proj1 (existsb_false_find _ _) Hnew). simpl. by rewrite String.eqb_refl.
Qed.

(** X21. A signup that resolves has added one account, after the others, with the
    id taken from the clock, plan free and role creator; the user it answers
    with is that account without its password. From then on a login with the
    same email and password resolves with the same user, and a login with the
    same email and any other password is rejected. The user data stored for
    the new id is the empty user data. *)
Theorem signup_then_login (fits : gmap string Stored -> bool) (now now' : nat -> N)
    (name email password : string) (db db' : Db) (response : AuthResponse.t) :
  apiSignup fits now name email password db = (Ok response, db') ->
  users db' = users db ++ [Account.mk (pretty (now 0)) name email password PlanId.free "creator"]
  /\ response
     = AuthResponse.mk ("mock-jwt-token-" +:+ pretty (now 1))
         (User.mk (pretty (now 0)) name email PlanId.free "creator")
  /\ apiLogin now' email password db'
     = (Ok (AuthResponse.mk ("mock-jwt-token-" +:+ pretty (now' 0)) (AuthResponse.user response)),
        db')
  /\ (forall other, other <> password ->
        apiLogin now' email other db' = (Throw (JsError "Invalid email or password."), db'))
  /\ localStorage db' !! ("comicra-userdata-" +:+ pretty (now 0)) = Some StoredEmptyUserData.
Proof.
  intros Hsignup.
  destruct (existsb (fun u => String.eqb (Account.email u) email) (users db)) eqn:Hnew.
  { unfold apiSignup in Hsignup. rewrite Hnew in Hsignup. discriminate. }
  pose proof (apiSignup_users fits now name email password db Hnew) as Husers.
  rewrite Hsignup in Husers. simpl in Husers.
  assert (response
          = AuthResponse.mk ("mock-jwt-token-" +:+ pretty (now 1))
              (User.mk (pretty (now 0)) name email PlanId.free "creator")) as ->.
  { unfold apiSignup in Hsignup. rewrite Hnew in Hsignup.
    destruct (setItem _ _ _ _); [|discriminate]. by injection Hsignup as <- _. }
  split; [done|]. split; [done|].
  set (new := Account.mk (pretty (now 0)) name email password PlanId.free "creator") in *.
  split; [|split].
  - pose proof (apiLogin_new_account now' new db password Hnew db' Husers) as Hlogin.
    simpl in Hlogin. by rewrite Hlogin, String.eqb_refl.
  - intros other Hother.
    pose proof (apiLogin_new_account now' new db other Hnew db' Husers) as Hlogin.
    simpl in Hlogin. by rewrite Hlogin, (proj2 (String.eqb_neq password other)).
  - unfold apiSignup in Hsignup. rewrite Hnew in Hsignup. unfold setItem at 1 in Hsignup.
    destruct (fits _); [|discriminate]. injection Hsignup as <-. simpl.
    apply lookup_insert_eq.
Qed.

Lemma signup_then_login_witness :
  let out := apiSignup room clock0 "Ann" "ann@comicra.com" "secret" initialDb in
  (apiLogin clock0 "ann@comicra.com" "secret" out.2).1
  = Ok (AuthResponse.mk "mock-jwt-token-1700000000000"
          (User.mk "1700000000000" "Ann" "ann@comicra.com" PlanId.free "creator")).
Proof.
  intros out.
  destruct (signup_then_login room clock0 clock0 "Ann" "ann@comicra.com" "secret" initialDb
              out.2
              (AuthResponse.mk "mock-jwt-token-1700000000000"
                 (User.mk "1700000000000" "Ann" "ann@comicra.com" PlanId.free "creator"))
              eq_refl) as (_ & _ & Hlogin & _ & _).
  by rewrite Hlogin.
Defined.

Lemma userdata_key_ne (userId : string) :
  USERS_STORAGE_KEY <> "comicra-userdata-" +:+ userId.
Proof.
  intros H. apply (f_equal (fun s => String.get 8 s)) in H. vm_compute in H. discriminate.
Qed.

Lemma saveUsers_lookup_ne (fits : gmap string Stored -> bool) (db : Db) (key : string) :
  key <> USERS_STORAGE_KEY ->
  localStorage (saveUsers fits db) !! key = localStorage db !! key.
Proof.
  intros Hne. unfold saveUsers, setItem. destruct (fits _); [|done]. simpl.
  by rewrite lookup_insert_ne.
Qed.

(** X22. When the browser refuses the write of the user data of a new account,
    the promise of the signup stays pending for ever; the account exists all
    the same: a login with it resolves, a second signup with its email is
    rejected, and no user data was written for it. *)
Theorem signup_left_pending (fits : gmap string Stored -> bool) (now now' : nat -> N)
    (name email password : string) (db : Db) :
  let out := apiSignup fits now name email password db in
  out.1 = Never ->
  users out.2 = users db ++ [Account.mk (pretty (now 0)) name email password PlanId.free "creator"]
  /\ apiLogin now' email password out.2
     = (Ok (AuthResponse.mk ("mock-jwt-token-" +:+ pretty (now' 0))
              (User.mk (pretty (now 0)) name email PlanId.free "creator")), out.2)
  /\ (forall name' password',
        apiSignup fits now' name' email password' out.2
        = (Throw (JsError "An account with this email already exists."), out.2))
  /\ localStorage out.2 !! ("comicra-userdata-" +:+ pretty (now 0))
     = localStorage db !! ("comicra-userdata-" +:+ pretty (now 0)).
Proof.
  intros out Hnever.
  destruct (existsb (fun u => String.eqb (Account.email u) email) (users db)) eqn:Hnew.
  { unfold out, apiSignup in Hnever. rewrite Hnew in Hnever. discriminate. }
  pose proof (apiSignup_users fits now name email password db Hnew) as Husers.
  fold out in Husers.
  set (new := Account.mk (pretty (now 0)) name email password PlanId.free "creator") in *.
  split; [done|]. split; [|split].
  - pose proof (apiLogin_new_account now' new db password Hnew out.2 Husers) as Hlogin.
    simpl in Hlogin. by rewrite Hlogin, String.eqb_refl.
  - intros name' password'. unfold apiSignup at 1. rewrite Husers, existsb_app. simpl.
    by rewrite String.eqb_refl, orb_true_r.
  - clear Husers. unfold out, apiSignup in Hnever |- *. rewrite Hnew in Hnever |- *.
    destruct (setItem _ _ _ _); [discriminate|]. simpl.
    rewrite saveUsers_lookup_ne; [done|].
    intros H. by apply (userdata_key_ne (pretty (now 0))).
Qed.

Lemma signup_left_pending_witness :
  let out := apiSignup noRoom clock0 "Ann" "ann@comicra.com" "secret" initialDb in
  out.1 = Never
  /\ (apiLogin clock0 "ann@comicra.com" "secret" out.2).1
     = Ok (AuthResponse.mk "mock-jwt-token-1700000000000"
             (User.mk "1700000000000" "Ann" "ann@comicra.com" PlanId.free "creator")).
Proof.
  intros out. split; [reflexivity|].
  destruct (signup_left_pending noRoom clock0 clock0 "Ann" "ann@comicra.com" "secret"
              initialDb eq_refl) as (_ & Hlogin & _).
  fold out in Hlogin. by rewrite Hlogin.
Defined.

Lemma findIndex_find {A} (p : A -> bool) (l : list A) :
  match find p l with
  | Some x => exists i, findIndex p l = Some i /\ l !! i = Some x /\ p x = true
  | None => findIndex p l = None
  end.
Proof.
  induction l as [|y l IH]; simpl; [done|].
  destruct (p y) eqn:Hy; [by exists 0|].
  destruct (find p l) as [x|].
  - destruct IH as (i & -> & Hi & Hx). by exists (S i).
  - by rewrite IH.
Qed.

Lemma find_NoDup {A B} `{EqDecision B} (key : A -> B) (eqb : B -> B -> bool) (l : list A) (a : A) :
  (forall x y, eqb x y = true <-> x = y) ->
  NoDup (map key l) -> a ∈ l -> find (fun u => eqb (key u) (key a)) l = Some a.
Proof.
  intros Heqb. induction l as [|y l IH]; intros Hnd Hin; [by apply elem_of_nil in Hin|].
  simpl in *. apply NoDup_cons in Hnd as [Hy Hnd].
  apply elem_of_cons in Hin as [->|Hin].
  - by rewrite (proj2 (Heqb _ _) eq_refl).
  - destruct (eqb (key y) (key a)) eqn:E; [|by apply IH].
    apply Heqb in E. destruct Hy. rewrite E.
    change (map key l) with (key <$> l). by apply list_elem_of_fmap_2.
Qed.

Lemma emails_insert (l : list Account.t) (i : nat) (a a' : Account.t) :
  l !! i = Some a -> Account.email a' = Account.email a ->
  map Account.email (<[i := a']> l) = map Account.email l.
Proof.
  intros Hi He. change (map ?f ?x) with (f <$> x).
  rewrite list_fmap_insert, He. apply list_insert_id. by rewrite list_lookup_fmap, Hi.
Qed.

Lemma filter_shorter {A} (f : A -> bool) (l : list A) :
  length (List.filter f l) <= length l
  /\ (length (List.filter f l) < length l <-> exists x, x ∈ l /\ f x = false).
Proof.
  induction l as [|y l [IHle IH]]; simpl.
  - split; [lia|]. split; [lia|]. intros (x & Hx & _). by apply elem_of_nil in Hx.
  - destruct (f y) eqn:Hy; simpl.
    + split; [lia|]. split.
      * intros Hlt. destruct (proj1 IH) as (x & Hx & Hfx); [lia|].
        exists x. split; [by apply list_elem_of_further|done].
      * intros (x & Hx & Hfx). apply elem_of_cons in Hx as [->|Hx]; [congruence|].
        assert (length (List.filter f l) < length l) by (apply IH; eauto). lia.
    + split; [lia|]. split; [|lia]. intros _. exists y. split; [apply list_elem_of_here|done].
Qed.

Lemma elem_of_filter_bool {A} (f : A -> bool) (l : list A) (x : A) :
  x ∈ List.filter f l <-> x ∈ l /\ f x = true.
Proof. rewrite !list_elem_of_In. apply filter_In. Qed.

(** X23. No call lets two accounts have the same email, if none had before. *)
Theorem emails_stay_distinct (fits : gmap string Stored -> bool) (now : nat -> N) (db : Db) :
  NoDup (emailsOf db) ->
  (forall name email password,
     NoDup (emailsOf (apiSignup fits now name email password db).2))
  /\ (forall userId planId, NoDup (emailsOf (apiCreateCheckoutSession fits userId planId db).2))
  /\ (forall userId role plan, NoDup (emailsOf (apiUpdateUser fits userId role plan db).2))
  /\ (forall userId, NoDup (emailsOf (apiDeleteUser fits userId db).2)).
Proof.
  intros Hnd. unfold emailsOf in *. split; [|split; [|split]].
  - intros name email password.
    destruct (existsb (fun u => String.eqb (Account.email u) email) (users db)) eqn:Hnew.
    { unfold apiSignup. by rewrite Hnew. }
    rewrite apiSignup_users by done. rewrite map_app. simpl.
    apply NoDup_app. split; [done|]. split; [|apply NoDup_singleton].
    intros e He ->%list_elem_of_singleton.
    change (map ?f ?x) with (f <$> x) in He.
    apply list_elem_of_fmap in He as (u & -> & Hu).
    assert (existsb (fun u' => String.eqb (Account.email u') (Account.email u)) (users db)
            = true) as Hex.
    { apply existsb_exists. exists u. split; [by apply list_elem_of_In|apply String.eqb_refl]. }
    congruence.
  - intros userId planId. unfold apiCreateCheckoutSession.
    destruct (findIndex _ _) as [i|]; [|done].
    destruct (users db !! i) as [a|] eqn:Hi; [|done].
    destruct (setItem _ _ _ _); simpl; rewrite ?saveUsers_users; simpl;
      by rewrite (emails_insert _ i a).
  - intros userId role plan. unfold apiUpdateUser.
    destruct (findIndex _ _) as [i|]; [|done].
    destruct (users db !! i) as [a|] eqn:Hi; [|done]. simpl.
    rewrite saveUsers_users. simpl. by rewrite (emails_insert _ i a).
  - intros userId. unfold apiDeleteUser.
    assert (NoDup (map Account.email
                     (List.filter (fun u => negb (String.eqb (Account.id u) userId)) (users db))))
      as Hfiltered.
    { clear fits now. induction (users db) as [|y l IH]; simpl in *; [done|].
      apply NoDup_cons in Hnd as [Hy Hnd]. destruct (negb _); simpl; [|by apply IH].
      apply NoDup_cons. split; [|by apply IH].
      intros Hin. apply Hy. change (map ?f ?x) with (f <$> x) in *.
      apply list_elem_of_fmap in Hin as (u & -> & Hu).
      apply elem_of_filter_bool in Hu as [Hu _]. by apply list_elem_of_fmap_2. }
    destruct (Nat.ltb _ _); simpl; by rewrite saveUsers_users.
Qed.

Lemma emails_stay_distinct_witness :
  NoDup (emailsOf (apiSignup room clock0 "Ann" "admin@comicra.com" "x" initialDb).2)
  /\ NoDup (emailsOf (apiDeleteUser room "user-1" initialDb).2).
Proof.
  destruct (emails_stay_distinct room clock0 initialDb) as (Hs & _ & _ & Hd).
  - unfold emailsOf. simpl. repeat (apply NoDup_cons; split; [set_solver|]). apply NoDup_nil_2.
  - split; [apply Hs|apply Hd].
Defined.

(** X24. A login changes nothing. It resolves only with an account that has the
    email and the password, and with that account without its password; it
    is rejected with "Invalid email or password." otherwise. When emails are
    distinct, every account can log in with its own email and password. *)
Theorem login_checks_credentials (now : nat -> N) (email password : string) (db : Db) :
  let out := apiLogin now email password db in
  out.2 = db
  /\ (out.1 = Throw (JsError "Invalid email or password.")
      \/ exists a, a ∈ users db /\ Account.email a = email /\ Account.password a = password
           /\ out.1 = Ok (AuthResponse.mk ("mock-jwt-token-" +:+ pretty (now 0))
                            (withoutPassword a)))
  /\ (NoDup (emailsOf db) ->
      forall a, a ∈ users db -> Account.email a = email -> Account.password a = password ->
        out.1 = Ok (AuthResponse.mk ("mock-jwt-token-" +:+ pretty (now 0)) (withoutPassword a))).
Proof.
  intros out. unfold out, apiLogin. split; [|split].
  - destruct (find _ _) as [user|]; [|done]. by destruct (String.eqb _ _).
  - destruct (find _ _) as [user|] eqn:Hfind; [|by left].
    apply find_elem in Hfind as [Hin He]. apply String.eqb_eq in He.
    destruct (String.eqb_spec (Account.password user) password); [|by left].
    right. by exists user.
  - intros Hnd a Hin <- <-.
    rewrite (find_NoDup Account.email String.eqb (users db) a String.eqb_eq Hnd Hin).
    by rewrite String.eqb_refl.
Qed.

(** X25. Deleting a user removes every account with the id and no other, keeping
    the order; it resolves exactly when there was such an account, and then
    the user data stored for the id is gone; it is rejected with "User not
    found" otherwise, with the accounts as they were. A second deletion of
    the same id is always rejected. *)
Theorem delete_removes_the_accounts (fits : gmap string Stored -> bool) (userId : string)
    (db : Db) :
  let out := apiDeleteUser fits userId db in
  (forall u, u ∈ users out.2 <-> u ∈ users db /\ Account.id u <> userId)
  /\ sublist (users out.2) (users db)
  /\ (out.1 = Ok tt <-> exists u, u ∈ users db /\ Account.id u = userId)
  /\ (out.1 = Ok tt \/ (out.1 = Throw (JsError "User not found") /\ users out.2 = users db))
  /\ (out.1 = Ok tt -> localStorage out.2 !! ("comicra-userdata-" +:+ userId) = None)
  /\ (apiDeleteUser fits userId out.2).1 = Throw (JsError "User not found").
Proof.
  intros out.
  set (keep := fun u => negb (String.eqb (Account.id u) userId)).
  assert (users out.2 = List.filter keep (users db)) as Husers.
  { unfold out, apiDeleteUser. destruct (Nat.ltb _ _); simpl; by rewrite saveUsers_users. }
  assert (forall u, keep u = true <-> Account.id u <> userId) as Hkeep.
  { intros u. unfold keep. rewrite negb_true_iff. apply String.eqb_neq. }
  destruct (filter_shorter keep (users db)) as [Hle Hlt].
  assert (out.1 = if Nat.ltb (length (List.filter keep (users db))) (length (users db))
                  then Ok tt else Throw (JsError "User not found")) as Hresult.
  { unfold out, apiDeleteUser. rewrite saveUsers_users. simpl. fold keep.
    by destruct (Nat.ltb _ _). }
  split; [|split; [|split; [|split; [|split]]]].
  - intros u. rewrite Husers, elem_of_filter_bool. by rewrite Hkeep.
  - rewrite Husers. clear. induction (users db) as [|y l IH]; simpl; [done|].
    destruct (keep y); by constructor.
  - rewrite Hresult. destruct (Nat.ltb_spec (length (List.filter keep (users db)))
                                 (length (users db))) as [H|H].
    + split; [intros _|done]. apply Hlt in H as (u & Hu & Hk). exists u. split; [done|].
      destruct (String.eqb_spec (Account.id u) userId); [done|].
      apply Hkeep in n. congruence.
    + split; [discriminate|]. intros (u & Hu & Hid).
      assert (length (List.filter keep (users db)) < length (users db)); [|lia].
      apply Hlt. exists u. split; [done|]. unfold keep. by rewrite Hid, String.eqb_refl.
  - rewrite Hresult, Husers.
    destruct (Nat.ltb_spec (length (List.filter keep (users db))) (length (users db)))
      as [H|H]; [by left|right]. split; [done|].
    clear - H Hle. induction (users db) as [|y l IH]; simpl in *; [done|].
    pose proof (filter_shorter keep l) as [Hl _].
    destruct (keep y); simpl in *; [f_equal; apply IH; lia|lia].
  - unfold out, apiDeleteUser. rewrite saveUsers_users. simpl. fold keep.
    destruct (Nat.ltb _ _); [|discriminate]. intros _. simpl. apply lookup_delete_eq.
  - unfold apiDeleteUser at 1. rewrite saveUsers_users. simpl. fold keep. rewrite Husers.
    assert (List.filter keep (List.filter keep (users db)) = List.filter keep (users db))
      as ->.
    { clear. induction (users db) as [|y l IH]; simpl; [done|].
      destruct (keep y) eqn:Hy; simpl; [rewrite Hy; by f_equal|done]. }
    by rewrite Nat.ltb_irrefl.
Qed.

Lemma insert_keeps_others (l : list Account.t) (i : nat) (a a' u : Account.t) :
  l !! i = Some a -> u ∈ l -> u <> a -> u ∈ <[i := a']> l.
Proof.
  intros Hi Hu Hne. apply list_elem_of_lookup in Hu as [j Hj].
  apply list_elem_of_lookup. exists j. rewrite list_lookup_insert_ne; [done|].
  intros <-. congruence.
Qed.

(** X26. An update by id changes the first account with the id and no other, and
    in it the role and the plan that were given and nothing else; it answers
    with the updated account without its password. Without such an account
    it is rejected with "User not found" and nothing changes. *)
Theorem update_changes_role_and_plan (fits : gmap string Stored -> bool) (userId : string)
    (role : option string) (plan : option PlanId.t) (db : Db) :
  let out := apiUpdateUser fits userId role plan db in
  match find (fun u => String.eqb (Account.id u) userId) (users db) with
  | Some a =>
      out.1 = Ok (User.mk userId (Account.name a) (Account.email a)
                    (default (Account.plan a) plan) (default (Account.role a) role))
      /\ exists i, users db !! i = Some a
           /\ users out.2 = <[i := assign role plan a]> (users db)
           /\ forall j u, j < i -> users db !! j = Some u -> Account.id u <> userId
  | None => out = (Throw (JsError "User not found"), db)
  end
  /\ map Account.id (users out.2) = map Account.id (users db)
  /\ map Account.name (users out.2) = map Account.name (users db)
  /\ map Account.email (users out.2) = map Account.email (users db)
  /\ map Account.password (users out.2) = map Account.password (users db).
Proof.
  intros out. unfold out, apiUpdateUser.
  assert (forall (l : list Account.t) i,
            findIndex (fun u => String.eqb (Account.id u) userId) l = Some i ->
            forall j u, j < i -> l !! j = Some u -> Account.id u <> userId) as Hfirst.
  { clear. induction l as [|y l IH]; intros i; simpl; [discriminate|].
    destruct (String.eqb_spec (Account.id y) userId) as [|Hy]; [intros [= <-]; lia|].
    destruct (findIndex _ l) as [i'|] eqn:Hi'; [|discriminate]. intros [= <-] [|j] u Hj; simpl.
    - by intros [= <-].
    - apply (IH i' eq_refl). lia. }
  pose proof (findIndex_find (fun u => String.eqb (Account.id u) userId) (users db)) as Hfind.
  destruct (find _ (users db)) as [a|].
  - destruct Hfind as (i & Hi & Hat & Hid). apply String.eqb_eq in Hid.
    rewrite Hi, Hat. simpl. rewrite saveUsers_users. simpl.
    split; [split|].
    + unfold withoutPassword. simpl. by rewrite Hid.
    + exists i. split; [done|]. split; [done|]. by apply Hfirst.
    + change (map ?f ?x) with (f <$> x). rewrite !list_fmap_insert. simpl.
      repeat split; apply list_insert_id; by rewrite list_lookup_fmap, Hat.
  - by rewrite Hfind.
Qed.

Lemma comicra_user_key_ne : "comicra-user" <> USERS_STORAGE_KEY.
Proof. discriminate. Qed.

Lemma setItem_room (fits : gmap string Stored -> bool) (key : string) (value : Stored)
    (store : gmap string Stored) :
  (forall store, fits store = true) -> setItem fits key value store = Some (<[key := value]> store).
Proof. intros Hroom. unfold setItem. by rewrite Hroom. Qed.

Lemma saveUsers_room (fits : gmap string Stored -> bool) (db : Db) :
  (forall store, fits store = true) ->
  localStorage (saveUsers fits db) !! USERS_STORAGE_KEY
  = Some (StoredUsers (users (saveUsers fits db))).
Proof.
  intros Hroom. rewrite saveUsers_users. unfold saveUsers, setItem. rewrite Hroom. simpl.
  apply lookup_insert_eq.
Qed.

(** X27. In a browser that accepts every write, the accounts as stored under
    "comicra-mock-users" are the accounts in memory after every signup,
    upgrade and update that resolves and after every deletion, resolved or
    rejected: no other write of the module touches that key. *)
Theorem users_are_persisted (fits : gmap string Stored -> bool) (now : nat -> N) (db : Db) :
  (forall store, fits store = true) ->
  let persisted db' := localStorage db' !! USERS_STORAGE_KEY = Some (StoredUsers (users db')) in
  (forall name email password response,
     (apiSignup fits now name email password db).1 = Ok response ->
     persisted (apiSignup fits now name email password db).2)
  /\ (forall userId planId user,
        (apiCreateCheckoutSession fits userId planId db).1 = Ok user ->
        persisted (apiCreateCheckoutSession fits userId planId db).2)
  /\ (forall userId role plan user,
        (apiUpdateUser fits userId role plan db).1 = Ok user ->
        persisted (apiUpdateUser fits userId role plan db).2)
  /\ (forall userId, persisted (apiDeleteUser fits userId db).2).
Proof.
  intros Hroom persisted. unfold persisted. split; [|split; [|split]].
  - intros name email password response. unfold apiSignup.
    destruct (existsb _ _); [discriminate|]. rewrite !setItem_room by done. simpl.
    intros _. rewrite lookup_insert_ne by (intros H; by apply (userdata_key_ne (pretty (now 0)))).
    by apply saveUsers_room.
  - intros userId planId user. unfold apiCreateCheckoutSession.
    destruct (findIndex _ _) as [i|]; [|discriminate].
    destruct (users db !! i) as [a|]; [|discriminate].
    rewrite !setItem_room by done. simpl. intros _. by apply saveUsers_room.
  - intros userId role plan user. unfold apiUpdateUser.
    destruct (findIndex _ _) as [i|]; [|discriminate].
    destruct (users db !! i) as [a|]; [|discriminate]. simpl. intros _.
    by apply saveUsers_room.
  - intros userId. unfold apiDeleteUser.
    destruct (Nat.ltb _ _); simpl; [|by apply saveUsers_room].
    rewrite lookup_delete_ne by (intros H; by apply (userdata_key_ne userId)).
    by apply saveUsers_room.
Qed.

Lemma users_are_persisted_witness :
  let db' := (apiSignup room clock0 "Ann" "ann@comicra.com" "secret" initialDb).2 in
  localStorage db' !! USERS_STORAGE_KEY = Some (StoredUsers (users db')).
Proof.
  intros db'.
  destruct (users_are_persisted room clock0 initialDb ltac:(reflexivity)) as (Hsignup & _).
  exact (Hsignup "Ann" "ann@comicra.com" "secret" _ eq_refl).
Defined.

(** X28. An upgrade changes the plan of the first account with the id, whether
    its promise resolves or stays pending because the browser refused the
    write of the user: with distinct emails, a login with that account then
    answers with the new plan. The other accounts are where they were. When
    the upgrade resolves, the user stored under "comicra-user" is the
    upgraded one. *)
Theorem upgrade_shows_at_login (fits : gmap string Stored -> bool) (now : nat -> N)
    (userId : string) (planId : PlanId.t) (db : Db) (a : Account.t) :
  NoDup (emailsOf db) ->
  find (fun u => String.eqb (Account.id u) userId) (users db) = Some a ->
  let out := apiCreateCheckoutSession fits userId planId db in
  (out.1 = Ok (withoutPassword (withPlan planId a)) \/ out.1 = Never)
  /\ apiLogin now (Account.email a) (Account.password a) out.2
     = (Ok (AuthResponse.mk ("mock-jwt-token-" +:+ pretty (now 0))
              (withoutPassword (withPlan planId a))), out.2)
  /\ (forall u, u ∈ users db -> u <> a -> u ∈ users out.2)
  /\ (out.1 <> Never ->
      localStorage out.2 !! "comicra-user"
      = Some (StoredUser (withoutPassword (withPlan planId a)))).
Proof.
  intros Hnd Hfind out.
  pose proof (findIndex_find (fun u => String.eqb (Account.id u) userId) (users db)) as Hidx.
  rewrite Hfind in Hidx. destruct Hidx as (i & Hi & Hat & _).
  assert (users out.2 = <[i := withPlan planId a]> (users db)) as Husers.
  { unfold out, apiCreateCheckoutSession. rewrite Hi, Hat.
    destruct (setItem _ _ _ _); simpl; by rewrite ?saveUsers_users. }
  split; [|split; [|split]].
  - unfold out, apiCreateCheckoutSession. rewrite Hi, Hat.
    destruct (setItem _ _ _ _); [by left|by right].
  - assert (NoDup (emailsOf out.2)) as Hnd'.
    { unfold emailsOf. rewrite Husers. by rewrite (emails_insert _ i a). }
    assert (withPlan planId a ∈ users out.2) as Hin.
    { rewrite Husers. apply list_elem_of_lookup. exists i.
      apply list_lookup_insert_eq. by apply lookup_lt_Some in Hat. }
    unfold apiLogin.
    pose proof (find_NoDup Account.email String.eqb (users out.2) (withPlan planId a)
                  String.eqb_eq Hnd' Hin) as Hf.
    simpl in Hf. rewrite Hf. simpl. by rewrite String.eqb_refl.
  - intros u Hu Hne. rewrite Husers. by apply (insert_keeps_others _ i a).
  - unfold out, apiCreateCheckoutSession. rewrite Hi, Hat.
    unfold setItem at 1 2. destruct (fits _); [|done]. intros _. simpl.
    rewrite saveUsers_lookup_ne by apply comicra_user_key_ne. simpl. apply lookup_insert_eq.
Qed.

Lemma upgrade_shows_at_login_witness :
  let out := apiCreateCheckoutSession noRoom "user-1" PlanId.pro initialDb in
  out.1 = Never
  /\ (apiLogin clock0 "creator@comicra.com" "password" out.2).1
     = Ok (AuthResponse.mk "mock-jwt-token-1700000000000"
             (User.mk "user-1" "Creator User" "creator@comicra.com" PlanId.pro "creator")).
Proof.
  intros out. split; [reflexivity|].
  destruct (upgrade_shows_at_login noRoom clock0 "user-1" PlanId.pro initialDb
              (Account.mk "user-1" "Creator User" "creator@comicra.com" "password"
                 PlanId.free "creator")) as (_ & Hlogin & _).
  - unfold emailsOf. simpl. repeat (apply NoDup_cons; split; [set_solver|]). apply NoDup_nil_2.
  - reflexivity.
  - exact (f_equal fst Hlogin).
Defined.
